(** * A private blockchain with a time-boxed ownership challenge

    Shallow embedding of the [Blockchain] class of [src/blockchain.js] and of
    the second copy of that class kept in the repository.  JavaScript values
    are modelled as far as the class uses them:

    - a JS string is a [string] whose characters are code units below 256;
    - a JS number that holds an integer is a [Z]; [NaN] is [None] in an
      [option Z];
    - [null] in a hash field is [None] in an [option string];
    - a promise is described by the way it ends: [Resolved], [Rejected], or
      [Pending] when nothing ever settles it;
    - the clock ([new Date().getTime()]) and the signature check
      ([bitcoinMessage.verify]) belong to the environment [Env]; every use
      is recorded in the [World];
    - the methods are called one at a time: nothing else touches the object
      between the steps of one call.

    [block.js], which defines the [Block] class, is not among the sources;
    the class is modelled from the specification in [BlockClass].  *)

From Stdlib Require Import ZArith NArith List String Ascii Bool Lia Sorted.
Import ListNotations.

(** ** Hexadecimal text *)

Module Hex.
Local Open Scope N_scope.

(** The value of a hexadecimal digit, in either case. *)
Definition digit (c : ascii) : option N :=
  let n := N_of_ascii c in
  if (48 <=? n) && (n <=? 57) then Some (n - 48)
  else if (97 <=? n) && (n <=? 122) then Some (n - 87)
  else if (65 <=? n) && (n <=? 90) then Some (n - 55)
  else None.

Definition of_nibble (n : N) : ascii :=
  if n <? 10 then ascii_of_N (48 + n) else ascii_of_N (87 + n).

(** The numbers written in a text, separated by anything that is not a
    digit. *)
Fixpoint words_acc (s : string) (cur : option N) : list N :=
  match s with
  | EmptyString => match cur with Some w => [w] | None => [] end
  | String c rest =>
      match digit c with
      | Some d =>
          words_acc rest (Some (match cur with Some w => 16 * w + d | None => d end))
      | None =>
          match cur with
          | Some w => w :: words_acc rest None
          | None => words_acc rest None
          end
      end
  end.

Definition words (s : string) : list N := words_acc s None.

(** [w] in [digits] lower-case hexadecimal digits, in front of [tail]. *)
Fixpoint of_word (digits : nat) (w : N) (tail : string) : string :=
  match digits with
  | O => tail
  | S k => of_word k (N.shiftr w 4) (String (of_nibble (N.land w 15)) tail)
  end.
End Hex.

(** ** [crypto-js/sha256]

    [SHA256(text).toString()]: the SHA-256 digest (FIPS 180-4) of the UTF-8
    bytes of the text, in lower-case hexadecimal.  Words are numbers below
    [2^32]. *)

Module CryptoJS.
Local Open Scope N_scope.

Definition mask32 : N := 0xFFFFFFFF.

Definition add32 (x y : N) : N := N.land (x + y) mask32.

Definition rotr (x n : N) : N :=
  N.lor (N.shiftr x n) (N.land (N.shiftl x (32 - n)) mask32).

Definition Ch (e f g : N) : N :=
  N.lxor (N.land e f) (N.land (N.lxor e mask32) g).

Definition Maj (a b c : N) : N :=
  N.lxor (N.lxor (N.land a b) (N.land a c)) (N.land b c).

Definition bigS0 (a : N) : N :=
  N.lxor (N.lxor (rotr a 2) (rotr a 13)) (rotr a 22).

Definition bigS1 (e : N) : N :=
  N.lxor (N.lxor (rotr e 6) (rotr e 11)) (rotr e 25).

Definition gamma0 (x : N) : N :=
  N.lxor (N.lxor (rotr x 7) (rotr x 18)) (N.shiftr x 3).

Definition gamma1 (x : N) : N :=
  N.lxor (N.lxor (rotr x 17) (rotr x 19)) (N.shiftr x 10).

(** The round constants and the initial hash value. *)
Definition K : list N := Eval vm_compute in Hex.words
  "428a2f98 71374491 b5c0fbcf e9b5dba5 3956c25b 59f111f1 923f82a4 ab1c5ed5
   d807aa98 12835b01 243185be 550c7dc3 72be5d74 80deb1fe 9bdc06a7 c19bf174
   e49b69c1 efbe4786 0fc19dc6 240ca1cc 2de92c6f 4a7484aa 5cb0a9dc 76f988da
   983e5152 a831c66d b00327c8 bf597fc7 c6e00bf3 d5a79147 06ca6351 14292967
   27b70a85 2e1b2138 4d2c6dfc 53380d13 650a7354 766a0abb 81c2c92e 92722c85
   a2bfe8a1 a81a664b c24b8b70 c76c51a3 d192e819 d6990624 f40e3585 106aa070
   19a4c116 1e376c08 2748774c 34b0bcb5 391c0cb3 4ed8aa4a 5b9cca4f 682e6ff3
   748f82ee 78a5636f 84c87814 8cc70208 90befffa a4506ceb bef9a3f7 c67178f2".

Definition H_init : list N := Eval vm_compute in Hex.words
  "6a09e667 bb67ae85 3c6ef372 a54ff53a 510e527f 9b05688c 1f83d9ab 5be0cd19".

(** The message schedule; [w] holds the words computed so far, the latest
    first. *)
Fixpoint schedule (steps : nat) (w : list N) : list N :=
  match steps with
  | O => w
  | S k =>
      let wt := add32 (add32 (gamma1 (nth 1 w 0)) (nth 6 w 0))
                      (add32 (gamma0 (nth 14 w 0)) (nth 15 w 0)) in
      schedule k (wt :: w)
  end.

Record Regs : Type := mkRegs
  { ra : N; rb : N; rc : N; rd : N; re : N; rf : N; rg : N; rh : N }.

Definition round (r : Regs) (kw : N * N) : Regs :=
  let t1 := add32 (add32 (add32 (rh r) (bigS1 (re r)))
                         (add32 (Ch (re r) (rf r) (rg r)) (fst kw)))
                  (snd kw) in
  let t2 := add32 (bigS0 (ra r)) (Maj (ra r) (rb r) (rc r)) in
  mkRegs (add32 t1 t2) (ra r) (rb r) (rc r) (add32 (rd r) t1) (re r) (rf r) (rg r).

Definition regs_of (h : list N) : Regs :=
  mkRegs (nth 0 h 0) (nth 1 h 0) (nth 2 h 0) (nth 3 h 0)
         (nth 4 h 0) (nth 5 h 0) (nth 6 h 0) (nth 7 h 0).

Definition list_of (r : Regs) : list N :=
  [ra r; rb r; rc r; rd r; re r; rf r; rg r; rh r].

Definition processBlock (h : list N) (m : list N) : list N :=
  let w := rev (schedule 48 (rev m)) in
  let r := fold_left round (combine K w) (regs_of h) in
  map (fun p => add32 (fst p) (snd p)) (combine h (list_of r)).

(** Big-endian words of a list of bytes. *)
Fixpoint be_words (bytes : list N) : list N :=
  match bytes with
  | b0 :: b1 :: b2 :: b3 :: rest =>
      (N.shiftl b0 24 + N.shiftl b1 16 + N.shiftl b2 8 + b3) :: be_words rest
  | _ => []
  end.

(** Blocks of sixteen words. *)
Fixpoint blocks (n : nat) (ws : list N) : list (list N) :=
  match n with
  | O => []
  | S k =>
      match ws with
      | [] => []
      | _ => firstn 16 ws :: blocks k (skipn 16 ws)
      end
  end.

Definition pad (msg : list N) : list N :=
  let len := N.of_nat (List.length msg) in
  let zeros := N.to_nat ((64 - (len + 9) mod 64) mod 64) in
  let bits := 8 * len in
  (msg ++ [128] ++ repeat 0 zeros
      ++ map (fun i => N.land (N.shiftr bits (8 * i)) 255) [7; 6; 5; 4; 3; 2; 1; 0])%list.

(** The UTF-8 bytes of a code unit below 256. *)
Definition utf8 (c : ascii) : list N :=
  let n := N_of_ascii c in
  if n <? 128 then [n]
  else [N.lor 192 (N.shiftr n 6); N.lor 128 (N.land n 63)].

Definition bytes_of (s : string) : list N :=
  flat_map utf8 (list_ascii_of_string s).

Definition SHA256 (s : string) : string :=
  let ws := be_words (pad (bytes_of s)) in
  let h := fold_left processBlock (blocks (List.length ws) ws) H_init in
  fold_right (fun w tail => Hex.of_word 8 w tail) EmptyString h.
End CryptoJS.

(** ** The parts of the JavaScript language the class relies on *)

Module JS.
Local Open Scope string_scope.

Definition code (c : ascii) : N := N_of_ascii c.

(** *** [Number.prototype.toString] on integers *)

(** Decimal digits, least significant first. *)
Fixpoint digits_le (fuel : nat) (n : N) : list N :=
  match fuel with
  | O => []
  | S k => if (n <? 10)%N then [n] else (n mod 10)%N :: digits_le k (n / 10)%N
  end.

Definition digit_char (d : N) : ascii := ascii_of_N (48 + d).

Definition N_toString (n : N) : string :=
  string_of_list_ascii
    (map digit_char (rev (digits_le (S (N.to_nat (N.log2 n))) n))).

Definition Z_toString (z : Z) : string :=
  match z with
  | Zneg p => "-" ++ N_toString (Npos p)
  | _ => N_toString (Z.to_N z)
  end.

(** *** [String.prototype.slice(0, -3)] and [String.prototype.split(':')] *)

Definition slice_0_minus3 (s : string) : string :=
  substring 0 (String.length s - 3) s.

Fixpoint split (sep : ascii) (s : string) : list string :=
  match s with
  | EmptyString => [EmptyString]
  | String c rest =>
      if Ascii.eqb c sep then EmptyString :: split sep rest
      else match split sep rest with
           | field :: fields => String c field :: fields
           | [] => [String c EmptyString]
           end
  end.

(** *** [parseInt(x)] without a radix; [None] is [NaN] *)

(** WhiteSpace and LineTerminator code units below 256. *)
Definition is_whitespace (c : ascii) : bool :=
  let n := code c in
  ((9 <=? n) && (n <=? 13) || (n =? 32) || (n =? 160))%N.

Fixpoint trim_start (s : list ascii) : list ascii :=
  match s with
  | c :: rest => if is_whitespace c then trim_start rest else s
  | [] => []
  end.

Definition digit_in (radix : N) (c : ascii) : option N :=
  match Hex.digit c with
  | Some d => if (d <? radix)%N then Some d else None
  | None => None
  end.

(** The longest prefix of digits of the radix, read as a number; [None]
    when that prefix is empty. *)
Fixpoint read_digits (radix : N) (acc : option N) (s : list ascii) : option N :=
  match s with
  | c :: rest =>
      match digit_in radix c with
      | Some d =>
          read_digits radix
            (Some (match acc with Some a => a * radix + d | None => d end)%N) rest
      | None => acc
      end
  | [] => acc
  end.

Definition strip_sign (s : list ascii) : bool * list ascii :=
  match s with
  | "-"%char :: rest => (true, rest)
  | "+"%char :: rest => (false, rest)
  | _ => (false, s)
  end.

Definition strip_hex_prefix (s : list ascii) : N * list ascii :=
  match s with
  | "0"%char :: "x"%char :: rest => (16%N, rest)
  | "0"%char :: "X"%char :: rest => (16%N, rest)
  | _ => (10%N, s)
  end.

(** The argument is [None] for [undefined], which [parseInt] first turns
    into the text "undefined". *)
Definition parseInt (x : option string) : option Z :=
  let inputString := match x with Some s => s | None => "undefined" end in
  let '(negative, s) := strip_sign (trim_start (list_ascii_of_string inputString)) in
  let '(radix, s) := strip_hex_prefix s in
  match read_digits radix None s with
  | Some n => Some (if negative then - Z.of_N n else Z.of_N n)%Z
  | None => None
  end.

(** Arithmetic and comparison on numbers that may be [NaN]. *)
Definition minus (a b : option Z) : option Z :=
  match a, b with
  | Some x, Some y => Some (x - y)%Z
  | _, _ => None
  end.

Definition lt (a : option Z) (b : Z) : bool :=
  match a with Some x => (x <? b)%Z | None => false end.

Definition gt (a : option Z) (b : Z) : bool :=
  match a with Some x => (b <? x)%Z | None => false end.

(** *** [JSON.stringify] on strings *)

Definition backslash : ascii := ascii_of_N 92.

Definition quote_char (c : ascii) : string :=
  let n := code c in
  if (n =? 34)%N then String backslash (String c EmptyString)
  else if (n =? 92)%N then String backslash (String c EmptyString)
  else if (n =? 8)%N then "\b"
  else if (n =? 9)%N then "\t"
  else if (n =? 10)%N then "\n"
  else if (n =? 12)%N then "\f"
  else if (n =? 13)%N then "\r"
  else if (n <? 32)%N then "\u" ++ Hex.of_word 4 n EmptyString
  else String c EmptyString.

Fixpoint quote_chars (s : string) : string :=
  match s with
  | EmptyString => EmptyString
  | String c rest => quote_char c ++ quote_chars rest
  end.

Definition quote (s : string) : string :=
  String (ascii_of_N 34) (quote_chars s ++ String (ascii_of_N 34) EmptyString).

Definition quote_nullable (v : option string) : string :=
  match v with Some s => quote s | None => "null" end.
End JS.

(** *** Loose equality [x == 0] for a string [x]

    [ToNumber] reads the string as a StringNumericLiteral and the comparison
    asks whether the number read is zero.  A decimal literal [m * 10^e] is
    read as zero when [m = 0] or when it rounds to zero, that is when it is
    at most [2^-1075]. *)

Module StringToNumber.
Local Open Scope string_scope.

Definition trim (s : list ascii) : list ascii :=
  rev (JS.trim_start (rev (JS.trim_start s))).

Fixpoint all_digits (radix : N) (s : list ascii) : option N :=
  match s with
  | [] => Some 0%N
  | c :: rest =>
      match JS.digit_in radix c, all_digits radix rest with
      | Some d, Some v => Some (d * radix ^ N.of_nat (List.length rest) + v)%N
      | _, _ => None
      end
  end.

Fixpoint span_digits (s : list ascii) : list ascii * list ascii :=
  match s with
  | c :: rest =>
      match JS.digit_in 10 c with
      | Some _ => let '(ds, tl) := span_digits rest in (c :: ds, tl)
      | None => ([], s)
      end
  | [] => ([], [])
  end.

(** The exponent part, [None] when it is not well formed. *)
Definition exponent (s : list ascii) : option Z :=
  match s with
  | [] => Some 0%Z
  | c :: rest =>
      if (Ascii.eqb c "e" || Ascii.eqb c "E")%bool then
        let '(negative, ds) := JS.strip_sign rest in
        match ds, all_digits 10 ds with
        | _ :: _, Some v => Some (if negative then - Z.of_N v else Z.of_N v)%Z
        | _, _ => None
        end
      else None
  end.

Definition decimal_is_zero (s : list ascii) : bool :=
  let '(_, s) := JS.strip_sign s in
  let '(int_part, s) := span_digits s in
  let '(frac_part, s) :=
    match s with
    | "."%char :: rest => span_digits rest
    | _ => ([], s)
    end in
  match (int_part ++ frac_part)%list, all_digits 10 (int_part ++ frac_part)%list, exponent s with
  | _ :: _, Some m, Some e =>
      let e10 := (e - Z.of_nat (List.length frac_part))%Z in
      ((m =? 0)%N
       || (e10 <? 0)%Z && (Z.of_N m * 2 ^ 1075 <=? 10 ^ (- e10))%Z)%bool
  | _, _, _ => false
  end.

Definition radix_is_zero (radix : N) (ds : list ascii) : bool :=
  match ds, all_digits radix ds with
  | _ :: _, Some v => (v =? 0)%N
  | _, _ => false
  end.

Definition is_zero (x : string) : bool :=
  match trim (list_ascii_of_string x) with
  | [] => true
  | "0"%char :: "x"%char :: ds | "0"%char :: "X"%char :: ds => radix_is_zero 16 ds
  | "0"%char :: "o"%char :: ds | "0"%char :: "O"%char :: ds => radix_is_zero 8 ds
  | "0"%char :: "b"%char :: ds | "0"%char :: "B"%char :: ds => radix_is_zero 2 ds
  | s => decimal_is_zero s
  end.
End StringToNumber.

(** ** The Block class *)

Module BlockClass.
Local Open Scope string_scope.

(** Modelled from the spec: [block.js] is not among the sources.  The body
    of a block is an opaque payload plus an owner address (section 3):
    either the genesis marker [{data: 'Genesis Block'}] or the object
    [{address, message, signature, star}] that [submitStar] builds;
    [star] stands for the JSON text of the caller's star object. *)
Inductive BlockData : Type :=
| Genesis (data : string)
| Star (address message signature star : string).

(** Modelled from the spec: [block.js] is not among the sources.  The
    fields are those of section 3 of the spec under the names
    [blockchain.js] uses; a block that has not been hashed yet has [null]
    in [hash]. *)
Record Block : Type := mkBlock
  { height : Z;
    time : string;
    previousBlockHash : option string;
    body : BlockData;
    hash : option string }.

Definition set_height (b : Block) (h : Z) : Block :=
  mkBlock h (time b) (previousBlockHash b) (body b) (hash b).
Definition set_time (b : Block) (t : string) : Block :=
  mkBlock (height b) t (previousBlockHash b) (body b) (hash b).
Definition set_previousBlockHash (b : Block) (p : option string) : Block :=
  mkBlock (height b) (time b) p (body b) (hash b).
Definition set_hash (b : Block) (h : option string) : Block :=
  mkBlock (height b) (time b) (previousBlockHash b) (body b) h.

(** Modelled from the spec: the constructor of [block.js] is missing.
    [new Block(data)] holds the payload and no hash, height, time or link
    yet; [_addBlock] assigns those. *)
Definition new (data : BlockData) : Block :=
  mkBlock 0 "0" None data None.

(** Modelled from the spec: the payload codec of [block.js] is missing.
    The stored body is the JSON text of the payload, written in
    hexadecimal. *)
Definition json_of_data (d : BlockData) : string :=
  match d with
  | Genesis data => "{" ++ JS.quote "data" ++ ":" ++ JS.quote data ++ "}"
  | Star address message signature star =>
      "{" ++ JS.quote "address" ++ ":" ++ JS.quote address
          ++ "," ++ JS.quote "message" ++ ":" ++ JS.quote message
          ++ "," ++ JS.quote "signature" ++ ":" ++ JS.quote signature
          ++ "," ++ JS.quote "star" ++ ":" ++ star ++ "}"
  end.

(** The bytes of a text in hexadecimal. *)
Definition hex_of (s : string) : string :=
  fold_right (fun byte tail => Hex.of_word 2 byte tail) EmptyString
             (CryptoJS.bytes_of s).

(** Modelled from the spec: the payload codec of [block.js] is missing.
    [encode] is the body a block stores for a payload. *)
Definition encode (d : BlockData) : string := hex_of (json_of_data d).

(** Modelled from the spec: [getBData] of [block.js] is missing.  It
    decodes the body and gives back the payload object. *)
Definition getBData (b : Block) : BlockData := body b.

(** The [address] property of a decoded payload; [None] is [undefined]. *)
Definition address_of (d : BlockData) : option string :=
  match d with
  | Genesis _ => None
  | Star address _ _ _ => Some address
  end.

(** [JSON.stringify(block)]: every own property of the block, [hash]
    included, in the order the constructor created them. *)
Definition stringify (b : Block) : string :=
  "{" ++ JS.quote "height" ++ ":" ++ JS.Z_toString (height b)
      ++ "," ++ JS.quote "time" ++ ":" ++ JS.quote (time b)
      ++ "," ++ JS.quote "previousBlockHash" ++ ":" ++ JS.quote_nullable (previousBlockHash b)
      ++ "," ++ JS.quote "body" ++ ":" ++ JS.quote (encode (body b))
      ++ "," ++ JS.quote "hash" ++ ":" ++ JS.quote_nullable (hash b) ++ "}".

(** Modelled from the spec: the recomputation of a block's hash in
    [block.js] is missing.  The digest is taken the way [_addBlock] takes
    it, over the block with its [hash] blanked, so that the stored hash is
    never part of the input (section 4.2). *)
Definition recompute_hash (b : Block) : string :=
  CryptoJS.SHA256 (stringify (set_hash b None)).

(** Modelled from the spec: [validate] of [block.js] is missing.  It
    compares the stored hash with the recomputed one (section 4.5). *)
Definition validate (b : Block) : bool :=
  match hash b with
  | Some h => String.eqb h (recompute_hash b)
  | None => false
  end.
End BlockClass.

(** ** Promises, exceptions and the environment *)

(** How a promise ends.  [Pending] is a promise that nothing settles. *)
Inductive Promise (V E : Type) : Type :=
| Pending
| Resolved (v : V)
| Rejected (e : E).
Arguments Pending {V E}.
Arguments Resolved {V E} v.
Arguments Rejected {V E} e.

(** A promise takes the first [resolve] or [reject] and ignores later ones. *)
Definition settle {V E} (calls : list (Promise V E)) : Promise V E :=
  hd Pending calls.

(** A statement either completes or throws. *)
Inductive Completion (A : Type) : Type :=
| Normal (a : A)
| Throw (error : string).
Arguments Normal {A} a.
Arguments Throw {A} error.

Fixpoint forEach {A S : Type} (callback : A -> S -> Completion S)
    (l : list A) (s : S) : Completion S :=
  match l with
  | [] => Normal s
  | x :: rest =>
      match callback x s with
      | Normal s' => forEach callback rest s'
      | Throw error => Throw error
      end
  end.

(** The jobs an [await] queued, run in the order they were queued, on an
    object they share. *)
Definition run_jobs {S : Type} (jobs : list (S -> S)) (s : S) : S :=
  fold_left (fun s job => job s) jobs s.

(** What [bitcoinMessage.verify] does on a call. *)
Inductive VerifyOutcome : Type :=
| Returns (b : bool)
| Raises.

Record Env : Type := mkEnv
  { (** the value of the n-th [new Date().getTime()], in milliseconds *)
    Date_getTime : nat -> N;
    bitcoinMessage_verify : string -> string -> string -> VerifyOutcome }.

(** The fields of a [Blockchain] object. *)
Record Blockchain : Type := mkBlockchain
  { chain : list BlockClass.Block;
    height : Z }.

Record World : Type := mkWorld
  { this : Blockchain;
    clock_reads : nat;
    (** arguments of the calls of [bitcoinMessage.verify], latest first *)
    verify_calls : list (string * string * string) }.

Definition M (A : Type) : Type := Env -> World -> A * World.

Definition ret {A : Type} (a : A) : M A := fun _ w => (a, w).

Definition bind {A B : Type} (m : M A) (k : A -> M B) : M B :=
  fun env w => let '(a, w') := m env w in k a env w'.

Declare Scope js_scope.
Delimit Scope js_scope with js.
Notation "x <- m ;; k" := (bind m (fun x => k))
  (at level 61, m at next level, right associativity) : js_scope.
Notation "m ;; k" := (bind m (fun _ => k))
  (at level 61, right associativity) : js_scope.

Definition get_this : M Blockchain := fun _ w => (this w, w).

Definition set_this (b : Blockchain) : M unit :=
  fun _ w => (tt, mkWorld b (clock_reads w) (verify_calls w)).

(** [new Date().getTime()] *)
Definition getTime : M N :=
  fun env w =>
    (Date_getTime env (clock_reads w),
     mkWorld (this w) (S (clock_reads w)) (verify_calls w)).

(** [new Date().getTime().toString().slice(0,-3)] *)
Definition seconds_text : M string :=
  fun env w => let '(t, w') := getTime env w in
               (JS.slice_0_minus3 (JS.N_toString t), w').

(** [bitcoinMessage.verify(message, address, signature)] *)
Definition verify (message address signature : string) : M VerifyOutcome :=
  fun env w =>
    (bitcoinMessage_verify env message address signature,
     mkWorld (this w) (clock_reads w) ((message, address, signature) :: verify_calls w)).

(** What [submitStar] rejects with: a text, or the block it built. *)
Inductive Rejection : Type :=
| Message (text : string)
| TheBlock (b : BlockClass.Block).

(** ** The Blockchain class of [src/blockchain.js] *)

Module Blockchain.
Local Open Scope string_scope.
Local Open Scope js_scope.
Local Open Scope Z_scope.

(** [self.chain[self.chain.length-1]]; [None] is [undefined]. *)
Definition tail_block (l : list BlockClass.Block) : option BlockClass.Block :=
  match l with
  | [] => None
  | _ => nth_error l (List.length l - 1)
  end.

(** [_addBlock(block)].  An exception inside the [try] is caught and
    dropped, and then the promise is never settled.  The method writes into
    the object it is given and pushes that very object; a block is a value
    here, so the definition describes the call on a block that is not
    already one of the stored ones, as the blocks the class itself passes
    are. *)
Definition _addBlock (block : BlockClass.Block) : M (Promise BlockClass.Block Rejection) :=
  self <- get_this ;;
  let block := BlockClass.set_height block (height self + 1) in
  t <- seconds_text ;;
  let block := BlockClass.set_time block t in
  let linked :=
    if height self =? -1 then Normal (BlockClass.set_previousBlockHash block None)
    else match tail_block (chain self) with
         | Some tail => Normal (BlockClass.set_previousBlockHash block (BlockClass.hash tail))
         | None => Throw "TypeError: Cannot read properties of undefined (reading 'hash')"
         end in
  match linked with
  | Normal block =>
      let block := BlockClass.set_hash block (Some (CryptoJS.SHA256 (BlockClass.stringify block))) in
      set_this (mkBlockchain (chain self ++ [block]) (height self + 1)) ;;
      ret (Resolved block)
  | Throw _ => ret Pending
  end.

(** [initializeChain()] *)
Definition initializeChain : M unit :=
  self <- get_this ;;
  if height self =? -1 then
    _addBlock (BlockClass.new (BlockClass.Genesis "Genesis Block")) ;; ret tt
  else ret tt.

(** [getChainHeight()] *)
Definition getChainHeight : M (Promise Z Rejection) :=
  self <- get_this ;; ret (Resolved (height self)).

(** [requestMessageOwnershipVerification(address)] *)
Definition requestMessageOwnershipVerification (address : string)
  : M (Promise string Rejection) :=
  t <- seconds_text ;;
  ret (Resolved (address ++ ":" ++ t ++ ":starRegistry")).

(** *** [validateChain()] *)

(** The value of the variable [previous_Block_Hash]: the number [0] it
    starts with, or the [hash] field of a block. *)
Inductive PreviousHash : Type :=
| Zero
| HashOf (h : option string).

(** [block.previousBlockHash == previous_Block_Hash] *)
Definition loose_eq (link : option string) (previous : PreviousHash) : bool :=
  match previous, link with
  | HashOf None, None => true
  | HashOf (Some h), Some l => String.eqb l h
  | HashOf _, _ => false
  | Zero, Some l => StringToNumber.is_zero l
  | Zero, None => false
  end.

Definition text_of_nullable (v : option string) : string :=
  match v with Some s => s | None => "null" end.

Definition text_of_previous (p : PreviousHash) : string :=
  match p with Zero => "0" | HashOf h => text_of_nullable h end.

Definition e_acute : string := String (ascii_of_N 233) EmptyString.

(** [ChainIsValid = false]: [ChainIsValid] is declared with [const], so
    the assignment throws. *)
Definition assign_ChainIsValid {A : Type} (_ : bool) : Completion A :=
  Throw "TypeError: Assignment to constant variable.".

(** The callback of [self.chain.forEach] in [validateChain], parametrised
    by the result of [block.validate() == false].  The state is the pair
    of the variables [previous_Block_Hash] and [errorLog]. *)
Definition check_block (is_invalid : BlockClass.Block -> bool) (block : BlockClass.Block)
    (vars : PreviousHash * list string) : Completion (PreviousHash * list string) :=
  let '(previous_Block_Hash, errorLog) := vars in
  let previous_Block_Hash :=
    if BlockClass.height block =? 0 then HashOf (BlockClass.hash block) else previous_Block_Hash in
  let first :=
    if is_invalid block then
      let errorLog := (errorLog ++
        [("<br><hr>Il y a une erreur sur le block "
            ++ JS.Z_toString (BlockClass.height block))%string])%list in
      match assign_ChainIsValid false with
      | Normal tt => Normal errorLog
      | Throw error => Throw error
      end
    else Normal errorLog in
  match first with
  | Throw error => Throw error
  | Normal errorLog =>
      let second :=
        if BlockClass.height block =? 0 then Normal errorLog
        else if loose_eq (BlockClass.previousBlockHash block) previous_Block_Hash then Normal errorLog
        else
          let errorLog := (errorLog ++
            [("<br>Les hash ne coresspondent pas, la chaine est bris" ++ e_acute
               ++ ", previous bloc hash: " ++ text_of_previous previous_Block_Hash
               ++ "  pr" ++ e_acute ++ "sent hash = "
               ++ text_of_nullable (BlockClass.previousBlockHash block))%string])%list in
          match assign_ChainIsValid false with
          | Normal tt => Normal errorLog
          | Throw error => Throw error
          end in
      match second with
      | Throw error => Throw error
      | Normal errorLog => Normal (HashOf (BlockClass.hash block), errorLog)
      end
  end.

(** [block.validate() == false] *)
Definition BlockIsValid_is_false (block : BlockClass.Block) : bool :=
  negb (BlockClass.validate block).

(** [validateChain()].  An exception thrown in the callback leaves the
    [async] executor before [resolve] or [reject] is reached: it rejects the
    executor's own promise, which nobody holds, and the promise
    [validateChain] returned is never settled. *)
Definition validateChain_with (is_invalid : BlockClass.Block -> bool)
  : M (Promise bool (list string)) :=
  self <- get_this ;;
  let errorLog : list string := [] in
  let ChainIsValid := true in
  let previous_Block_Hash := Zero in
  match forEach (check_block is_invalid) (chain self) (previous_Block_Hash, errorLog) with
  | Normal (_, errorLog) =>
      if Bool.eqb ChainIsValid true then ret (Resolved true)
      else ret (Rejected errorLog)
  | Throw _ => ret Pending
  end.

Definition validateChain : M (Promise bool (list string)) :=
  validateChain_with BlockIsValid_is_false.

(** [constructor()] *)
Definition constructor : M unit :=
  set_this (mkBlockchain [] (-1)) ;;
  initializeChain ;;
  validateChain ;;
  ret tt.

(** *** [submitStar(address, message, signature, star)] *)

(** [parseInt(message.split(':')[1])] *)
Definition time_in (message : string) : option Z :=
  JS.parseInt (nth_error (JS.split ":" message) 1).

(** Lines 165 to 177: what [submitStar] does with the awaited
    [validateChain()].  A rejection makes [await] throw into the [catch],
    which drops it. *)
Definition after_validation (blockToPush : BlockClass.Block)
    (validation : Promise bool (list string)) : Promise BlockClass.Block Rejection :=
  match validation with
  | Resolved blockchain_valide_boo =>
      if Bool.eqb blockchain_valide_boo true then Resolved blockToPush
      else Rejected (TheBlock blockToPush)
  | Rejected _ => Pending
  | Pending => Pending
  end.

Definition submitStar (address message signature star : string)
  : M (Promise BlockClass.Block Rejection) :=
  let timeOfSubmission := time_in message in
  now <- seconds_text ;;
  let currentTime := JS.parseInt (Some now) in
  let delaie := JS.minus currentTime timeOfSubmission in
  if JS.lt delaie 300 then
    outcome <- verify message address signature ;;
    let BooMessageVerified :=
      match outcome with Returns b => b | Raises => false end in
    if Bool.eqb BooMessageVerified true then
      let blockData := BlockClass.Star address message signature star in
      let blockToPush := BlockClass.new blockData in
      added <- _addBlock blockToPush ;;
      match added with
      | Resolved blockToPush =>
          validation <- validateChain ;;
          ret (after_validation blockToPush validation)
      | _ => ret Pending
      end
    else ret (Rejected (Message "There was a error verifiyng your message."))
  else ret (Rejected (Message "The 5 minute delay has been reached")).

(** *** Lookups *)

(** [getBlockByHash(hash)]; the resolved [None] is [null]. *)
Definition getBlockByHash (h : string) : M (Promise (option BlockClass.Block) Rejection) :=
  self <- get_this ;;
  ret (Resolved (find (fun p => match BlockClass.hash p with
                                | Some x => String.eqb x h
                                | None => false
                                end) (chain self))).

(** [getBlockByHeight(height)] *)
Definition getBlockByHeight (h : Z) : M (Promise (option BlockClass.Block) Rejection) :=
  self <- get_this ;;
  ret (Resolved (hd_error (filter (fun p => BlockClass.height p =? h) (chain self)))).

(** [currentBlockUncripted.address === address] *)
Definition address_is (d : BlockClass.BlockData) (address : string) : bool :=
  match BlockClass.address_of d with
  | Some a => String.eqb a address
  | None => false
  end.

(** The callback of [self.chain.forEach] in [getStarsByWalletAddress].  It
    calls [block.getBData()] and stops at the [await]; what follows the
    [await] is a job on the array [stars]. *)
Definition stars_callback (address : string) (block : BlockClass.Block)
  : list BlockClass.BlockData -> list BlockClass.BlockData :=
  let currentBlockUncripted := BlockClass.getBData block in
  fun stars =>
    if BlockClass.height block =? 0 then stars
    else if address_is currentBlockUncripted address
         then (stars ++ [currentBlockUncripted])%list
         else stars.

(** [getStarsByWalletAddress(address)].  [resolve(stars)] is called while
    the array is still empty, and hands out the array itself.  The promises
    of [getBData()] are taken as settled when awaited, so the jobs of the
    callbacks are queued, in chain order, ahead of the job of anyone who
    waits for the result: the resolved value is the array as its readers
    find it, after these jobs. *)
Definition getStarsByWalletAddress (address : string)
  : M (Promise (list BlockClass.BlockData) Rejection) :=
  self <- get_this ;;
  let stars : list BlockClass.BlockData := [] in
  let jobs := map (stars_callback address) (chain self) in
  ret (Resolved (run_jobs jobs stars)).
End Blockchain.

(** ** The second copy of the class

    The repository holds a second file with the same class.  Its
    constructor, [initializeChain], [getChainHeight], [_addBlock],
    [requestMessageOwnershipVerification], [getBlockByHash] and
    [getBlockByHeight] are the text of [src/blockchain.js]; the three
    methods below differ. *)

Module BlockchainCopy.
Local Open Scope string_scope.
Local Open Scope js_scope.
Local Open Scope Z_scope.

(** What this [validateChain] resolves with: [true] or the error log. *)
Inductive Validation : Type :=
| IsTrue
| ErrorLog (errorLog : list string).

(** [validateChain()]: the same walk, ending in [resolve(errorLog)]. *)
Definition validateChain : M (Promise Validation Rejection) :=
  self <- get_this ;;
  let errorLog : list string := [] in
  let ChainIsValid := true in
  let previous_Block_Hash := Blockchain.Zero in
  match forEach (Blockchain.check_block Blockchain.BlockIsValid_is_false)
                (chain self) (previous_Block_Hash, errorLog) with
  | Normal (_, errorLog) =>
      if Bool.eqb ChainIsValid true then ret (Resolved IsTrue)
      else ret (Resolved (ErrorLog errorLog))
  | Throw _ => ret Pending
  end.

(** [submitStar(address, message, signature, star)]: the list of the
    calls of [resolve] and [reject], in order. *)
Definition submitStar_calls (address message signature star : string)
  : M (list (Promise BlockClass.Block Rejection)) :=
  let messageTime := Blockchain.time_in message in
  now <- seconds_text ;;
  let currentTime := JS.parseInt (Some now) in
  let flagTimeElapsed := JS.gt (JS.minus currentTime messageTime) 300 in
  let calls : list (Promise BlockClass.Block Rejection) :=
    if flagTimeElapsed
    then [Rejected (Message "submitStar: more than five minutes have elapsed")]
    else [] in
  outcome <- verify message address signature ;;
  let isVerified := match outcome with Returns b => b | Raises => false end in
  let data := BlockClass.Star address message signature star in
  let block := BlockClass.new data in
  if (negb isVerified || Bool.eqb flagTimeElapsed true)%bool then
    ret (calls ++ [Rejected (TheBlock block)])%list
  else
    added <- Blockchain._addBlock block ;;
    match added with
    | Resolved block =>
        validateChain ;;
        ret (calls ++ [Resolved block])%list
    | _ => ret calls
    end.

Definition submitStar (address message signature star : string)
  : M (Promise BlockClass.Block Rejection) :=
  calls <- submitStar_calls address message signature star ;;
  ret (settle calls).

(** The callback of [self.chain.forEach] in [getStarsByWalletAddress]: the
    job that follows its [await]. *)
Definition results_callback (address : string) (b : BlockClass.Block)
  : list BlockClass.BlockData -> list BlockClass.BlockData :=
  let blockData := BlockClass.getBData b in
  fun results =>
    if Blockchain.address_is blockData address
    then (results ++ [blockData])%list
    else results.

(** [getStarsByWalletAddress(address)], read as
    [Blockchain.getStarsByWalletAddress] is. *)
Definition getStarsByWalletAddress (address : string)
  : M (Promise (list BlockClass.BlockData) Rejection) :=
  self <- get_this ;;
  let results : list BlockClass.BlockData := [] in
  let jobs := map (results_callback address) (chain self) in
  ret (Resolved (run_jobs jobs results)).
End BlockchainCopy.

(** * Notions used in the statements *)

(** The worlds the program reaches: the constructor builds the object, and
    afterwards the chain changes only when [_addBlock] stores a block that
    carries no hash yet, as the blocks made by [new Block(data)] at the two
    call sites of [_addBlock] are.  Clock reads and calls of the verifier
    that happen in between change the counters of the world and nothing
    else. *)
Inductive Reachable (env : Env) : World -> Prop :=
| reach_constructor (w0 : World) :
    Reachable env (snd (Blockchain.constructor env w0))
| reach_append (w : World) (block : BlockClass.Block) :
    BlockClass.hash block = None ->
    Reachable env w ->
    Reachable env (snd (Blockchain._addBlock block env w))
| reach_elsewhere (w : World) (reads : nat) (calls : list (string * string * string)) :
    Reachable env w ->
    Reachable env (mkWorld (this w) reads calls).

(** The world after one clock read. *)
Definition tick (w : World) : World :=
  mkWorld (this w) (S (clock_reads w)) (verify_calls w).

(** The text [seconds_text] produces in a world. *)
Definition clock_text (env : Env) (w : World) : string :=
  JS.slice_0_minus3 (JS.N_toString (Date_getTime env (clock_reads w))).

(** [currentTime] of [submitStar] in a world. *)
Definition currentTime (env : Env) (w : World) : option Z :=
  JS.parseInt (Some (clock_text env w)).

(** The digest [_addBlock] computes for a block made by [new Block(data)],
    as a function of the four fields it covers. *)
Definition block_digest (h : Z) (t : string) (p : option string)
    (d : BlockClass.BlockData) : string :=
  CryptoJS.SHA256 (BlockClass.stringify (BlockClass.mkBlock h t p d None)).

(** The block [_addBlock] stores. *)
Definition sealed (h : Z) (t : string) (p : option string)
    (d : BlockClass.BlockData) : BlockClass.Block :=
  BlockClass.mkBlock h t p d (Some (block_digest h t p d)).

(** The world after [_addBlock] stored [b]. *)
Definition push (w : World) (b : BlockClass.Block) : World :=
  mkWorld (mkBlockchain (chain (this w) ++ [b]) (height (this w) + 1))
          (S (clock_reads w)) (verify_calls w).

(** A block whose stored hash is the digest of its other fields. *)
Definition hashed (b : BlockClass.Block) : Prop :=
  BlockClass.hash b = Some (BlockClass.recompute_hash b).

(** A chain as the appends build it: a genesis block of height 0 without a
    previous hash, then blocks of consecutive heights, each holding the hash
    of the block before it. *)
Inductive Linked : list BlockClass.Block -> Prop :=
| linked_genesis (g : BlockClass.Block) :
    BlockClass.height g = 0%Z ->
    BlockClass.previousBlockHash g = None ->
    hashed g ->
    Linked [g]
| linked_snoc (l : list BlockClass.Block) (t b : BlockClass.Block) :
    Linked (l ++ [t]) ->
    BlockClass.height b = Z.of_nat (List.length (l ++ [t])) ->
    BlockClass.previousBlockHash b = BlockClass.hash t ->
    hashed b ->
    Linked ((l ++ [t]) ++ [b]).

Definition Sound (self : Blockchain) : Prop :=
  Linked (chain self) /\ height self = (Z.of_nat (List.length (chain self)) - 1)%Z.

(** Lists of decimal digits as numbers, for the facts about printing a
    number and reading it back. *)
Module Digits.
Local Open Scope N_scope.

(** The number a list of digits stands for, least significant first. *)
Definition value_le (ds : list N) : N :=
  fold_right (fun d v => d + 10 * v) 0 ds.

(** The number read so far after the digits [ds], most significant first;
    [None] before the first digit. *)
Definition horner (acc : option N) (ds : list N) : option N :=
  fold_left (fun a d => Some (match a with Some x => x * 10 + d | None => d end)) ds acc.
End Digits.

(** The world after one call of the verifier. *)
Definition called (w : World) (message address signature : string) : World :=
  mkWorld (this w) (clock_reads w) ((message, address, signature) :: verify_calls w).

(** [delaie] of [submitStar]: the seconds between the time in the message
    and the clock; [None] is [NaN]. *)
Definition elapsed (env : Env) (w : World) (message : string) : option Z :=
  JS.minus (currentTime env w) (Blockchain.time_in message).

(** The rejections of [submitStar] under the names the specification gives
    them. *)
Definition ChallengeExpired : Rejection :=
  Message "The 5 minute delay has been reached".

Definition SignatureInvalid : Rejection :=
  Message "There was a error verifiyng your message.".

(** The text the second copy rejects an expired challenge with. *)
Definition CopyChallengeExpired : Rejection :=
  Message "submitStar: more than five minutes have elapsed".

(** The validator as section 4.5 of the specification words it, to compare
    [validateChain] with: the walk starts at the genesis block, records a
    [HashMismatch] for a block whose stored hash is not the recomputed one
    and a [BrokenLink] for a later block whose previous hash is not the hash
    of the block before it, and goes on to the end. *)
Module SpecValidator.
Inductive Violation : Type :=
| HashMismatch (height : Z)
| BrokenLink (height : Z).

Definition hash_check (b : BlockClass.Block) : list Violation :=
  if BlockClass.validate b then [] else [HashMismatch (BlockClass.height b)].

Definition same_hash (x y : option string) : bool :=
  match x, y with
  | None, None => true
  | Some a, Some b => String.eqb a b
  | _, _ => false
  end.

Definition link_check (expected_previous_hash : option string)
    (b : BlockClass.Block) : list Violation :=
  if same_hash (BlockClass.previousBlockHash b) expected_previous_hash
  then [] else [BrokenLink (BlockClass.height b)].

Fixpoint walk (expected_previous_hash : option string)
    (l : list BlockClass.Block) : list Violation :=
  match l with
  | [] => []
  | b :: rest =>
      hash_check b ++ link_check expected_previous_hash b
        ++ walk (BlockClass.hash b) rest
  end.

Definition violations (chain : list BlockClass.Block) : list Violation :=
  match chain with
  | [] => []
  | genesis :: rest => hash_check genesis ++ walk (BlockClass.hash genesis) rest
  end.
End SpecValidator.

(** The query as the specification words it, to compare
    [getStarsByWalletAddress] with: every non-genesis block whose decoded
    owner matches the address, in chain order, index 0 being the genesis
    block (section 4.1). *)
Module SpecQuery.
(** Modelled from the spec: the decoded owner of a block, [None] for a
    payload that names none (sections 3 and 6). *)
Definition owner (b : BlockClass.Block) : option string :=
  BlockClass.address_of (BlockClass.getBData b).

(** Modelled from the spec: the decoded owner equals the queried address. *)
Definition owned_by (address : string) (b : BlockClass.Block) : bool :=
  match owner b with
  | Some a => if string_dec a address then true else false
  | None => false
  end.

(** Modelled from the spec: [all_blocks_by_address] of section 4.1. *)
Definition all_blocks_by_address (address : string)
    (chain : list BlockClass.Block) : list BlockClass.Block :=
  match chain with
  | [] => []
  | genesis :: rest => filter (owned_by address) rest
  end.
End SpecQuery.

(** A chain whose heights single out the first block as the genesis block. *)
Definition GenesisFirst (chain : list BlockClass.Block) : Prop :=
  match chain with
  | [] => True
  | genesis :: rest =>
      BlockClass.height genesis = 0%Z
      /\ Forall (fun b => BlockClass.height b <> 0%Z) rest
  end.

(** What the walk of [validateChain] asks of the blocks [l] it visits when
    the variable [previous_Block_Hash] holds [previous] before the first of
    them: [block.validate() == false] holds for none, and every block whose
    height is not 0 has a [previousBlockHash] loosely equal to the value of
    the variable, which is [previous] at the first block and the hash of the
    block before at each later one. *)
Definition Passes (is_invalid : BlockClass.Block -> bool)
    (previous : Blockchain.PreviousHash) (l : list BlockClass.Block) : Prop :=
  (forall b, In b l -> is_invalid b = false)
  /\ (forall b, nth_error l 0 = Some b -> BlockClass.height b <> 0%Z ->
                Blockchain.loose_eq (BlockClass.previousBlockHash b) previous = true)
  /\ (forall i p b,
        nth_error l i = Some p -> nth_error l (S i) = Some b ->
        BlockClass.height b <> 0%Z ->
        Blockchain.loose_eq (BlockClass.previousBlockHash b)
                            (Blockchain.HashOf (BlockClass.hash p)) = true).

(** A call a client makes on the object: a method of [src/blockchain.js],
    a method of the second copy where that one differs, or [_addBlock] on a
    block fresh from [new Block(data)]. *)
Inductive Call : Type :=
| call_getChainHeight
| call_requestMessageOwnershipVerification (address : string)
| call_submitStar (address message signature star : string)
| call_getBlockByHash (hash : string)
| call_getBlockByHeight (height : Z)
| call_getStarsByWalletAddress (address : string)
| call_validateChain
| call_initializeChain
| call_addBlock (data : BlockClass.BlockData)
| call_copy_submitStar (address message signature star : string)
| call_copy_getStarsByWalletAddress (address : string)
| call_copy_validateChain.

(** The call made, its promise dropped. *)
Definition perform (c : Call) : M unit :=
  fun env w =>
    match c with
    | call_getChainHeight => (tt, snd (Blockchain.getChainHeight env w))
    | call_requestMessageOwnershipVerification address =>
        (tt, snd (Blockchain.requestMessageOwnershipVerification address env w))
    | call_submitStar address message signature star =>
        (tt, snd (Blockchain.submitStar address message signature star env w))
    | call_getBlockByHash hash => (tt, snd (Blockchain.getBlockByHash hash env w))
    | call_getBlockByHeight height => (tt, snd (Blockchain.getBlockByHeight height env w))
    | call_getStarsByWalletAddress address =>
        (tt, snd (Blockchain.getStarsByWalletAddress address env w))
    | call_validateChain => (tt, snd (Blockchain.validateChain env w))
    | call_initializeChain => (tt, snd (Blockchain.initializeChain env w))
    | call_addBlock data => (tt, snd (Blockchain._addBlock (BlockClass.new data) env w))
    | call_copy_submitStar address message signature star =>
        (tt, snd (BlockchainCopy.submitStar address message signature star env w))
    | call_copy_getStarsByWalletAddress address =>
        (tt, snd (BlockchainCopy.getStarsByWalletAddress address env w))
    | call_copy_validateChain => (tt, snd (BlockchainCopy.validateChain env w))
    end.

(** Calls made one after the other. *)
Fixpoint perform_all (calls : list Call) : M unit :=
  match calls with
  | [] => ret tt
  | c :: rest => bind (perform c) (fun _ => perform_all rest)
  end.

(** * Sample runs *)

Module Sample.
Local Open Scope string_scope.

(** A clock that shows 1 700 000 000 seconds at the first reading and one
    second more at every further one. *)
Definition clock (n : nat) : N := (1700000000000 + 1000 * N.of_nat n)%N.

Definition accepting : Env := mkEnv clock (fun _ _ _ => Returns true).
Definition refusing : Env := mkEnv clock (fun _ _ _ => Returns false).
Definition raising : Env := mkEnv clock (fun _ _ _ => Raises).

Definition blank : World := mkWorld (mkBlockchain [] (-1)) 0 [].

(** The world after [new Blockchain()]; the next clock reading shows
    1 700 000 001 seconds. *)
Definition started : World := snd (Blockchain.constructor accepting blank).

Definition wallet : string := "1BoatSLRHtKNngkdXEeobR76b53LETtpyT".
Definition signature : string := "H8K4+1MvyJo9tcr2YN2KejwvX1oqneyCH+fsUL1z1WBd".
Definition star : string := "{}".

(** Challenges that are 1, 299, 300 and 301 seconds old at that reading. *)
Definition challenge_1 : string := wallet ++ ":1700000000:starRegistry".
Definition challenge_299 : string := wallet ++ ":1699999702:starRegistry".
Definition challenge_300 : string := wallet ++ ":1699999701:starRegistry".
Definition challenge_301 : string := wallet ++ ":1699999700:starRegistry".

(** A message whose second field is not a number. *)
Definition challenge_unreadable : string := wallet ++ ":soon:starRegistry".

(** Two stars stored after the genesis block. *)
Definition one_star : World :=
  snd (Blockchain._addBlock
         (BlockClass.new (BlockClass.Star wallet challenge_1 signature star))
         accepting started).

Definition two_stars : World :=
  snd (Blockchain._addBlock
         (BlockClass.new (BlockClass.Star "1someoneElse" challenge_1 signature star))
         accepting one_star).

(** The chain of [two_stars] after someone changed the payload of block 1
    and the previous hash of block 2 in memory. *)
Definition tamper (l : list BlockClass.Block) : list BlockClass.Block :=
  match l with
  | [genesis; b1; b2] =>
      [genesis;
       BlockClass.mkBlock (BlockClass.height b1) (BlockClass.time b1)
         (BlockClass.previousBlockHash b1)
         (BlockClass.Star "1someoneElse" challenge_1 signature star)
         (BlockClass.hash b1);
       BlockClass.set_previousBlockHash b2 (Some "00")]
  | _ => l
  end.

Definition tampered : World :=
  mkWorld (mkBlockchain (tamper (chain (this two_stars))) (height (this two_stars)))
          (clock_reads two_stars) (verify_calls two_stars).

(** A chain, not one the constructor builds, whose block of height 0 holds
    a star of the sample wallet. *)
Definition owned_genesis : World :=
  mkWorld (mkBlockchain
             [sealed 0 "1700000000" None
                     (BlockClass.Star wallet challenge_1 signature star)] 0)
          1 [].

(** A block that already carries a hash when it is handed to [_addBlock]. *)
Definition rehashed : BlockClass.Block :=
  BlockClass.set_hash
    (BlockClass.new (BlockClass.Star wallet challenge_1 signature star)) (Some "00").
End Sample.

(** * Properties *)

(** ** Running the primitives *)

Lemma seconds_text_run env w : seconds_text env w = (clock_text env w, tick w).
Proof. reflexivity. Qed.

(** [_addBlock] on a block that carries no hash yet. *)
Lemma addBlock_run_first env w block :
  BlockClass.hash block = None ->
  height (this w) = (-1)%Z ->
  Blockchain._addBlock block env w
  = (Resolved (sealed 0 (clock_text env w) None (BlockClass.body block)),
     push w (sealed 0 (clock_text env w) None (BlockClass.body block))).
Proof.
  intros Hnone Hh. destruct block as [h0 t0 p0 d0 stored]. cbn in Hnone. subst stored.
  unfold Blockchain._addBlock, bind, get_this, ret, set_this, push.
  rewrite seconds_text_run. cbn [tick this]. rewrite Hh. reflexivity.
Qed.

Lemma addBlock_run_next env w block t :
  BlockClass.hash block = None ->
  height (this w) <> (-1)%Z ->
  Blockchain.tail_block (chain (this w)) = Some t ->
  Blockchain._addBlock block env w
  = (Resolved (sealed (height (this w) + 1) (clock_text env w) (BlockClass.hash t)
                      (BlockClass.body block)),
     push w (sealed (height (this w) + 1) (clock_text env w) (BlockClass.hash t)
                    (BlockClass.body block))).
Proof.
  intros Hnone Hh Ht. destruct block as [h0 t0 p0 d0 stored]. cbn in Hnone. subst stored.
  unfold Blockchain._addBlock, bind, get_this, ret, set_this.
  rewrite seconds_text_run. cbn [tick this].
  destruct (Z.eqb_spec (height (this w)) (-1)) as [E|_]; [contradiction|].
  rewrite Ht. reflexivity.
Qed.

Lemma addBlock_run_stuck env w block :
  height (this w) <> (-1)%Z ->
  chain (this w) = [] ->
  Blockchain._addBlock block env w = (Pending, tick w).
Proof.
  intros Hh Hc. unfold Blockchain._addBlock, bind, get_this, ret, set_this.
  rewrite seconds_text_run. cbn [tick this].
  destruct (Z.eqb_spec (height (this w)) (-1)) as [E|_]; [contradiction|].
  rewrite Hc. reflexivity.
Qed.

(** The same on a block fresh from [new Block(data)]. *)
Lemma addBlock_first env w d :
  height (this w) = (-1)%Z ->
  Blockchain._addBlock (BlockClass.new d) env w
  = (Resolved (sealed 0 (clock_text env w) None d),
     push w (sealed 0 (clock_text env w) None d)).
Proof. exact (addBlock_run_first env w (BlockClass.new d) eq_refl). Qed.

Lemma addBlock_next env w d t :
  height (this w) <> (-1)%Z ->
  Blockchain.tail_block (chain (this w)) = Some t ->
  Blockchain._addBlock (BlockClass.new d) env w
  = (Resolved (sealed (height (this w) + 1) (clock_text env w) (BlockClass.hash t) d),
     push w (sealed (height (this w) + 1) (clock_text env w) (BlockClass.hash t) d)).
Proof. exact (addBlock_run_next env w (BlockClass.new d) t eq_refl). Qed.

Lemma tail_block_snoc (l : list BlockClass.Block) t :
  Blockchain.tail_block (l ++ [t]) = Some t.
Proof.
  unfold Blockchain.tail_block.
  destruct (l ++ [t]) eqn:E; [destruct l; discriminate|]. rewrite <- E.
  rewrite length_app. cbn [List.length].
  replace (List.length l + 1 - 1)%nat with (List.length l + 0)%nat by lia.
  rewrite nth_error_app2 by lia.
  replace (List.length l + 0 - List.length l)%nat with 0%nat by lia. reflexivity.
Qed.

(** ** The walk of [validateChain] *)

Lemma forEach_app {A S : Type} (f : A -> S -> Completion S) l1 l2 s :
  forEach f (l1 ++ l2) s
  = match forEach f l1 s with
    | Normal s' => forEach f l2 s'
    | Throw e => Throw e
    end.
Proof.
  revert s. induction l1 as [|x l1 IH]; intros s; cbn [forEach app]; [reflexivity|].
  destruct (f x s); [apply IH | reflexivity].
Qed.

Lemma hashed_validate b : hashed b -> BlockClass.validate b = true.
Proof.
  unfold hashed, BlockClass.validate. intros ->. apply String.eqb_refl.
Qed.

Lemma validate_hashed b : BlockClass.validate b = true -> hashed b.
Proof.
  unfold hashed, BlockClass.validate. destruct (BlockClass.hash b); [|discriminate].
  intros H. apply String.eqb_eq in H. now subst.
Qed.

Lemma loose_eq_same h : Blockchain.loose_eq h (Blockchain.HashOf h) = true.
Proof. destruct h; cbn; [apply String.eqb_refl | reflexivity]. Qed.

Lemma Linked_last l : Linked l -> exists l' t, l = l' ++ [t].
Proof.
  intros [g|l' t b]; [exists [], g | exists (l' ++ [t]), b]; reflexivity.
Qed.

Lemma BlockIsValid_is_false_hashed b :
  hashed b -> Blockchain.BlockIsValid_is_false b = false.
Proof.
  intros H. unfold Blockchain.BlockIsValid_is_false.
  rewrite (hashed_validate b H). reflexivity.
Qed.

(** On a linked chain the walk visits every block without recording
    anything, whatever the variables held before and whatever
    [block.validate()] is, as long as it does not answer [false] on a block
    whose hash is the digest of its fields. *)
Lemma walk_linked is_invalid l :
  (forall b, hashed b -> is_invalid b = false) ->
  Linked l ->
  forall previous errorLog,
    exists last,
      forEach (Blockchain.check_block is_invalid) l (previous, errorLog)
      = Normal (Blockchain.HashOf (BlockClass.hash last), errorLog)
      /\ Blockchain.tail_block l = Some last.
Proof.
  intros Hf.
  induction 1 as [g Hh Hp Hg | l t b HL IH Hh Hp Hb]; intros previous errorLog.
  - exists g. split; [|reflexivity].
    cbn [forEach]. unfold Blockchain.check_block.
    rewrite Hh, (Hf _ Hg). reflexivity.
  - destruct (IH previous errorLog) as (last & Hwalk & Hlast).
    rewrite tail_block_snoc in Hlast. injection Hlast as <-.
    exists b. split; [|apply tail_block_snoc].
    rewrite forEach_app, Hwalk. cbn [forEach].
    unfold Blockchain.check_block.
    assert (Hnz : (BlockClass.height b =? 0)%Z = false).
    { apply Z.eqb_neq. rewrite Hh, length_app. cbn [List.length]. lia. }
    rewrite Hnz, (Hf _ Hb), Hp, loose_eq_same. reflexivity.
Qed.

Lemma validateChain_with_linked is_invalid env w :
  (forall b, hashed b -> is_invalid b = false) ->
  Linked (chain (this w)) ->
  Blockchain.validateChain_with is_invalid env w = (Resolved true, w).
Proof.
  intros Hf HL. destruct (walk_linked is_invalid _ Hf HL Blockchain.Zero [])
    as (last & Hwalk & _).
  unfold Blockchain.validateChain_with, bind, get_this, ret.
  rewrite Hwalk. reflexivity.
Qed.

Lemma validateChain_linked env w :
  Linked (chain (this w)) ->
  Blockchain.validateChain env w = (Resolved true, w)
  /\ BlockchainCopy.validateChain env w = (Resolved BlockchainCopy.IsTrue, w).
Proof.
  intros HL. split.
  - apply validateChain_with_linked; [exact BlockIsValid_is_false_hashed | exact HL].
  - destruct (walk_linked _ _ BlockIsValid_is_false_hashed HL Blockchain.Zero [])
      as (last & Hwalk & _).
    unfold BlockchainCopy.validateChain, bind, get_this, ret.
    rewrite Hwalk. reflexivity.
Qed.

Lemma validateChain_world is_invalid env w :
  snd (Blockchain.validateChain_with is_invalid env w) = w.
Proof.
  unfold Blockchain.validateChain_with, bind, get_this, ret.
  destruct (forEach _ _ _) as [[? ?]|?]; reflexivity.
Qed.

(** ** The invariant of the reachable worlds *)

Lemma hashed_sealed h t p d : hashed (sealed h t p d).
Proof. reflexivity. Qed.

Lemma constructor_run env w0 :
  Blockchain.constructor env w0
  = (tt, push (mkWorld (mkBlockchain [] (-1)) (clock_reads w0) (verify_calls w0))
              (sealed 0 (clock_text env w0) None (BlockClass.Genesis "Genesis Block"))).
Proof.
  unfold Blockchain.constructor, Blockchain.initializeChain, bind, set_this, get_this.
  cbn [this height Z.eqb Pos.eqb]. cbv beta iota.
  rewrite addBlock_first by reflexivity.
  unfold ret, Blockchain.validateChain. cbv beta iota.
  match goal with
  | |- context [Blockchain.validateChain_with ?f env ?w] =>
      pose proof (validateChain_world f env w) as Hv;
      destruct (Blockchain.validateChain_with f env w) as [r w']
  end.
  cbn [snd] in Hv. subst w'. reflexivity.
Qed.

Lemma Sound_append_any env w block :
  BlockClass.hash block = None ->
  Sound (this w) ->
  exists t,
    Blockchain.tail_block (chain (this w)) = Some t
    /\ Blockchain._addBlock block env w
       = (Resolved (sealed (height (this w) + 1) (clock_text env w) (BlockClass.hash t)
                           (BlockClass.body block)),
          push w (sealed (height (this w) + 1) (clock_text env w) (BlockClass.hash t)
                         (BlockClass.body block)))
    /\ Sound (this (push w (sealed (height (this w) + 1) (clock_text env w)
                                   (BlockClass.hash t) (BlockClass.body block)))).
Proof.
  intros Hnone [HL Hh]. destruct (Linked_last _ HL) as (l & t & E).
  assert (Ht : Blockchain.tail_block (chain (this w)) = Some t)
    by (rewrite E; apply tail_block_snoc).
  assert (Hne : height (this w) <> (-1)%Z).
  { rewrite Hh, E, length_app. cbn [List.length]. lia. }
  exists t. split; [exact Ht|]. split; [apply addBlock_run_next; assumption|].
  unfold Sound, push; cbn [this chain height]. split.
  - rewrite E. apply linked_snoc.
    + rewrite <- E. exact HL.
    + cbn [sealed BlockClass.height]. rewrite Hh, E. lia.
    + reflexivity.
    + apply hashed_sealed.
  - rewrite length_app. cbn [List.length]. lia.
Qed.

Lemma Sound_append env w d :
  Sound (this w) ->
  exists t,
    Blockchain.tail_block (chain (this w)) = Some t
    /\ Blockchain._addBlock (BlockClass.new d) env w
       = (Resolved (sealed (height (this w) + 1) (clock_text env w) (BlockClass.hash t) d),
          push w (sealed (height (this w) + 1) (clock_text env w) (BlockClass.hash t) d))
    /\ Sound (this (push w (sealed (height (this w) + 1) (clock_text env w) (BlockClass.hash t) d))).
Proof. exact (Sound_append_any env w (BlockClass.new d) eq_refl). Qed.

Lemma Reachable_Sound env w : Reachable env w -> Sound (this w).
Proof.
  induction 1 as [w0 | w block Hnone HR IH | w reads calls HR IH].
  - rewrite constructor_run. cbn [snd push this chain height app]. split.
    + apply linked_genesis; [reflexivity | reflexivity | apply hashed_sealed].
    + reflexivity.
  - destruct (Sound_append_any env w block Hnone IH) as (t & _ & Hrun & HS).
    rewrite Hrun. exact HS.
  - exact IH.
Qed.

(** ** Decimal text: printing, slicing and reading back *)

Module DecimalText.
Import Digits.
Local Open Scope N_scope.

Lemma digits_le_S k n :
  JS.digits_le (S k) n
  = if n <? 10 then [n] else n mod 10 :: JS.digits_le k (n / 10).
Proof. reflexivity. Qed.

Lemma value_le_cons d ds : value_le (d :: ds) = d + 10 * value_le ds.
Proof. reflexivity. Qed.

Lemma div10_bound k n : n < 2 ^ N.of_nat (S (S k)) -> n / 10 < 2 ^ N.of_nat (S k).
Proof.
  intros H. rewrite Nat2N.inj_succ, N.pow_succ_r' in H.
  apply N.Div0.div_lt_upper_bound. lia.
Qed.

Lemma digits_le_fuel k :
  forall n k', n < 2 ^ N.of_nat (S k) -> (k <= k')%nat ->
               JS.digits_le (S k') n = JS.digits_le (S k) n.
Proof.
  induction k as [|k IH]; intros n k' Hn Hk.
  - cbn [JS.digits_le]. change (2 ^ N.of_nat 1) with 2 in Hn.
    destruct (N.ltb_spec n 10); [reflexivity | lia].
  - destruct k' as [|k']; [lia|].
    rewrite (digits_le_S (S k')), (digits_le_S (S k)).
    destruct (N.ltb_spec n 10); [reflexivity|].
    f_equal. apply IH; [apply div10_bound; exact Hn | lia].
Qed.

Lemma value_digits k :
  forall n, n < 2 ^ N.of_nat (S k) -> value_le (JS.digits_le (S k) n) = n.
Proof.
  induction k as [|k IH]; intros n Hn.
  - cbn [JS.digits_le]. change (2 ^ N.of_nat 1) with 2 in Hn.
    destruct (N.ltb_spec n 10); [cbn; lia | lia].
  - rewrite digits_le_S. destruct (N.ltb_spec n 10); [cbn; lia|].
    rewrite value_le_cons.
    rewrite IH by (apply div10_bound; exact Hn).
    pose proof (N.div_mod n 10). lia.
Qed.

Lemma digits_small fuel :
  forall n, Forall (fun d => d < 10) (JS.digits_le fuel n).
Proof.
  induction fuel as [|k IH]; intros n; [constructor|].
  rewrite digits_le_S. destruct (N.ltb_spec n 10).
  - constructor; [assumption | constructor].
  - constructor; [apply N.mod_lt; lia | apply IH].
Qed.

Lemma digits_nonempty k n : JS.digits_le (S k) n <> [].
Proof. rewrite digits_le_S. destruct (n <? 10); discriminate. Qed.

Lemma fuel_enough n : n < 2 ^ N.of_nat (S (N.to_nat (N.log2 n))).
Proof.
  rewrite Nat2N.inj_succ, N2Nat.id.
  destruct (N.eq_dec n 0) as [->|Hn]; [reflexivity|].
  apply N.log2_spec. lia.
Qed.

(** The digits of [n] at least 1000 are three digits and then the digits
    of [n / 1000]. *)
Lemma digits_thousand n :
  1000 <= n ->
  exists a b c,
    JS.digits_le (S (N.to_nat (N.log2 n))) n
    = a :: b :: c :: JS.digits_le (S (N.to_nat (N.log2 (n / 1000)))) (n / 1000).
Proof.
  intros Hn.
  pose proof (fuel_enough n) as Hf.
  assert (Hlog : 9 <= N.log2 n).
  { change 9 with (N.log2 512). apply N.log2_le_mono. lia. }
  destruct (N.to_nat (N.log2 n)) as [|[|[|k]]] eqn:Ek; try lia.
  exists (n mod 10), ((n / 10) mod 10), ((n / 10 / 10) mod 10).
  assert (H10 : 10 <= n / 10) by (apply N.div_le_lower_bound; lia).
  assert (H100 : 10 <= n / 10 / 10)
    by (rewrite N.Div0.div_div; apply N.div_le_lower_bound; lia).
  rewrite (digits_le_S (S (S (S k)))). destruct (N.ltb_spec n 10); [lia|].
  rewrite (digits_le_S (S (S k))). destruct (N.ltb_spec (n / 10) 10); [lia|].
  rewrite (digits_le_S (S k)). destruct (N.ltb_spec (n / 10 / 10) 10); [lia|].
  do 3 f_equal.
  rewrite !N.Div0.div_div. change (10 * 10 * 10) with 1000.
  assert (Hq : n / 1000 < 2 ^ N.of_nat (S k)).
  { do 3 (rewrite Nat2N.inj_succ, N.pow_succ_r' in Hf).
    apply N.Div0.div_lt_upper_bound. lia. }
  destruct (Nat.le_ge_cases k (N.to_nat (N.log2 (n / 1000)))) as [Hle|Hge].
  - symmetry. apply digits_le_fuel; assumption.
  - apply digits_le_fuel; [apply fuel_enough | exact Hge].
Qed.

(** *** Characters of digits *)

Lemma digit_cases d :
  d < 10 ->
  d = 0 \/ d = 1 \/ d = 2 \/ d = 3 \/ d = 4 \/ d = 5 \/ d = 6 \/ d = 7 \/ d = 8 \/ d = 9.
Proof. lia. Qed.

Ltac each_digit d H :=
  destruct (digit_cases d H) as [->|[->|[->|[->|[->|[->|[->|[->|[->| ->]]]]]]]]].

Lemma digit_in_char d : d < 10 -> JS.digit_in 10 (JS.digit_char d) = Some d.
Proof. intros H. each_digit d H; reflexivity. Qed.

Lemma digit_char_not_space d : d < 10 -> JS.is_whitespace (JS.digit_char d) = false.
Proof. intros H. each_digit d H; reflexivity. Qed.

Lemma digit_char_not_sign d rest :
  d < 10 -> JS.strip_sign (JS.digit_char d :: rest) = (false, JS.digit_char d :: rest).
Proof. intros H. each_digit d H; reflexivity. Qed.

Lemma digit_chars_no_prefix d ds :
  d < 10 -> Forall (fun x => x < 10) ds ->
  JS.strip_hex_prefix (map JS.digit_char (d :: ds)) = (10, map JS.digit_char (d :: ds)).
Proof.
  intros H Hds. destruct ds as [|e ds]; [each_digit d H; reflexivity|].
  inversion Hds as [|? ? He _]; subst.
  each_digit d H; try reflexivity.
  each_digit e He; reflexivity.
Qed.

(** *** Reading digits *)

Lemma read_digits_chars ds :
  Forall (fun d => d < 10) ds ->
  forall acc, JS.read_digits 10 acc (map JS.digit_char ds) = horner acc ds.
Proof.
  induction 1 as [|d ds Hd _ IH]; intros acc; [reflexivity|].
  cbn [map JS.read_digits]. rewrite (digit_in_char d Hd). apply IH.
Qed.

Lemma horner_rev ds :
  ds <> [] -> horner None (rev ds) = Some (value_le ds).
Proof.
  induction ds as [|d ds IH]; intros Hne; [contradiction|].
  cbn [rev]. unfold horner in *. rewrite fold_left_app. cbn [fold_left].
  destruct ds as [|e ds].
  - cbn. f_equal. lia.
  - rewrite IH by discriminate. rewrite (value_le_cons d). f_equal. lia.
Qed.

(** *** Strings *)

Lemma length_of_chars l : String.length (string_of_list_ascii l) = List.length l.
Proof. induction l as [|c l IH]; cbn; [reflexivity | now rewrite IH]. Qed.

Lemma substring_prefix xs ys :
  substring 0 (List.length xs) (string_of_list_ascii (xs ++ ys)) = string_of_list_ascii xs.
Proof.
  induction xs as [|c xs IH]; cbn [List.length app string_of_list_ascii substring].
  - destruct (string_of_list_ascii ys); reflexivity.
  - now rewrite IH.
Qed.

Lemma slice_three xs a b c :
  JS.slice_0_minus3 (string_of_list_ascii (xs ++ [a; b; c])) = string_of_list_ascii xs.
Proof.
  unfold JS.slice_0_minus3. rewrite length_of_chars, length_app. cbn [List.length].
  replace (List.length xs + 3 - 3)%nat with (List.length xs) by lia.
  apply substring_prefix.
Qed.

(** *** The three facts the class relies on *)

(** Dropping the last three digits of the milliseconds gives the seconds. *)
Lemma slice_toString ms :
  1000 <= ms -> JS.slice_0_minus3 (JS.N_toString ms) = JS.N_toString (ms / 1000).
Proof.
  intros H. unfold JS.N_toString.
  destruct (digits_thousand ms H) as (a & b & c & ->).
  cbn [rev]. rewrite <- !app_assoc. cbn [app]. rewrite map_app. cbn [map].
  apply slice_three.
Qed.

(** [parseInt] reads back what [toString] printed. *)
Lemma parseInt_toString n : JS.parseInt (Some (JS.N_toString n)) = Some (Z.of_N n).
Proof.
  unfold JS.parseInt, JS.N_toString.
  rewrite list_ascii_of_string_of_list_ascii.
  set (k := N.to_nat (N.log2 n)).
  pose proof (digits_small (S k) n) as Hsmall.
  pose proof (digits_nonempty k n) as Hne.
  pose proof (value_digits k n (fuel_enough n)) as Hval.
  apply Forall_rev in Hsmall.
  assert (Hne' : rev (JS.digits_le (S k) n) <> []).
  { intros E. apply Hne. rewrite <- (rev_involutive (JS.digits_le (S k) n)), E. reflexivity. }
  destruct (rev (JS.digits_le (S k) n)) as [|d ds] eqn:E; [contradiction|].
  inversion Hsmall as [|? ? Hd Hds]; subst.
  cbn [map JS.trim_start]. rewrite (digit_char_not_space d Hd).
  rewrite (digit_char_not_sign d _ Hd).
  change (JS.digit_char d :: map JS.digit_char ds) with (map JS.digit_char (d :: ds)).
  rewrite (digit_chars_no_prefix d ds Hd Hds).
  rewrite (read_digits_chars (d :: ds) Hsmall).
  rewrite <- E, (horner_rev _ Hne), Hval. reflexivity.
Qed.

Lemma seconds_of_clock ms :
  1000 <= ms ->
  JS.parseInt (Some (JS.slice_0_minus3 (JS.N_toString ms))) = Some (Z.of_N (ms / 1000)).
Proof. intros H. rewrite (slice_toString ms H). apply parseInt_toString. Qed.
End DecimalText.

(** ** Running [submitStar] *)

Lemma submitStar_late env w address message signature star :
  JS.lt (elapsed env w message) 300 = false ->
  Blockchain.submitStar address message signature star env w
  = (Rejected ChallengeExpired, tick w).
Proof.
  intros H. unfold Blockchain.submitStar, bind. rewrite seconds_text_run.
  fold (currentTime env w). fold (elapsed env w message). rewrite H. reflexivity.
Qed.

Lemma submitStar_unverified env w address message signature star :
  JS.lt (elapsed env w message) 300 = true ->
  bitcoinMessage_verify env message address signature <> Returns true ->
  Blockchain.submitStar address message signature star env w
  = (Rejected SignatureInvalid, called (tick w) message address signature).
Proof.
  intros H Hv. unfold Blockchain.submitStar, bind. rewrite seconds_text_run.
  fold (currentTime env w). fold (elapsed env w message). rewrite H.
  unfold verify.
  destruct (bitcoinMessage_verify env message address signature) as [[|]|];
    [contradiction | reflexivity | reflexivity].
Qed.

Lemma submitStar_verified env w address message signature star :
  JS.lt (elapsed env w message) 300 = true ->
  bitcoinMessage_verify env message address signature = Returns true ->
  Blockchain.submitStar address message signature star env w
  = let '(added, w1) :=
      Blockchain._addBlock (BlockClass.new (BlockClass.Star address message signature star))
        env (called (tick w) message address signature) in
    match added with
    | Resolved blockToPush =>
        let '(validation, w2) := Blockchain.validateChain env w1 in
        (Blockchain.after_validation blockToPush validation, w2)
    | _ => (Pending, w1)
    end.
Proof.
  intros H Hv. unfold Blockchain.submitStar, bind. rewrite seconds_text_run.
  fold (currentTime env w). fold (elapsed env w message). rewrite H.
  unfold verify. rewrite Hv. cbn [Bool.eqb]. cbv beta iota.
  fold (called (tick w) message address signature).
  destruct (Blockchain._addBlock _ env _) as [[|b|e] w1]; reflexivity.
Qed.

(** On a sound chain a submission that passes both checks is stored and
    returned. *)
Lemma submitStar_stored env w address message signature star :
  Sound (this w) ->
  JS.lt (elapsed env w message) 300 = true ->
  bitcoinMessage_verify env message address signature = Returns true ->
  exists t,
    Blockchain.tail_block (chain (this w)) = Some t
    /\ let w1 := called (tick w) message address signature in
       let b := sealed (height (this w) + 1) (clock_text env w1) (BlockClass.hash t)
                       (BlockClass.Star address message signature star) in
       Blockchain.submitStar address message signature star env w
       = (Resolved b, push w1 b).
Proof.
  intros HS H Hv.
  destruct (Sound_append env (called (tick w) message address signature)
              (BlockClass.Star address message signature star) HS)
    as (t & Ht & Hrun & [HL _]).
  exists t. split; [exact Ht|]. cbv zeta.
  rewrite (submitStar_verified _ _ _ _ _ _ H Hv).
  cbn [called tick this] in Hrun. cbn [called tick this]. rewrite Hrun.
  match goal with
  | |- context [Blockchain.validateChain env ?w1] =>
      destruct (validateChain_linked env w1 HL) as [-> _]
  end.
  reflexivity.
Qed.

(** The second copy: the calls of [resolve] and [reject]. *)
Lemma copy_calls_rejected env w address message signature star :
  (bitcoinMessage_verify env message address signature <> Returns true
   \/ JS.gt (elapsed env w message) 300 = true) ->
  BlockchainCopy.submitStar_calls address message signature star env w
  = ((if JS.gt (elapsed env w message) 300 then [Rejected CopyChallengeExpired] else [])
       ++ [Rejected (TheBlock (BlockClass.new (BlockClass.Star address message signature star)))],
     called (tick w) message address signature).
Proof.
  intros H. unfold BlockchainCopy.submitStar_calls, bind. rewrite seconds_text_run.
  fold (currentTime env w). fold (elapsed env w message). unfold verify.
  destruct (JS.gt (elapsed env w message) 300) eqn:Hgt.
  - destruct (bitcoinMessage_verify env message address signature) as [[|]|]; reflexivity.
  - destruct H as [H|H]; [|discriminate].
    destruct (bitcoinMessage_verify env message address signature) as [[|]|];
      [contradiction | reflexivity | reflexivity].
Qed.

Lemma copy_calls_verified env w address message signature star :
  JS.gt (elapsed env w message) 300 = false ->
  bitcoinMessage_verify env message address signature = Returns true ->
  BlockchainCopy.submitStar_calls address message signature star env w
  = let '(added, w1) :=
      Blockchain._addBlock (BlockClass.new (BlockClass.Star address message signature star))
        env (called (tick w) message address signature) in
    match added with
    | Resolved block =>
        let '(_, w2) := BlockchainCopy.validateChain env w1 in ([Resolved block], w2)
    | _ => ([], w1)
    end.
Proof.
  intros H Hv. unfold BlockchainCopy.submitStar_calls, bind. rewrite seconds_text_run.
  fold (currentTime env w). fold (elapsed env w message). rewrite H.
  unfold verify. rewrite Hv. cbn [negb orb Bool.eqb]. cbv beta iota.
  fold (called (tick w) message address signature).
  destruct (Blockchain._addBlock _ env _) as [[|b|e] w1]; reflexivity.
Qed.

Lemma copy_validateChain_world env w : snd (BlockchainCopy.validateChain env w) = w.
Proof.
  unfold BlockchainCopy.validateChain, bind, get_this, ret.
  destruct (forEach _ _ _) as [[? ?]|?]; reflexivity.
Qed.

Lemma copy_stored env w address message signature star :
  Sound (this w) ->
  JS.gt (elapsed env w message) 300 = false ->
  bitcoinMessage_verify env message address signature = Returns true ->
  exists t,
    Blockchain.tail_block (chain (this w)) = Some t
    /\ let w1 := called (tick w) message address signature in
       let b := sealed (height (this w) + 1) (clock_text env w1) (BlockClass.hash t)
                       (BlockClass.Star address message signature star) in
       BlockchainCopy.submitStar address message signature star env w
       = (Resolved b, push w1 b).
Proof.
  intros HS H Hv.
  destruct (Sound_append env (called (tick w) message address signature)
              (BlockClass.Star address message signature star) HS)
    as (t & Ht & Hrun & _).
  exists t. split; [exact Ht|]. cbv zeta.
  unfold BlockchainCopy.submitStar, bind.
  rewrite (copy_calls_verified _ _ _ _ _ _ H Hv).
  cbn [called tick this] in Hrun. cbn [called tick this]. rewrite Hrun.
  match goal with
  | |- context [BlockchainCopy.validateChain env ?w1] =>
      pose proof (copy_validateChain_world env w1) as Hw;
      destruct (BlockchainCopy.validateChain env w1) as [v w2]
  end.
  cbn [snd] in Hw. subst. reflexivity.
Qed.

(** ** The shape of a linked chain *)

Lemma nth_error_single {A : Type} (x y : A) i :
  nth_error [x] i = Some y -> i = 0%nat /\ y = x.
Proof.
  destruct i as [|i]; cbn; [intros [= ->]; auto|].
  destruct i; discriminate.
Qed.

Lemma Linked_nth l :
  Linked l ->
  forall i b,
    nth_error l i = Some b ->
    BlockClass.height b = Z.of_nat i
    /\ hashed b
    /\ match i with
       | O => BlockClass.previousBlockHash b = None
       | S j => exists p, nth_error l j = Some p
                          /\ BlockClass.previousBlockHash b = BlockClass.hash p
                          /\ hashed p
       end.
Proof.
  induction 1 as [g Hh Hp Hg | l t b' HL IH Hh Hp Hb]; intros i b Hi.
  - apply nth_error_single in Hi as [-> ->]. auto.
  - destruct (Nat.lt_ge_cases i (List.length (l ++ [t]))) as [Hlt|Hge].
    + rewrite nth_error_app1 in Hi by exact Hlt.
      destruct (IH i b Hi) as (H1 & H2 & H3). repeat split; try assumption.
      destruct i as [|j]; [exact H3|].
      destruct H3 as (p & Hj & Hlink & Hhp). exists p. repeat split; try assumption.
      rewrite nth_error_app1 by lia. exact Hj.
    + rewrite nth_error_app2 in Hi by exact Hge.
      apply nth_error_single in Hi as [Hi ->].
      assert (Ei : i = List.length (l ++ [t])) by lia. subst i.
      repeat split; try assumption.
      rewrite length_app. cbn [List.length].
      replace (List.length l + 1)%nat with (S (List.length l)) by lia.
      exists t. repeat split.
      * rewrite nth_error_app1 by (rewrite length_app; cbn; lia).
        rewrite nth_error_app2 by lia.
        now replace (List.length l - List.length l)%nat with 0%nat by lia.
      * exact Hp.
      * assert (Ht : nth_error (l ++ [t]) (List.length l) = Some t).
        { rewrite nth_error_app2 by lia.
          now replace (List.length l - List.length l)%nat with 0%nat by lia. }
        apply (IH _ _ Ht).
Qed.

Lemma Linked_GenesisFirst l : Linked l -> GenesisFirst l.
Proof.
  intros HL. destruct l as [|g rest]; [exact I|]. split.
  - apply (Linked_nth _ HL 0%nat g eq_refl).
  - apply Forall_forall. intros b Hin.
    destruct (In_nth_error _ _ Hin) as [i Hi].
    destruct (Linked_nth _ HL (S i) b Hi) as (Hh & _). lia.
Qed.

Lemma Linked_cons l : Linked l -> exists g rest, l = g :: rest.
Proof.
  intros HL. destruct (Linked_last _ HL) as (l' & t & ->).
  destruct l' as [|g l']; [exists t, [] | exists g, (l' ++ [t])]; reflexivity.
Qed.

(** The genesis block of a reachable chain holds the genesis marker. *)
Lemma Reachable_genesis env w :
  Reachable env w ->
  exists g rest, chain (this w) = g :: rest
                 /\ BlockClass.body g = BlockClass.Genesis "Genesis Block".
Proof.
  induction 1 as [w0 | w block Hnone HR IH | w reads calls HR IH].
  - rewrite constructor_run. cbn [snd push this chain app]. eauto.
  - destruct (Sound_append_any env w block Hnone (Reachable_Sound _ _ HR))
      as (t & _ & -> & _).
    destruct IH as (g & rest & E & Hb). cbn [snd push this chain]. rewrite E.
    exists g, (rest ++ [sealed (height (this w) + 1) (clock_text env w)
                               (BlockClass.hash t) (BlockClass.body block)]).
    split; [reflexivity | exact Hb].
  - exact IH.
Qed.

(** ** [validateChain] against the validator of the specification *)

Lemma loose_eq_HashOf link h :
  Blockchain.loose_eq link (Blockchain.HashOf h) = SpecValidator.same_hash link h.
Proof. destruct link, h; reflexivity. Qed.

Lemma walk_against_spec rest :
  Forall (fun b => BlockClass.height b <> 0%Z) rest ->
  forall expected errorLog,
    (SpecValidator.walk expected rest = [] ->
     exists previous,
       forEach (Blockchain.check_block Blockchain.BlockIsValid_is_false) rest
               (Blockchain.HashOf expected, errorLog) = Normal (previous, errorLog))
    /\ (SpecValidator.walk expected rest <> [] ->
        exists error,
          forEach (Blockchain.check_block Blockchain.BlockIsValid_is_false) rest
                  (Blockchain.HashOf expected, errorLog) = Throw error).
Proof.
  induction 1 as [|b rest Hb _ IH]; intros expected errorLog.
  - cbn [SpecValidator.walk forEach].
    split; [intros _; eexists; reflexivity | intros H; now contradiction H].
  - cbn [SpecValidator.walk forEach].
    unfold Blockchain.check_block, Blockchain.BlockIsValid_is_false,
      SpecValidator.hash_check, SpecValidator.link_check.
    apply Z.eqb_neq in Hb. rewrite Hb, loose_eq_HashOf.
    destruct (BlockClass.validate b); cbn [negb].
    + destruct (SpecValidator.same_hash (BlockClass.previousBlockHash b) expected);
        cbn [app].
      * apply IH.
      * split; [discriminate | intros _; eexists; reflexivity].
    + split; [discriminate | intros _; eexists; reflexivity].
Qed.

Lemma forEach_against_spec l :
  GenesisFirst l ->
  (SpecValidator.violations l = [] ->
   exists previous,
     forEach (Blockchain.check_block Blockchain.BlockIsValid_is_false) l
             (Blockchain.Zero, []) = Normal (previous, []))
  /\ (SpecValidator.violations l <> [] ->
      exists error,
        forEach (Blockchain.check_block Blockchain.BlockIsValid_is_false) l
                (Blockchain.Zero, []) = Throw error).
Proof.
  destruct l as [|g rest]; cbn [GenesisFirst SpecValidator.violations].
  - intros _. cbn [forEach].
    split; [intros _; eexists; reflexivity | intros H; now contradiction H].
  - intros [Hg Hrest]. cbn [forEach].
    unfold Blockchain.check_block at 1 3, Blockchain.BlockIsValid_is_false at 1 3,
      SpecValidator.hash_check.
    rewrite Hg. cbn [Z.eqb].
    destruct (BlockClass.validate g); cbn [negb app].
    + apply (walk_against_spec rest Hrest).
    + split; [discriminate | intros _; eexists; reflexivity].
Qed.

(** [validateChain] resolves with [true] on a chain without violations and
    is never settled on a chain with one: the error log is not returned. *)
Lemma validateChain_against_spec env w :
  GenesisFirst (chain (this w)) ->
  (SpecValidator.violations (chain (this w)) = [] ->
   Blockchain.validateChain env w = (Resolved true, w)
   /\ BlockchainCopy.validateChain env w = (Resolved BlockchainCopy.IsTrue, w))
  /\ (SpecValidator.violations (chain (this w)) <> [] ->
      Blockchain.validateChain env w = (Pending, w)
      /\ BlockchainCopy.validateChain env w = (Pending, w)).
Proof.
  intros HG. destruct (forEach_against_spec _ HG) as [Hok Hbad].
  unfold Blockchain.validateChain, Blockchain.validateChain_with,
    BlockchainCopy.validateChain, bind, get_this, ret.
  split; intros H.
  - destruct (Hok H) as [previous ->]. split; reflexivity.
  - destruct (Hbad H) as [error ->]. split; reflexivity.
Qed.

(** Whatever the chain, [validateChain] never rejects and never hands out an
    error log. *)
Lemma validateChain_outcomes env w :
  (fst (Blockchain.validateChain env w) = Resolved true
   \/ fst (Blockchain.validateChain env w) = Pending)
  /\ (fst (BlockchainCopy.validateChain env w) = Resolved BlockchainCopy.IsTrue
      \/ fst (BlockchainCopy.validateChain env w) = Pending).
Proof.
  unfold Blockchain.validateChain, Blockchain.validateChain_with,
    BlockchainCopy.validateChain, bind, get_this, ret.
  destruct (forEach _ _ _) as [[? ?]|?]; cbn; auto.
Qed.

Lemma Linked_no_violation l : Linked l -> SpecValidator.violations l = [].
Proof.
  intros HL.
  destruct (forEach_against_spec l (Linked_GenesisFirst _ HL)) as [_ Hbad].
  destruct (SpecValidator.violations l) eqn:E; [reflexivity|].
  destruct Hbad as [error He]; [discriminate|].
  destruct (walk_linked _ _ BlockIsValid_is_false_hashed HL Blockchain.Zero [])
    as (last & Hwalk & _).
  rewrite Hwalk in He. discriminate.
Qed.

(** ** Chains built by appends *)

(** C1.  In every world reached by the constructor followed by any number of
    appends, [validateChain] (in both copies of the class) resolves with
    [true]: its walk over the chain ends with an empty [errorLog], and the
    validator of the specification finds no violation either.  The world
    right after each append is such a world.  The result does not depend on
    how [block.validate()] is written, as long as it does not answer [false]
    on a block whose hash is the digest of its other fields. *)
Theorem C1_validateChain_succeeds_after_each_append :
  forall env w,
    Reachable env w ->
    Blockchain.validateChain env w = (Resolved true, w)
    /\ BlockchainCopy.validateChain env w = (Resolved BlockchainCopy.IsTrue, w)
    /\ (exists previous,
          forEach (Blockchain.check_block Blockchain.BlockIsValid_is_false)
                  (chain (this w)) (Blockchain.Zero, [])
          = Normal (previous, []))
    /\ SpecValidator.violations (chain (this w)) = []
    /\ (forall is_invalid,
          (forall b, hashed b -> is_invalid b = false) ->
          Blockchain.validateChain_with is_invalid env w = (Resolved true, w)).
Proof.
  intros env w HR. destruct (Reachable_Sound _ _ HR) as [HL _].
  destruct (validateChain_linked env w HL) as [H1 H2].
  destruct (walk_linked _ _ BlockIsValid_is_false_hashed HL Blockchain.Zero [])
    as (last & Hwalk & _).
  split; [exact H1|]. split; [exact H2|]. split; [|split].
  - eexists. exact Hwalk.
  - apply Linked_no_violation. exact HL.
  - intros is_invalid Hf. apply validateChain_with_linked; assumption.
Qed.

(** C9.  In every reachable world the chain starts with a genesis block of
    height 0 whose [previousBlockHash] is [null], and every later block
    holds in [previousBlockHash] the hash of the block before it, which is
    not [null]: the genesis block is the only one without a previous
    hash. *)
Theorem C9_genesis_is_the_only_block_without_previous_hash :
  forall env w,
    Reachable env w ->
    exists genesis rest,
      chain (this w) = genesis :: rest
      /\ BlockClass.height genesis = 0%Z
      /\ BlockClass.previousBlockHash genesis = None
      /\ forall i b,
           nth_error (chain (this w)) (S i) = Some b ->
           BlockClass.previousBlockHash b <> None
           /\ exists p, nth_error (chain (this w)) i = Some p
                        /\ BlockClass.previousBlockHash b = BlockClass.hash p.
Proof.
  intros env w HR. destruct (Reachable_Sound _ _ HR) as [HL _].
  destruct (Linked_cons _ HL) as (g & rest & E).
  exists g, rest. split; [exact E|].
  assert (H0 : nth_error (chain (this w)) 0 = Some g) by (rewrite E; reflexivity).
  destruct (Linked_nth _ HL _ _ H0) as (Hh & _ & Hp).
  repeat split; try assumption.
  - destruct (Linked_nth _ HL _ _ H) as (_ & _ & p & Hj & Hlink & Hhp).
    rewrite Hlink, Hhp. discriminate.
  - destruct (Linked_nth _ HL _ _ H) as (_ & _ & p & Hj & Hlink & _).
    exists p. split; assumption.
Qed.

(** ** The digest of a block *)

(** ** Reading the serialised block back

    The text [JSON.stringify(block)] determines every property of the
    block: two blocks with the same text are the same block. *)

Module Readback.
Local Open Scope string_scope.

Lemma append_assoc (a b c : string) : (a ++ b) ++ c = a ++ (b ++ c).
Proof. induction a as [|x a IH]; cbn; [reflexivity | now rewrite IH]. Qed.

Lemma append_cancel (p x y : string) : p ++ x = p ++ y -> x = y.
Proof. induction p as [|c p IH]; cbn; intros H; [exact H | injection H; auto]. Qed.

Lemma chars_of_append (a b : string) :
  list_ascii_of_string (a ++ b) = (list_ascii_of_string a ++ list_ascii_of_string b)%list.
Proof. induction a as [|x a IH]; cbn; [reflexivity | now rewrite IH]. Qed.

Lemma append_cancel_right (x y s : string) : x ++ s = y ++ s -> x = y.
Proof.
  intros H. apply (f_equal list_ascii_of_string) in H. rewrite !chars_of_append in H.
  apply app_inv_tail in H. apply (f_equal string_of_list_ascii) in H.
  now rewrite !string_of_list_ascii_of_string in H.
Qed.

(** Of two texts that start the same text, one starts the other. *)
Lemma prefix_of_equal_appends (a : string) :
  forall b x y, a ++ x = b ++ y -> prefix a b = true \/ prefix b a = true.
Proof.
  induction a as [|c a IH]; intros b x y H; [left; destruct b; reflexivity|].
  destruct b as [|d b]; [right; reflexivity|].
  cbn in H. injection H as -> H. cbn [prefix].
  destruct (ascii_dec d d) as [_|N]; [|contradiction]. exact (IH b x y H).
Qed.

(** A code none of whose words starts another can be read word by word. *)
Lemma prefix_code (q : ascii -> string) :
  (forall c1 c2, prefix (q c1) (q c2) = true -> c1 = c2) ->
  forall c1 c2 x y, q c1 ++ x = q c2 ++ y -> c1 = c2 /\ x = y.
Proof.
  intros Hq c1 c2 x y H.
  assert (E : c1 = c2).
  { destruct (prefix_of_equal_appends _ _ _ _ H) as [P|P];
      apply Hq in P; congruence. }
  subst c2. split; [reflexivity | exact (append_cancel _ _ _ H)].
Qed.

(** A test that holds of the 256 code units holds of every code unit. *)
Lemma for_all_ascii (P : ascii -> bool) :
  forallb (fun n => P (ascii_of_nat n)) (seq 0 256) = true -> forall c, P c = true.
Proof.
  intros H c. rewrite <- (ascii_nat_embedding c).
  rewrite forallb_forall in H. apply H. apply in_seq.
  pose proof (nat_ascii_bounded c). lia.
Qed.

Lemma for_all_ascii2 (P : ascii -> ascii -> bool) :
  forallb (fun n => forallb (fun m => P (ascii_of_nat n) (ascii_of_nat m)) (seq 0 256))
          (seq 0 256) = true ->
  forall c1 c2, P c1 c2 = true.
Proof.
  intros H c1 c2.
  pose proof (for_all_ascii (fun c => forallb (fun m => P c (ascii_of_nat m)) (seq 0 256)) H c1)
    as H1.
  exact (for_all_ascii (P c1) H1 c2).
Qed.

Lemma code_by_test (q : ascii -> string) :
  forallb (fun n => forallb (fun m => implb (prefix (q (ascii_of_nat n)) (q (ascii_of_nat m)))
                                            (Ascii.eqb (ascii_of_nat n) (ascii_of_nat m)))
                            (seq 0 256))
          (seq 0 256) = true ->
  forall c1 c2, prefix (q c1) (q c2) = true -> c1 = c2.
Proof.
  intros H c1 c2 P.
  pose proof (for_all_ascii2 (fun a b => implb (prefix (q a) (q b)) (Ascii.eqb a b)) H c1 c2)
    as T.
  cbv beta in T. rewrite P in T. cbn [implb] in T. now apply Ascii.eqb_eq.
Qed.

(** *** Quoted strings *)

Lemma quote_char_code c1 c2 :
  prefix (JS.quote_char c1) (JS.quote_char c2) = true -> c1 = c2.
Proof. apply code_by_test. vm_compute. reflexivity. Qed.

(** No code unit is written with a quote in front. *)
Lemma quote_char_head c x r : JS.quote_char c ++ x <> String (ascii_of_N 34) r.
Proof.
  pose proof (for_all_ascii
                (fun c => match JS.quote_char c with
                          | String a _ => negb (Ascii.eqb a (ascii_of_N 34))
                          | EmptyString => false
                          end)) as H.
  specialize (H ltac:(vm_compute; reflexivity) c). cbv beta in H.
  destruct (JS.quote_char c) as [|a t]; [discriminate|].
  cbn. intros E. injection E as -> _. rewrite Ascii.eqb_refl in H. discriminate.
Qed.

Lemma quote_chars_delimited s1 :
  forall s2 r1 r2,
    JS.quote_chars s1 ++ String (ascii_of_N 34) r1 = JS.quote_chars s2 ++ String (ascii_of_N 34) r2 ->
    s1 = s2 /\ r1 = r2.
Proof.
  induction s1 as [|c1 s1 IH]; intros [|c2 s2] r1 r2 H; cbn [JS.quote_chars] in H.
  - cbn in H. injection H as ->. split; reflexivity.
  - cbn [String.append] in H. rewrite append_assoc in H. symmetry in H.
    exfalso. exact (quote_char_head _ _ _ H).
  - cbn [String.append] in H. rewrite append_assoc in H.
    exfalso. exact (quote_char_head _ _ _ H).
  - rewrite !append_assoc in H.
    destruct (prefix_code JS.quote_char quote_char_code _ _ _ _ H) as [-> H'].
    destruct (IH _ _ _ H') as [-> ->]. split; reflexivity.
Qed.

Lemma quote_delimited s1 s2 r1 r2 :
  JS.quote s1 ++ r1 = JS.quote s2 ++ r2 -> s1 = s2 /\ r1 = r2.
Proof.
  unfold JS.quote. cbn [String.append]. intros H. injection H as H.
  rewrite !append_assoc in H. cbn [String.append] in H.
  exact (quote_chars_delimited _ _ _ _ H).
Qed.

Lemma quote_nullable_delimited p1 p2 r1 r2 :
  JS.quote_nullable p1 ++ r1 = JS.quote_nullable p2 ++ r2 -> p1 = p2 /\ r1 = r2.
Proof.
  destruct p1 as [s1|], p2 as [s2|]; cbn [JS.quote_nullable]; intros H.
  - destruct (quote_delimited _ _ _ _ H) as [-> ->]. split; reflexivity.
  - unfold JS.quote in H. cbn in H. discriminate.
  - unfold JS.quote in H. cbn in H. discriminate.
  - cbn in H. injection H as ->. split; reflexivity.
Qed.

(** *** Numbers *)

(** Texts without the code unit [c] that are followed by [c]. *)
Lemma delimited_by c s1 :
  forall s2 r1 r2,
    ~ In c (list_ascii_of_string s1) -> ~ In c (list_ascii_of_string s2) ->
    s1 ++ String c r1 = s2 ++ String c r2 -> s1 = s2 /\ r1 = r2.
Proof.
  induction s1 as [|a s1 IH]; intros [|b s2] r1 r2 N1 N2 H; cbn in H.
  - injection H as ->. split; reflexivity.
  - injection H as -> _. exfalso. apply N2. left. reflexivity.
  - injection H as -> _. exfalso. apply N1. left. reflexivity.
  - injection H as -> H.
    destruct (IH s2 r1 r2) as [-> ->];
      [intros Hin; apply N1; right; exact Hin
      | intros Hin; apply N2; right; exact Hin | exact H |].
    split; reflexivity.
Qed.

Lemma digit_char_is_a_digit d c :
  (d < 10)%N -> (c = ","%char \/ c = "-"%char) -> JS.digit_char d <> c.
Proof. intros H [-> | ->]; DecimalText.each_digit d H; discriminate. Qed.

Lemma N_toString_chars n c :
  (c = ","%char \/ c = "-"%char) -> ~ In c (list_ascii_of_string (JS.N_toString n)).
Proof.
  intros Hc. unfold JS.N_toString. rewrite list_ascii_of_string_of_list_ascii.
  intros Hin. apply in_map_iff in Hin as (d & Hd & Hin).
  apply in_rev in Hin.
  pose proof (DecimalText.digits_small (S (N.to_nat (N.log2 n))) n) as Hs.
  rewrite Forall_forall in Hs. exact (digit_char_is_a_digit d c (Hs d Hin) Hc Hd).
Qed.

Lemma N_toString_inj n m : JS.N_toString n = JS.N_toString m -> n = m.
Proof.
  intros H. pose proof (DecimalText.parseInt_toString n) as Hn.
  rewrite H, DecimalText.parseInt_toString in Hn. injection Hn as Hn. lia.
Qed.

Lemma Z_toString_chars z : ~ In ","%char (list_ascii_of_string (JS.Z_toString z)).
Proof.
  destruct z as [|p|p]; cbn [JS.Z_toString];
    try (apply N_toString_chars; left; reflexivity).
  cbn [String.append list_ascii_of_string]. intros [H|H]; [discriminate|].
  revert H. apply N_toString_chars. left. reflexivity.
Qed.

Lemma Z_toString_inj z1 z2 : JS.Z_toString z1 = JS.Z_toString z2 -> z1 = z2.
Proof.
  assert (Hneg : forall p n, ("-" ++ JS.N_toString (Npos p))%string <> JS.N_toString n).
  { intros p n H. apply (N_toString_chars n "-"%char (or_intror eq_refl)).
    rewrite <- H. cbn. left. reflexivity. }
  destruct z1 as [|p1|p1], z2 as [|p2|p2]; cbn [JS.Z_toString Z.to_N]; intros H;
    try reflexivity;
    try (apply N_toString_inj in H; congruence);
    try (exfalso; exact (Hneg _ _ H));
    try (exfalso; symmetry in H; exact (Hneg _ _ H)).
  cbn [String.append] in H. injection H as H. apply N_toString_inj in H. congruence.
Qed.

Lemma Z_toString_delimited z1 z2 r1 r2 :
  JS.Z_toString z1 ++ "," ++ r1 = JS.Z_toString z2 ++ "," ++ r2 -> z1 = z2 /\ r1 = r2.
Proof.
  cbn [String.append]. intros H.
  destruct (delimited_by _ _ _ _ _ (Z_toString_chars z1) (Z_toString_chars z2) H)
    as [E ->].
  split; [exact (Z_toString_inj _ _ E) | reflexivity].
Qed.

(** *** The body in hexadecimal *)

Lemma of_word_2 byte tail :
  Hex.of_word 2 byte tail = Hex.of_word 2 byte EmptyString ++ tail.
Proof. reflexivity. Qed.

Lemma hex_of_bytes (l : list N) tail :
  fold_right (fun byte t => Hex.of_word 2 byte t) tail l
  = fold_right (fun byte t => Hex.of_word 2 byte t) EmptyString l ++ tail.
Proof.
  induction l as [|b l IH]; cbn [fold_right]; [reflexivity|].
  rewrite of_word_2, IH, (of_word_2 b (fold_right _ _ _)), append_assoc. reflexivity.
Qed.

Lemma hex_of_cons c s :
  BlockClass.hex_of (String c s)
  = BlockClass.hex_of (String c EmptyString) ++ BlockClass.hex_of s.
Proof.
  unfold BlockClass.hex_of, CryptoJS.bytes_of. cbn [list_ascii_of_string flat_map].
  rewrite app_nil_r, fold_right_app. apply hex_of_bytes.
Qed.

Lemma hex_of_code c1 c2 :
  prefix (BlockClass.hex_of (String c1 EmptyString))
         (BlockClass.hex_of (String c2 EmptyString)) = true -> c1 = c2.
Proof.
  apply (code_by_test (fun c => BlockClass.hex_of (String c EmptyString))).
  vm_compute. reflexivity.
Qed.

Lemma hex_of_nonempty c : BlockClass.hex_of (String c EmptyString) <> EmptyString.
Proof.
  pose proof (for_all_ascii
                (fun c => match BlockClass.hex_of (String c EmptyString) with
                          | String _ _ => true
                          | EmptyString => false
                          end)) as H.
  specialize (H ltac:(vm_compute; reflexivity) c). cbv beta in H.
  intros E. rewrite E in H. discriminate.
Qed.

Lemma hex_of_inj s1 : forall s2, BlockClass.hex_of s1 = BlockClass.hex_of s2 -> s1 = s2.
Proof.
  induction s1 as [|c1 s1 IH]; intros [|c2 s2] H.
  - reflexivity.
  - exfalso. rewrite hex_of_cons in H. change (BlockClass.hex_of EmptyString) with EmptyString in H.
    pose proof (hex_of_nonempty c2) as Hne.
    destruct (BlockClass.hex_of (String c2 EmptyString)); [contradiction | discriminate].
  - exfalso. rewrite hex_of_cons in H. change (BlockClass.hex_of EmptyString) with EmptyString in H.
    pose proof (hex_of_nonempty c1) as Hne.
    destruct (BlockClass.hex_of (String c1 EmptyString)); [contradiction | discriminate].
  - rewrite (hex_of_cons c1), (hex_of_cons c2) in H.
    destruct (prefix_code _ hex_of_code _ _ _ _ H) as [-> H'].
    now rewrite (IH _ H').
Qed.

(** *** The payload and the block *)

Lemma json_of_data_inj d1 d2 :
  BlockClass.json_of_data d1 = BlockClass.json_of_data d2 -> d1 = d2.
Proof.
  destruct d1 as [x1|a1 m1 s1 t1], d2 as [x2|a2 m2 s2 t2];
    cbn [BlockClass.json_of_data]; intros H; apply append_cancel in H.
  - apply quote_delimited in H as [_ H]. apply append_cancel in H.
    apply quote_delimited in H as [-> _]. reflexivity.
  - apply quote_delimited in H as [H _]. discriminate.
  - apply quote_delimited in H as [H _]. discriminate.
  - apply quote_delimited in H as [_ H]. apply append_cancel in H.
    apply quote_delimited in H as [-> H]. apply append_cancel in H.
    apply quote_delimited in H as [_ H]. apply append_cancel in H.
    apply quote_delimited in H as [-> H]. apply append_cancel in H.
    apply quote_delimited in H as [_ H]. apply append_cancel in H.
    apply quote_delimited in H as [-> H]. apply append_cancel in H.
    apply quote_delimited in H as [_ H]. apply append_cancel in H.
    apply append_cancel_right in H. now subst.
Qed.

Lemma stringify_inj b1 b2 :
  BlockClass.stringify b1 = BlockClass.stringify b2 -> b1 = b2.
Proof.
  destruct b1 as [h1 t1 p1 d1 x1], b2 as [h2 t2 p2 d2 x2].
  unfold BlockClass.stringify.
  cbn [BlockClass.height BlockClass.time BlockClass.previousBlockHash
       BlockClass.body BlockClass.hash].
  intros H. apply append_cancel in H.
  apply quote_delimited in H as [_ H]. apply append_cancel in H.
  apply Z_toString_delimited in H as [-> H].
  apply quote_delimited in H as [_ H]. apply append_cancel in H.
  apply quote_delimited in H as [-> H]. apply append_cancel in H.
  apply quote_delimited in H as [_ H]. apply append_cancel in H.
  apply quote_nullable_delimited in H as [-> H]. apply append_cancel in H.
  apply quote_delimited in H as [_ H]. apply append_cancel in H.
  apply quote_delimited in H as [Hd H]. apply append_cancel in H.
  apply quote_delimited in H as [_ H]. apply append_cancel in H.
  apply quote_nullable_delimited in H as [-> _].
  apply hex_of_inj, json_of_data_inj in Hd. now subst.
Qed.
End Readback.

(** What a resolved [_addBlock] stores, for any block it is given. *)
Lemma addBlock_resolved env w block b :
  fst (Blockchain._addBlock block env w) = Resolved b ->
  exists p,
    b = BlockClass.mkBlock (height (this w) + 1) (clock_text env w) p
          (BlockClass.body block)
          (Some (CryptoJS.SHA256
                   (BlockClass.stringify
                      (BlockClass.mkBlock (height (this w) + 1) (clock_text env w) p
                         (BlockClass.body block) (BlockClass.hash block))))).
Proof.
  unfold Blockchain._addBlock, bind, get_this, ret, set_this.
  rewrite seconds_text_run. cbn [tick this].
  destruct (height (this w) =? -1)%Z.
  - cbn [fst]. intros [= <-]. exists None. reflexivity.
  - destruct (Blockchain.tail_block (chain (this w))) as [t|]; cbn [fst];
      [|discriminate].
    intros [= <-]. exists (BlockClass.hash t). reflexivity.
Qed.

(** C10 (amended).  The hash [_addBlock] stores is the SHA-256 digest of
    the text [JSON.stringify(block)] of the block as it stands once its
    height, time and previous hash are assigned, its [hash] property
    included with the value the block came with.  That text determines the
    height, the time, the previous hash, the body and the hash the block
    came with, so each of the five is part of what is digested.  A block
    fresh from [new Block(data)] comes without a hash; for a block that
    comes without one the stored hash is [block_digest] of the four other
    fields, so that two such blocks that agree on the four fields get the
    same hash, and the recomputation of the validator does not depend on
    the stored hash. *)
Theorem C10_the_digest_is_taken_of_the_whole_block :
  (forall env w block b,
      fst (Blockchain._addBlock block env w) = Resolved b ->
      BlockClass.hash b
      = Some (CryptoJS.SHA256
                (BlockClass.stringify
                   (BlockClass.mkBlock (BlockClass.height b) (BlockClass.time b)
                      (BlockClass.previousBlockHash b) (BlockClass.body b)
                      (BlockClass.hash block)))))
  /\ (forall b1 b2, BlockClass.stringify b1 = BlockClass.stringify b2 -> b1 = b2)
  /\ (forall data, BlockClass.hash (BlockClass.new data) = None)
  /\ (forall env w block b,
        BlockClass.hash block = None ->
        fst (Blockchain._addBlock block env w) = Resolved b ->
        BlockClass.hash b
        = Some (block_digest (BlockClass.height b) (BlockClass.time b)
                             (BlockClass.previousBlockHash b) (BlockClass.body b)))
  /\ (forall env1 w1 block1 b1 env2 w2 block2 b2,
        BlockClass.hash block1 = None ->
        BlockClass.hash block2 = None ->
        fst (Blockchain._addBlock block1 env1 w1) = Resolved b1 ->
        fst (Blockchain._addBlock block2 env2 w2) = Resolved b2 ->
        BlockClass.height b1 = BlockClass.height b2 ->
        BlockClass.time b1 = BlockClass.time b2 ->
        BlockClass.previousBlockHash b1 = BlockClass.previousBlockHash b2 ->
        BlockClass.body b1 = BlockClass.body b2 ->
        BlockClass.hash b1 = BlockClass.hash b2)
  /\ (forall b stored,
        BlockClass.recompute_hash (BlockClass.set_hash b stored)
        = block_digest (BlockClass.height b) (BlockClass.time b)
                       (BlockClass.previousBlockHash b) (BlockClass.body b)).
Proof.
  assert (Hany : forall env w block b,
             fst (Blockchain._addBlock block env w) = Resolved b ->
             BlockClass.hash b
             = Some (CryptoJS.SHA256
                       (BlockClass.stringify
                          (BlockClass.mkBlock (BlockClass.height b) (BlockClass.time b)
                             (BlockClass.previousBlockHash b) (BlockClass.body b)
                             (BlockClass.hash block))))).
  { intros env w block b Hrun.
    destruct (addBlock_resolved env w block b Hrun) as [p ->]. reflexivity. }
  assert (Hone : forall env w block b,
             BlockClass.hash block = None ->
             fst (Blockchain._addBlock block env w) = Resolved b ->
             BlockClass.hash b
             = Some (block_digest (BlockClass.height b) (BlockClass.time b)
                       (BlockClass.previousBlockHash b) (BlockClass.body b))).
  { intros env w block b Hnone Hrun.
    rewrite (Hany env w block b Hrun), Hnone. reflexivity. }
  split; [exact Hany|]. split; [exact Readback.stringify_inj|].
  split; [reflexivity|]. split; [exact Hone|]. split.
  - intros env1 w1 block1 b1 env2 w2 block2 b2 N1 N2 H1 H2 Eh Et Ep Eb.
    rewrite (Hone _ _ _ _ N1 H1), (Hone _ _ _ _ N2 H2), Eh, Et, Ep, Eb. reflexivity.
  - intros b stored. reflexivity.
Qed.

(** What [JSON.stringify(block)] covers: the [hash] property is part of the
    text, so the digest of a block that already carried a hash would cover
    that hash.  [_addBlock] is only applied to blocks fresh from
    [new Block(data)], whose [hash] is [null]. *)
Remark stringify_reads_the_hash_property :
  BlockClass.stringify (BlockClass.new (BlockClass.Genesis "Genesis Block"))
  <> BlockClass.stringify
       (BlockClass.set_hash (BlockClass.new (BlockClass.Genesis "Genesis Block")) (Some "00"%string)).
Proof. vm_compute. discriminate. Qed.

(** ** The time window of [submitStar] *)

Lemma currentTime_seconds env w :
  (1000 <= Date_getTime env (clock_reads w))%N ->
  currentTime env w = Some (Z.of_N (Date_getTime env (clock_reads w) / 1000)).
Proof. intros H. apply DecimalText.seconds_of_clock. exact H. Qed.

Lemma elapsed_seconds env w message T :
  Blockchain.time_in message = Some T ->
  (1000 <= Date_getTime env (clock_reads w))%N ->
  elapsed env w message
  = Some (Z.of_N (Date_getTime env (clock_reads w) / 1000) - T)%Z.
Proof.
  intros HT Hms. unfold elapsed. rewrite (currentTime_seconds env w Hms), HT. reflexivity.
Qed.

Lemma after_validation_not_a_message b v text :
  Blockchain.after_validation b v <> Rejected (Message text).
Proof. destruct v as [|[|]|]; discriminate. Qed.

(** [submitStar] of [src/blockchain.js] rejects with the expiry text exactly
    when the test [delaie < 300] fails. *)
Lemma submitStar_expired_iff env w address message signature star :
  fst (Blockchain.submitStar address message signature star env w) = Rejected ChallengeExpired
  <-> JS.lt (elapsed env w message) 300 = false.
Proof.
  split.
  - intros Hr. destruct (JS.lt (elapsed env w message) 300) eqn:Hlt; [exfalso|reflexivity].
    destruct (bitcoinMessage_verify env message address signature) as [[|]|] eqn:Hv.
    + rewrite (submitStar_verified _ _ _ _ _ _ Hlt Hv) in Hr.
      destruct (Blockchain._addBlock _ env _) as [[|b|e] w1]; try discriminate.
      destruct (Blockchain.validateChain env w1) as [v w2]. cbn [fst] in Hr.
      exact (after_validation_not_a_message _ _ _ Hr).
    + rewrite (submitStar_unverified _ _ _ _ _ _ Hlt) in Hr by (rewrite Hv; discriminate).
      discriminate.
    + rewrite (submitStar_unverified _ _ _ _ _ _ Hlt) in Hr by (rewrite Hv; discriminate).
      discriminate.
  - intros Hlt. rewrite (submitStar_late _ _ _ _ _ _ Hlt). reflexivity.
Qed.

(** The second copy rejects with its expiry text exactly when the test
    [(currentTime - messageTime) > 300] holds. *)
Lemma copy_expired_iff env w address message signature star :
  fst (BlockchainCopy.submitStar address message signature star env w)
  = Rejected CopyChallengeExpired
  <-> JS.gt (elapsed env w message) 300 = true.
Proof.
  unfold BlockchainCopy.submitStar, bind, ret. split.
  - intros Hr. destruct (JS.gt (elapsed env w message) 300) eqn:Hgt; [reflexivity|exfalso].
    destruct (bitcoinMessage_verify env message address signature) as [[|]|] eqn:Hv.
    + rewrite (copy_calls_verified _ _ _ _ _ _ Hgt Hv) in Hr.
      destruct (Blockchain._addBlock _ env _) as [[|b|e] w1]; try discriminate.
      destruct (BlockchainCopy.validateChain env w1) as [v w2]. discriminate.
    + rewrite copy_calls_rejected in Hr by (left; rewrite Hv; discriminate).
      rewrite Hgt in Hr. discriminate.
    + rewrite copy_calls_rejected in Hr by (left; rewrite Hv; discriminate).
      rewrite Hgt in Hr. discriminate.
  - intros Hgt. rewrite copy_calls_rejected by (right; exact Hgt).
    rewrite Hgt. reflexivity.
Qed.

(** C5 (amended).  For a submission whose message carries the time [T],
    read at a clock of [now] seconds: [submitStar] of [src/blockchain.js]
    rejects with the expiry text exactly when [now - T] is at least 300,
    and the second copy exactly when [now - T] exceeds 300.  In both, when
    the signature verifies and [now - T] is below 300 (299 for one) the
    submission made in a reachable world resolves with the block it
    appended. *)
Theorem C5_expiry_boundary :
  forall env w address message signature star T,
    Blockchain.time_in message = Some T ->
    (1000 <= Date_getTime env (clock_reads w))%N ->
    let now := Z.of_N (Date_getTime env (clock_reads w) / 1000) in
    (fst (Blockchain.submitStar address message signature star env w)
       = Rejected ChallengeExpired
     <-> (300 <= now - T)%Z)
    /\ (fst (BlockchainCopy.submitStar address message signature star env w)
          = Rejected CopyChallengeExpired
        <-> (300 < now - T)%Z)
    /\ (Reachable env w ->
        bitcoinMessage_verify env message address signature = Returns true ->
        (now - T < 300)%Z ->
        exists b,
          fst (Blockchain.submitStar address message signature star env w) = Resolved b
          /\ fst (BlockchainCopy.submitStar address message signature star env w) = Resolved b
          /\ chain (this (snd (Blockchain.submitStar address message signature star env w)))
             = chain (this w) ++ [b]
          /\ chain (this (snd (BlockchainCopy.submitStar address message signature star env w)))
             = chain (this w) ++ [b]
          /\ BlockClass.body b = BlockClass.Star address message signature star).
Proof.
  intros env w address message signature star T HT Hms now.
  pose proof (elapsed_seconds env w message T HT Hms) as He. fold now in He.
  split; [|split].
  - rewrite submitStar_expired_iff, He. cbn [JS.lt]. rewrite Z.ltb_ge. reflexivity.
  - rewrite copy_expired_iff, He. cbn [JS.gt]. rewrite Z.ltb_lt. reflexivity.
  - intros HR Hv Hlt. pose proof (Reachable_Sound _ _ HR) as HS.
    assert (H1 : JS.lt (elapsed env w message) 300 = true)
      by (rewrite He; cbn [JS.lt]; apply Z.ltb_lt; exact Hlt).
    assert (H2 : JS.gt (elapsed env w message) 300 = false)
      by (rewrite He; cbn [JS.gt]; apply Z.ltb_ge; lia).
    destruct (submitStar_stored env w address message signature star HS H1 Hv)
      as (t & Ht & Hrun).
    destruct (copy_stored env w address message signature star HS H2 Hv)
      as (t' & Ht' & Hrun').
    rewrite Ht in Ht'. injection Ht' as <-. cbv zeta in Hrun, Hrun'.
    rewrite Hrun, Hrun'. eexists. repeat split.
Qed.

(** C4 (amended).  A submission whose message has no readable time in its
    second field is rejected by [submitStar] of [src/blockchain.js] with the
    text it uses for an expired challenge; the verifier is not called and
    the chain and the height stay as they were. *)
Theorem C4_unreadable_time_rejected_as_expired :
  forall env w address message signature star,
    Blockchain.time_in message = None ->
    fst (Blockchain.submitStar address message signature star env w)
      = Rejected ChallengeExpired
    /\ verify_calls (snd (Blockchain.submitStar address message signature star env w))
       = verify_calls w
    /\ this (snd (Blockchain.submitStar address message signature star env w)) = this w.
Proof.
  intros env w address message signature star HT.
  assert (Hlt : JS.lt (elapsed env w message) 300 = false).
  { unfold elapsed. rewrite HT. destruct (currentTime env w); reflexivity. }
  rewrite (submitStar_late _ _ _ _ _ _ Hlt). repeat split.
Qed.

(** C7.  A submission inside the time window whose signature the verifier
    does not accept (it returns [false] or raises) is rejected, by
    [src/blockchain.js] with the text for an invalid signature and by the
    second copy with the block it built, and in both the chain and the
    height are the same after the call as before it. *)
Theorem C7_invalid_signature_leaves_the_store_unchanged :
  forall env w address message signature star T,
    Blockchain.time_in message = Some T ->
    (1000 <= Date_getTime env (clock_reads w))%N ->
    (Z.of_N (Date_getTime env (clock_reads w) / 1000) - T < 300)%Z ->
    (bitcoinMessage_verify env message address signature = Returns false
     \/ bitcoinMessage_verify env message address signature = Raises) ->
    (fst (Blockchain.submitStar address message signature star env w)
       = Rejected SignatureInvalid
     /\ chain (this (snd (Blockchain.submitStar address message signature star env w)))
        = chain (this w)
     /\ height (this (snd (Blockchain.submitStar address message signature star env w)))
        = height (this w))
    /\ (fst (BlockchainCopy.submitStar address message signature star env w)
          = Rejected (TheBlock (BlockClass.new
                                  (BlockClass.Star address message signature star)))
        /\ chain (this (snd (BlockchainCopy.submitStar address message signature star env w)))
           = chain (this w)
        /\ height (this (snd (BlockchainCopy.submitStar address message signature star env w)))
           = height (this w)).
Proof.
  intros env w address message signature star T HT Hms Hlt Hv.
  pose proof (elapsed_seconds env w message T HT Hms) as He.
  assert (Hbad : bitcoinMessage_verify env message address signature <> Returns true)
    by (destruct Hv as [-> | ->]; discriminate).
  assert (H1 : JS.lt (elapsed env w message) 300 = true)
    by (rewrite He; cbn [JS.lt]; apply Z.ltb_lt; exact Hlt).
  assert (H2 : JS.gt (elapsed env w message) 300 = false)
    by (rewrite He; cbn [JS.gt]; apply Z.ltb_ge; lia).
  split.
  - rewrite (submitStar_unverified _ _ _ _ _ _ H1 Hbad). repeat split.
  - unfold BlockchainCopy.submitStar, bind, ret.
    rewrite copy_calls_rejected by (left; exact Hbad). rewrite H2. repeat split.
Qed.

(** With more than 300 seconds elapsed, [submitStar] of [src/blockchain.js]
    stops at the time check: one rejection, no call of the verifier, and the
    same result whatever the verifier would have done. *)
Lemma submitStar_short_circuits env w address message signature star T :
  Blockchain.time_in message = Some T ->
  (1000 <= Date_getTime env (clock_reads w))%N ->
  (300 < Z.of_N (Date_getTime env (clock_reads w) / 1000) - T)%Z ->
  forall verifier,
    Blockchain.submitStar address message signature star
      (mkEnv (Date_getTime env) verifier) w
    = (Rejected ChallengeExpired, tick w).
Proof.
  intros HT Hms Hgt verifier. apply submitStar_late.
  rewrite (elapsed_seconds (mkEnv (Date_getTime env) verifier) w message T HT Hms).
  cbn [JS.lt Date_getTime]. apply Z.ltb_ge. lia.
Qed.

(** In the same situation the second copy rejects with its expiry text
    first, then calls the verifier all the same and rejects a second time;
    the promise keeps the first rejection. *)
Lemma copy_does_not_short_circuit env w address message signature star T :
  Blockchain.time_in message = Some T ->
  (1000 <= Date_getTime env (clock_reads w))%N ->
  (300 < Z.of_N (Date_getTime env (clock_reads w) / 1000) - T)%Z ->
  BlockchainCopy.submitStar_calls address message signature star env w
  = ([Rejected CopyChallengeExpired;
      Rejected (TheBlock (BlockClass.new (BlockClass.Star address message signature star)))],
     called (tick w) message address signature).
Proof.
  intros HT Hms Hgt.
  assert (H : JS.gt (elapsed env w message) 300 = true).
  { rewrite (elapsed_seconds env w message T HT Hms). cbn [JS.gt]. apply Z.ltb_lt. exact Hgt. }
  rewrite copy_calls_rejected by (right; exact H). rewrite H. reflexivity.
Qed.

(** ** Stars by wallet address *)

Lemma stars_collected address l :
  forall stars,
    run_jobs (map (Blockchain.stars_callback address) l) stars
    = stars
        ++ map BlockClass.getBData
             (filter (fun b => negb (BlockClass.height b =? 0)%Z
                               && Blockchain.address_is (BlockClass.getBData b) address) l).
Proof.
  unfold run_jobs.
  induction l as [|b l IH]; intros stars; cbn [map fold_left filter].
  - now rewrite app_nil_r.
  - rewrite IH. unfold Blockchain.stars_callback.
    destruct (BlockClass.height b =? 0)%Z; cbn [negb andb]; [reflexivity|].
    destruct (Blockchain.address_is (BlockClass.getBData b) address); cbn [map];
      [now rewrite <- app_assoc | reflexivity].
Qed.

Lemma results_collected address l :
  forall results,
    run_jobs (map (BlockchainCopy.results_callback address) l) results
    = results
        ++ map BlockClass.getBData
             (filter (fun b => Blockchain.address_is (BlockClass.getBData b) address) l).
Proof.
  unfold run_jobs.
  induction l as [|b l IH]; intros results; cbn [map fold_left filter].
  - now rewrite app_nil_r.
  - rewrite IH. unfold BlockchainCopy.results_callback.
    destruct (Blockchain.address_is (BlockClass.getBData b) address); cbn [map];
      [now rewrite <- app_assoc | reflexivity].
Qed.

Lemma filter_later_blocks address rest :
  Forall (fun b => BlockClass.height b <> 0%Z) rest ->
  filter (fun b => negb (BlockClass.height b =? 0)%Z
                   && Blockchain.address_is (BlockClass.getBData b) address) rest
  = filter (fun b => Blockchain.address_is (BlockClass.getBData b) address) rest.
Proof.
  induction 1 as [|b rest Hb _ IH]; [reflexivity|]. cbn [filter].
  apply Z.eqb_neq in Hb. rewrite Hb, IH. reflexivity.
Qed.

(** Blocks picked from a chain whose i-th block has height [k + i] come in
    ascending height. *)
Lemma picked_heights_ascend (keep : BlockClass.Block -> bool) l :
  forall k,
    (forall i b, nth_error l i = Some b -> BlockClass.height b = Z.of_nat (k + i)) ->
    StronglySorted Z.lt (map BlockClass.height (filter keep l))
    /\ Forall (fun h => (Z.of_nat k <= h)%Z) (map BlockClass.height (filter keep l)).
Proof.
  induction l as [|b l IH]; intros k Hl; cbn [filter map].
  - split; constructor.
  - assert (Hb : BlockClass.height b = Z.of_nat k)
      by (rewrite (Hl 0%nat b eq_refl); f_equal; lia).
    destruct (IH (S k)) as [Hs Hf].
    { intros i x Hi. rewrite (Hl (S i) x Hi). f_equal. lia. }
    assert (Hf' : Forall (fun h => (Z.of_nat k <= h)%Z)
                    (map BlockClass.height (filter keep l))).
    { eapply Forall_impl; [|exact Hf]. cbn beta. intros h Hh. lia. }
    destruct (keep b); cbn [map]; [|split; assumption].
    split.
    + constructor; [exact Hs|]. rewrite Hb.
      eapply Forall_impl; [|exact Hf]. cbn beta. intros h Hh. lia.
    + constructor; [lia | exact Hf'].
Qed.

Lemma owned_by_address_is address b :
  SpecQuery.owned_by address b
  = Blockchain.address_is (BlockClass.getBData b) address.
Proof.
  unfold SpecQuery.owned_by, SpecQuery.owner, Blockchain.address_is.
  destruct (BlockClass.address_of (BlockClass.getBData b)) as [a|]; [|reflexivity].
  destruct (string_dec a address) as [->|N].
  - symmetry. apply String.eqb_refl.
  - symmetry. apply String.eqb_neq. exact N.
Qed.

Lemma owned_by_owner address b :
  SpecQuery.owned_by address b = true <-> SpecQuery.owner b = Some address.
Proof.
  unfold SpecQuery.owned_by. destruct (SpecQuery.owner b) as [a|].
  - destruct (string_dec a address) as [->|N].
    + split; reflexivity.
    + split; [discriminate | intros [= E]; contradiction].
  - split; discriminate.
Qed.

(** C8 (amended).  On every chain [getStarsByWalletAddress] of
    [src/blockchain.js] resolves with the decoded payloads of exactly the
    blocks whose height is not 0 and whose decoded owner is the queried
    address, in chain order: a block of height 0 is left out whatever its
    payload.  The second copy has no such guard: on every chain it resolves
    with the payloads of all the blocks whose decoded owner is the queried
    address.  In a reachable world the first block is the genesis block,
    which names no owner, and the i-th block has height i; there both
    copies resolve with what the specification asks for: the payloads of
    exactly the non-genesis blocks whose owner is the queried address, in
    ascending order of height. *)
Theorem C8_stars_of_an_address :
  forall env w address,
    Blockchain.getStarsByWalletAddress address env w
    = (Resolved
         (map BlockClass.getBData
            (filter (fun b => negb (BlockClass.height b =? 0)%Z
                              && SpecQuery.owned_by address b)
                    (chain (this w)))), w)
    /\ BlockchainCopy.getStarsByWalletAddress address env w
       = (Resolved
            (map BlockClass.getBData
               (filter (SpecQuery.owned_by address) (chain (this w)))), w)
    /\ (forall b, SpecQuery.owned_by address b = true
                  <-> BlockClass.address_of (BlockClass.getBData b) = Some address)
    /\ (Reachable env w ->
        exists genesis rest,
          chain (this w) = genesis :: rest
          /\ SpecQuery.owner genesis = None
          /\ (forall i b, nth_error (chain (this w)) i = Some b ->
                          BlockClass.height b = Z.of_nat i)
          /\ Blockchain.getStarsByWalletAddress address env w
             = (Resolved
                  (map BlockClass.getBData
                     (SpecQuery.all_blocks_by_address address (chain (this w)))), w)
          /\ BlockchainCopy.getStarsByWalletAddress address env w
             = (Resolved
                  (map BlockClass.getBData
                     (SpecQuery.all_blocks_by_address address (chain (this w)))), w)
          /\ (forall d,
                In d (map BlockClass.getBData
                        (SpecQuery.all_blocks_by_address address (chain (this w))))
                <-> exists i b,
                      nth_error (chain (this w)) (S i) = Some b
                      /\ BlockClass.getBData b = d
                      /\ BlockClass.address_of d = Some address)
          /\ StronglySorted Z.lt
               (map BlockClass.height
                  (SpecQuery.all_blocks_by_address address (chain (this w))))).
Proof.
  intros env w address.
  assert (Hmain : Blockchain.getStarsByWalletAddress address env w
                  = (Resolved
                       (map BlockClass.getBData
                          (filter (fun b => negb (BlockClass.height b =? 0)%Z
                                            && SpecQuery.owned_by address b)
                                  (chain (this w)))), w)).
  { unfold Blockchain.getStarsByWalletAddress, bind, get_this, ret.
    rewrite stars_collected. cbn [app]. do 3 f_equal.
    apply filter_ext. intros b. now rewrite owned_by_address_is. }
  assert (Hcopy : BlockchainCopy.getStarsByWalletAddress address env w
                  = (Resolved
                       (map BlockClass.getBData
                          (filter (SpecQuery.owned_by address) (chain (this w)))), w)).
  { unfold BlockchainCopy.getStarsByWalletAddress, bind, get_this, ret.
    rewrite results_collected. cbn [app]. do 3 f_equal.
    apply filter_ext. intros b. now rewrite owned_by_address_is. }
  split; [exact Hmain|]. split; [exact Hcopy|].
  split; [intros b; apply owned_by_owner|].
  intros HR. destruct (Reachable_Sound _ _ HR) as [HL _].
  destruct (Reachable_genesis _ _ HR) as (g & rest & E & Hbody).
  pose proof (Linked_GenesisFirst _ HL) as HG. rewrite E in HG. destruct HG as [Hg Hrest].
  assert (Hnone : SpecQuery.owner g = None)
    by (unfold SpecQuery.owner, BlockClass.getBData; rewrite Hbody; reflexivity).
  exists g, rest. split; [exact E|]. split; [exact Hnone|].
  split; [|split; [|split; [|split]]].
  - intros i b Hi. apply (Linked_nth _ HL i b Hi).
  - rewrite Hmain, E. cbn [SpecQuery.all_blocks_by_address filter].
    rewrite Hg. cbn [Z.eqb negb andb]. do 3 f_equal.
    clear -Hrest. induction Hrest as [|b rest Hb _ IH]; [reflexivity|].
    cbn [filter]. apply Z.eqb_neq in Hb. rewrite Hb, IH. reflexivity.
  - rewrite Hcopy, E. cbn [SpecQuery.all_blocks_by_address filter].
    unfold SpecQuery.owned_by at 1. rewrite Hnone. reflexivity.
  - intros d. rewrite E. cbn [SpecQuery.all_blocks_by_address nth_error]. split.
    + intros Hin. apply in_map_iff in Hin as (b & Hd & Hb).
      apply filter_In in Hb as [Hb Ho]. apply owned_by_owner in Ho.
      destruct (In_nth_error _ _ Hb) as [i Hi].
      exists i, b. split; [exact Hi|]. split; [exact Hd|].
      rewrite <- Hd. exact Ho.
    + intros (i & b & Hi & Hd & Ho). apply in_map_iff. exists b.
      split; [exact Hd|]. apply filter_In. split; [exact (nth_error_In _ _ Hi)|].
      apply owned_by_owner. unfold SpecQuery.owner. rewrite Hd. exact Ho.
  - rewrite E. cbn [SpecQuery.all_blocks_by_address].
    apply (picked_heights_ascend _ rest 1).
    intros i b Hi. apply (Linked_nth _ HL (S i) b). rewrite E. exact Hi.
Qed.

(** ** Submissions keep the world reachable *)

Lemma submitStar_world env w address message signature star :
  Sound (this w) ->
  JS.lt (elapsed env w message) 300 = true ->
  bitcoinMessage_verify env message address signature = Returns true ->
  snd (Blockchain.submitStar address message signature star env w)
  = snd (Blockchain._addBlock
           (BlockClass.new (BlockClass.Star address message signature star))
           env (called (tick w) message address signature)).
Proof.
  intros HS Hlt Hv.
  destruct (submitStar_stored env w address message signature star HS Hlt Hv)
    as (t & Ht & Hrun).
  destruct (Sound_append env (called (tick w) message address signature)
              (BlockClass.Star address message signature star) HS)
    as (t' & Ht' & Hadd & _).
  cbn [called tick this] in Ht'. rewrite Ht in Ht'. injection Ht' as <-.
  cbv zeta in Hrun. rewrite Hrun, Hadd. reflexivity.
Qed.

Lemma copy_world env w address message signature star :
  Sound (this w) ->
  JS.gt (elapsed env w message) 300 = false ->
  bitcoinMessage_verify env message address signature = Returns true ->
  snd (BlockchainCopy.submitStar address message signature star env w)
  = snd (Blockchain._addBlock
           (BlockClass.new (BlockClass.Star address message signature star))
           env (called (tick w) message address signature)).
Proof.
  intros HS Hgt Hv.
  destruct (copy_stored env w address message signature star HS Hgt Hv)
    as (t & Ht & Hrun).
  destruct (Sound_append env (called (tick w) message address signature)
              (BlockClass.Star address message signature star) HS)
    as (t' & Ht' & Hadd & _).
  cbn [called tick this] in Ht'. rewrite Ht in Ht'. injection Ht' as <-.
  cbv zeta in Hrun. rewrite Hrun, Hadd. reflexivity.
Qed.

(** Whatever a submission ends in, the world it leaves is one the
    constructor and appends can build. *)
Lemma submitStar_Reachable env w address message signature star :
  Reachable env w ->
  Reachable env (snd (Blockchain.submitStar address message signature star env w))
  /\ Reachable env (snd (BlockchainCopy.submitStar address message signature star env w)).
Proof.
  intros HR. pose proof (Reachable_Sound _ _ HR) as HS.
  assert (HR1 : Reachable env (called (tick w) message address signature))
    by exact (reach_elsewhere env w _ _ HR).
  assert (Happ : Reachable env
            (snd (Blockchain._addBlock
                    (BlockClass.new (BlockClass.Star address message signature star))
                    env (called (tick w) message address signature))))
    by (apply reach_append; [reflexivity | exact HR1]).
  split.
  - destruct (JS.lt (elapsed env w message) 300) eqn:Hlt.
    + destruct (bitcoinMessage_verify env message address signature) as [[|]|] eqn:Hv.
      * rewrite (submitStar_world _ _ _ _ _ _ HS Hlt Hv). exact Happ.
      * rewrite submitStar_unverified by (assumption || (rewrite Hv; discriminate)).
        exact HR1.
      * rewrite submitStar_unverified by (assumption || (rewrite Hv; discriminate)).
        exact HR1.
    + rewrite (submitStar_late _ _ _ _ _ _ Hlt). exact (reach_elsewhere env w _ _ HR).
  - unfold BlockchainCopy.submitStar, bind, ret.
    destruct (JS.gt (elapsed env w message) 300) eqn:Hgt.
    + rewrite copy_calls_rejected by (right; exact Hgt). exact HR1.
    + destruct (bitcoinMessage_verify env message address signature) as [[|]|] eqn:Hv.
      * pose proof (copy_world env w address message signature star HS Hgt Hv) as Hw.
        unfold BlockchainCopy.submitStar, bind, ret in Hw.
        destruct (BlockchainCopy.submitStar_calls _ _ _ _ env w) as [calls w'].
        cbn [snd] in Hw |- *. rewrite Hw. exact Happ.
      * rewrite copy_calls_rejected by (left; rewrite Hv; discriminate). exact HR1.
      * rewrite copy_calls_rejected by (left; rewrite Hv; discriminate). exact HR1.
Qed.

(** ** The challenge the issuer hands out *)

Lemma split_first sep s1 s2 :
  JS.split sep s1 = [s1] ->
  JS.split sep (s1 ++ String sep s2) = s1 :: JS.split sep s2.
Proof.
  induction s1 as [|c r IH]; cbn [JS.split String.append]; intros H.
  - rewrite Ascii.eqb_refl. reflexivity.
  - destruct (Ascii.eqb c sep); [discriminate|].
    destruct (JS.split sep r) as [|f fs] eqn:E.
    + injection H as H. rewrite <- H in IH.
      destruct r; [|discriminate]. cbn in E. discriminate.
    + injection H as -> ->. rewrite (IH eq_refl). reflexivity.
Qed.

Lemma split_digits ds :
  Forall (fun d => (d < 10)%N) ds ->
  JS.split ":" (string_of_list_ascii (map JS.digit_char ds))
  = [string_of_list_ascii (map JS.digit_char ds)].
Proof.
  induction 1 as [|d ds Hd _ IH]; [reflexivity|].
  cbn [map string_of_list_ascii JS.split]. rewrite IH.
  DecimalText.each_digit d Hd; reflexivity.
Qed.

Lemma split_toString n : JS.split ":" (JS.N_toString n) = [JS.N_toString n].
Proof.
  unfold JS.N_toString. apply split_digits. apply Forall_rev.
  apply DecimalText.digits_small.
Qed.

(** The message [requestMessageOwnershipVerification] builds for an address
    without a colon carries the seconds of the clock, and [submitStar]
    reads them back. *)
Lemma challenge_carries_its_time env w address :
  JS.split ":" address = [address] ->
  (1000 <= Date_getTime env (clock_reads w))%N ->
  exists message,
    Blockchain.requestMessageOwnershipVerification address env w
    = (Resolved message, tick w)
    /\ Blockchain.time_in message
       = Some (Z.of_N (Date_getTime env (clock_reads w) / 1000)).
Proof.
  intros Ha Hms. eexists. split.
  - unfold Blockchain.requestMessageOwnershipVerification, bind, ret.
    rewrite seconds_text_run. reflexivity.
  - unfold Blockchain.time_in, clock_text.
    rewrite (DecimalText.slice_toString _ Hms).
    change (String.append ":" ?x) with (String ":" x).
    rewrite (split_first ":"%char address _ Ha).
    change (JS.N_toString (Date_getTime env (clock_reads w) / 1000) ++ ":starRegistry")%string
      with (JS.N_toString (Date_getTime env (clock_reads w) / 1000)
              ++ String ":" "starRegistry")%string.
    rewrite (split_first ":"%char _ _ (split_toString _)).
    cbn [nth_error]. apply DecimalText.parseInt_toString.
Qed.

(** ** Runs of the sample worlds *)

Example sha256_of_abc :
  CryptoJS.SHA256 "abc"
  = "ba7816bf8f01cfea414140de5dae2223b00361a396177a9cb410ff61f20015ad"%string.
Proof. vm_compute. reflexivity. Qed.

Example sha256_of_the_empty_text :
  CryptoJS.SHA256 EmptyString
  = "e3b0c44298fc1c149afbf4c8996fb92427ae41e4649b934ca495991b7852b855"%string.
Proof. vm_compute. reflexivity. Qed.

Example sha256_of_two_blocks :
  CryptoJS.SHA256 "abcdbcdecdefdefgefghfghighijhijkijkljklmklmnlmnomnopnopq"
  = "248d6a61d20638b8e5c026930c3e6039a33ce45964ff2167f6ecedd419db06c1"%string.
Proof. vm_compute. reflexivity. Qed.

Example parseInt_samples :
  JS.parseInt (Some "1700000000"%string) = Some 1700000000%Z
  /\ JS.parseInt (Some "  -0x1F zz"%string) = Some (-31)%Z
  /\ JS.parseInt (Some "12px"%string) = Some 12%Z
  /\ JS.parseInt (Some "soon"%string) = None
  /\ JS.parseInt (Some EmptyString) = None
  /\ JS.parseInt None = None.
Proof. vm_compute. repeat split. Qed.

Example started_chain :
  chain (this Sample.started)
  = [sealed 0 "1700000000" None (BlockClass.Genesis "Genesis Block")]
  /\ height (this Sample.started) = 0%Z.
Proof. vm_compute. split; reflexivity. Qed.

Lemma two_stars_reachable : Reachable Sample.accepting Sample.two_stars.
Proof.
  apply reach_append; [reflexivity|].
  apply reach_append; [reflexivity|]. apply reach_constructor.
Qed.

Lemma started_reachable : Reachable Sample.accepting Sample.started.
Proof. apply reach_constructor. Qed.

Lemma sample_clock_late env w :
  Date_getTime env = Sample.clock -> (1000 <= Date_getTime env (clock_reads w))%N.
Proof. intros ->. unfold Sample.clock. lia. Qed.

(** ** The theorems on the sample worlds *)

Lemma C1_witness :
  Reachable Sample.accepting Sample.two_stars
  /\ Blockchain.validateChain Sample.accepting Sample.two_stars
     = (Resolved true, Sample.two_stars).
Proof.
  split; [exact two_stars_reachable|].
  exact (proj1 (C1_validateChain_succeeds_after_each_append
                  Sample.accepting Sample.two_stars two_stars_reachable)).
Defined.

Lemma C9_witness :
  Reachable Sample.accepting Sample.two_stars
  /\ exists genesis rest,
       chain (this Sample.two_stars) = genesis :: rest
       /\ BlockClass.height genesis = 0%Z
       /\ BlockClass.previousBlockHash genesis = None.
Proof.
  split; [exact two_stars_reachable|].
  destruct (C9_genesis_is_the_only_block_without_previous_hash
              Sample.accepting Sample.two_stars two_stars_reachable)
    as (genesis & rest & E & Hh & Hp & _).
  exists genesis, rest. split; [exact E|]. split; [exact Hh | exact Hp].
Defined.

Lemma C10_witness :
  exists b,
    fst (Blockchain._addBlock
           (BlockClass.new (BlockClass.Star Sample.wallet Sample.challenge_1
                                            Sample.signature Sample.star))
           Sample.accepting Sample.started) = Resolved b
    /\ BlockClass.hash b
       = Some (block_digest (BlockClass.height b) (BlockClass.time b)
                            (BlockClass.previousBlockHash b) (BlockClass.body b)).
Proof.
  destruct (Sound_append Sample.accepting Sample.started
              (BlockClass.Star Sample.wallet Sample.challenge_1
                               Sample.signature Sample.star)
              (Reachable_Sound _ _ started_reachable)) as (t & _ & Hrun & _).
  apply (f_equal fst) in Hrun. cbn [fst] in Hrun.
  eexists. split; [exact Hrun|].
  exact (proj1 (proj2 (proj2 (proj2 C10_the_digest_is_taken_of_the_whole_block)))
           Sample.accepting Sample.started
           (BlockClass.new (BlockClass.Star Sample.wallet Sample.challenge_1
                                            Sample.signature Sample.star))
           _ eq_refl Hrun).
Defined.

(** Two blocks handed to [_addBlock] in the same world with the same body,
    one fresh and one that already carries a hash: the blocks stored agree
    on height, time, previous hash and body and differ in their hashes. *)
Lemma C10_counterexample :
  exists b1 b2,
    fst (Blockchain._addBlock
           (BlockClass.new (BlockClass.Star Sample.wallet Sample.challenge_1
                                            Sample.signature Sample.star))
           Sample.accepting Sample.started) = Resolved b1
    /\ fst (Blockchain._addBlock Sample.rehashed Sample.accepting Sample.started)
       = Resolved b2
    /\ BlockClass.body Sample.rehashed
       = BlockClass.Star Sample.wallet Sample.challenge_1 Sample.signature Sample.star
    /\ BlockClass.height b1 = BlockClass.height b2
    /\ BlockClass.time b1 = BlockClass.time b2
    /\ BlockClass.previousBlockHash b1 = BlockClass.previousBlockHash b2
    /\ BlockClass.body b1 = BlockClass.body b2
    /\ BlockClass.hash b1
       = Some "7ba34eccf951726197ac11aef2d3800298aca5c3431b58f6507f5c5ce3f88278"%string
    /\ BlockClass.hash b2
       = Some "6f2952f186f862dae4f4dd5ef340b219e3961fc6042573c8e5ddf2cbba79c723"%string.
Proof.
  eexists. eexists.
  split; [vm_compute; reflexivity|]. split; [vm_compute; reflexivity|].
  split; [reflexivity|]. split; [reflexivity|]. split; [reflexivity|].
  split; [reflexivity|]. split; [reflexivity|]. split; reflexivity.
Qed.

Lemma C5_witness :
  Blockchain.time_in Sample.challenge_299 = Some 1699999702%Z
  /\ Blockchain.time_in Sample.challenge_301 = Some 1699999700%Z
  /\ (1000 <= Date_getTime Sample.accepting (clock_reads Sample.started))%N
  /\ Reachable Sample.accepting Sample.started
  /\ (exists b,
        fst (Blockchain.submitStar Sample.wallet Sample.challenge_299 Sample.signature
               Sample.star Sample.accepting Sample.started) = Resolved b)
  /\ fst (Blockchain.submitStar Sample.wallet Sample.challenge_301 Sample.signature
            Sample.star Sample.accepting Sample.started) = Rejected ChallengeExpired.
Proof.
  assert (H299 : Blockchain.time_in Sample.challenge_299 = Some 1699999702%Z)
    by (vm_compute; reflexivity).
  assert (H301 : Blockchain.time_in Sample.challenge_301 = Some 1699999700%Z)
    by (vm_compute; reflexivity).
  assert (Hms : (1000 <= Date_getTime Sample.accepting (clock_reads Sample.started))%N)
    by (apply sample_clock_late; reflexivity).
  split; [exact H299|]. split; [exact H301|]. split; [exact Hms|].
  split; [exact started_reachable|]. split.
  - destruct (C5_expiry_boundary Sample.accepting Sample.started Sample.wallet
                Sample.challenge_299 Sample.signature Sample.star _ H299 Hms)
      as (_ & _ & Hok).
    destruct (Hok started_reachable eq_refl) as (b & Hb & _);
      [vm_compute; reflexivity|].
    exists b. exact Hb.
  - apply (C5_expiry_boundary Sample.accepting Sample.started Sample.wallet
             Sample.challenge_301 Sample.signature Sample.star _ H301 Hms).
    vm_compute. discriminate.
Defined.

(** At exactly 300 seconds [submitStar] of [src/blockchain.js] rejects the
    submission as expired although 300 does not exceed 300. *)
Lemma C5_counterexample :
  Blockchain.time_in Sample.challenge_300 = Some 1699999701%Z
  /\ currentTime Sample.accepting Sample.started = Some 1700000001%Z
  /\ (1700000001 - 1699999701 = 300)%Z
  /\ bitcoinMessage_verify Sample.accepting Sample.challenge_300 Sample.wallet
       Sample.signature = Returns true
  /\ fst (Blockchain.submitStar Sample.wallet Sample.challenge_300 Sample.signature
            Sample.star Sample.accepting Sample.started) = Rejected ChallengeExpired.
Proof. vm_compute. repeat split. Qed.

Lemma C4_witness :
  Blockchain.time_in Sample.challenge_unreadable = None
  /\ fst (Blockchain.submitStar Sample.wallet Sample.challenge_unreadable Sample.signature
            Sample.star Sample.accepting Sample.started) = Rejected ChallengeExpired.
Proof.
  assert (HT : Blockchain.time_in Sample.challenge_unreadable = None)
    by (vm_compute; reflexivity).
  split; [exact HT|].
  exact (proj1 (C4_unreadable_time_rejected_as_expired Sample.accepting Sample.started
                  Sample.wallet Sample.challenge_unreadable Sample.signature Sample.star HT)).
Defined.

(** The rejection of a message without a readable time is the very
    rejection of an expired challenge, and the second copy of the class
    accepts such a message and appends its block. *)
Lemma C4_counterexample :
  Blockchain.time_in Sample.challenge_unreadable = None
  /\ Blockchain.time_in Sample.challenge_301 = Some 1699999700%Z
  /\ currentTime Sample.accepting Sample.started = Some 1700000001%Z
  /\ fst (Blockchain.submitStar Sample.wallet Sample.challenge_unreadable Sample.signature
            Sample.star Sample.accepting Sample.started)
     = fst (Blockchain.submitStar Sample.wallet Sample.challenge_301 Sample.signature
              Sample.star Sample.accepting Sample.started)
  /\ (exists b,
        fst (BlockchainCopy.submitStar Sample.wallet Sample.challenge_unreadable
               Sample.signature Sample.star Sample.accepting Sample.started) = Resolved b
        /\ chain (this (snd (BlockchainCopy.submitStar Sample.wallet
                               Sample.challenge_unreadable Sample.signature Sample.star
                               Sample.accepting Sample.started)))
           = chain (this Sample.started) ++ [b]).
Proof.
  split; [vm_compute; reflexivity|]. split; [vm_compute; reflexivity|].
  split; [vm_compute; reflexivity|]. split; [vm_compute; reflexivity|].
  eexists. split; vm_compute; reflexivity.
Qed.

Lemma C7_witness :
  Blockchain.time_in Sample.challenge_1 = Some 1700000000%Z
  /\ bitcoinMessage_verify Sample.refusing Sample.challenge_1 Sample.wallet Sample.signature
     = Returns false
  /\ fst (Blockchain.submitStar Sample.wallet Sample.challenge_1 Sample.signature
            Sample.star Sample.refusing Sample.started) = Rejected SignatureInvalid
  /\ chain (this (snd (Blockchain.submitStar Sample.wallet Sample.challenge_1
                         Sample.signature Sample.star Sample.refusing Sample.started)))
     = chain (this Sample.started).
Proof.
  assert (HT : Blockchain.time_in Sample.challenge_1 = Some 1700000000%Z)
    by (vm_compute; reflexivity).
  assert (Hms : (1000 <= Date_getTime Sample.refusing (clock_reads Sample.started))%N)
    by (apply sample_clock_late; reflexivity).
  assert (Hlt : (Z.of_N (Date_getTime Sample.refusing (clock_reads Sample.started) / 1000)
                 - 1700000000 < 300)%Z)
    by (vm_compute; reflexivity).
  destruct (C7_invalid_signature_leaves_the_store_unchanged Sample.refusing Sample.started
              Sample.wallet Sample.challenge_1 Sample.signature Sample.star _
              HT Hms Hlt (or_introl eq_refl)) as ((H1 & H2 & _) & _).
  split; [exact HT|]. split; [reflexivity|]. split; [exact H1 | exact H2].
Defined.

Lemma C8_witness :
  Reachable Sample.accepting Sample.two_stars
  /\ exists genesis rest,
       chain (this Sample.two_stars) = genesis :: rest
       /\ Blockchain.getStarsByWalletAddress Sample.wallet Sample.accepting Sample.two_stars
          = (Resolved
               (map BlockClass.getBData
                  (SpecQuery.all_blocks_by_address Sample.wallet
                     (chain (this Sample.two_stars)))), Sample.two_stars).
Proof.
  split; [exact two_stars_reachable|].
  destruct (proj2 (proj2 (proj2 (C8_stars_of_an_address Sample.accepting Sample.two_stars
                                   Sample.wallet)))
              two_stars_reachable) as (genesis & rest & E & _ & _ & H & _).
  exists genesis, rest. split; assumption.
Defined.

(** On a chain whose block of height 0 holds a star of the queried address
    the second copy hands out that block's payload, where
    [src/blockchain.js] hands out nothing. *)
Lemma C8_counterexample :
  chain (this Sample.owned_genesis)
  = [sealed 0 "1700000000" None
            (BlockClass.Star Sample.wallet Sample.challenge_1 Sample.signature Sample.star)]
  /\ fst (BlockchainCopy.getStarsByWalletAddress Sample.wallet Sample.accepting
            Sample.owned_genesis)
     = Resolved [BlockClass.Star Sample.wallet Sample.challenge_1 Sample.signature
                                 Sample.star]
  /\ fst (Blockchain.getStarsByWalletAddress Sample.wallet Sample.accepting
            Sample.owned_genesis)
     = Resolved [].
Proof.
  split; [reflexivity|]. split; vm_compute; reflexivity.
Qed.

Example stars_of_the_sample_wallet :
  fst (Blockchain.getStarsByWalletAddress Sample.wallet Sample.accepting Sample.two_stars)
  = Resolved [BlockClass.Star Sample.wallet Sample.challenge_1 Sample.signature Sample.star]
  /\ fst (BlockchainCopy.getStarsByWalletAddress Sample.wallet Sample.accepting Sample.two_stars)
     = Resolved [BlockClass.Star Sample.wallet Sample.challenge_1 Sample.signature Sample.star].
Proof. vm_compute. split; reflexivity. Qed.

(** ** Where the code leaves the specification *)

(** C2.  On a chain with three violations (the validator of the
    specification lists a hash mismatch at heights 1 and 2 and a broken link
    at height 2) the walk of [validateChain] throws at the first one, when
    it assigns to the constant [ChainIsValid]; the promise is never settled
    and no list of violations comes back, in either copy of the class. *)
Theorem C2_validateChain_throws_at_the_first_violation :
  SpecValidator.violations (chain (this Sample.tampered))
  = [SpecValidator.HashMismatch 1; SpecValidator.HashMismatch 2; SpecValidator.BrokenLink 2]
  /\ forEach (Blockchain.check_block Blockchain.BlockIsValid_is_false)
             (chain (this Sample.tampered)) (Blockchain.Zero, [])
     = Throw "TypeError: Assignment to constant variable."
  /\ Blockchain.validateChain Sample.accepting Sample.tampered = (Pending, Sample.tampered)
  /\ BlockchainCopy.validateChain Sample.accepting Sample.tampered
     = (Pending, Sample.tampered).
Proof. vm_compute. repeat split. Qed.

(** C3.  A submission that passes both checks on that chain is appended
    (the chain has four blocks afterwards), but [submitStar] of
    [src/blockchain.js] then waits for a [validateChain] that is never
    settled: it reports neither failure nor success.  The second copy does
    not look at the validator and resolves with the block. *)
Theorem C3_submitStar_after_a_failed_validation :
  fst (Blockchain.submitStar Sample.wallet Sample.challenge_1 Sample.signature Sample.star
         Sample.accepting Sample.tampered) = Pending
  /\ List.length (chain (this (snd (Blockchain.submitStar Sample.wallet Sample.challenge_1
                                      Sample.signature Sample.star
                                      Sample.accepting Sample.tampered)))) = 4%nat
  /\ (exists b,
        fst (BlockchainCopy.submitStar Sample.wallet Sample.challenge_1 Sample.signature
               Sample.star Sample.accepting Sample.tampered) = Resolved b)
  /\ (forall b errorLog,
        Blockchain.after_validation b (Rejected errorLog) = Pending).
Proof.
  split; [vm_compute; reflexivity|]. split; [vm_compute; reflexivity|]. split.
  - eexists. vm_compute. reflexivity.
  - intros b errorLog. reflexivity.
Qed.

(** C6.  With a challenge that is 301 seconds old the second copy of the
    class rejects with its expiry text and goes on: it calls the verifier
    and calls [reject] a second time.  [submitStar] of [src/blockchain.js]
    makes no call of the verifier on the same submission. *)
Theorem C6_the_copy_still_calls_the_verifier :
  Blockchain.time_in Sample.challenge_301 = Some 1699999700%Z
  /\ currentTime Sample.accepting Sample.started = Some 1700000001%Z
  /\ BlockchainCopy.submitStar_calls Sample.wallet Sample.challenge_301 Sample.signature
       Sample.star Sample.accepting Sample.started
     = ([Rejected CopyChallengeExpired;
         Rejected (TheBlock (BlockClass.new
                     (BlockClass.Star Sample.wallet Sample.challenge_301
                                      Sample.signature Sample.star)))],
        called (tick Sample.started) Sample.challenge_301 Sample.wallet Sample.signature)
  /\ verify_calls (snd (BlockchainCopy.submitStar Sample.wallet Sample.challenge_301
                          Sample.signature Sample.star Sample.accepting Sample.started))
     = [(Sample.challenge_301, Sample.wallet, Sample.signature)]
  /\ verify_calls (snd (Blockchain.submitStar Sample.wallet Sample.challenge_301
                          Sample.signature Sample.star Sample.accepting Sample.started))
     = [].
Proof. vm_compute. repeat split. Qed.

(** Whatever [block.validate()] returns for the blocks of the tampered
    chain, the walk throws: block 2 does not hold the hash of block 1. *)
Lemma tampered_chain_never_validates :
  forall is_invalid,
    fst (Blockchain.validateChain_with is_invalid Sample.accepting Sample.tampered)
    = Pending.
Proof.
  intros f. unfold Blockchain.validateChain_with, bind, get_this, ret.
  remember (chain (this Sample.tampered)) as l eqn:El. vm_compute in El. subst l.
  cbn [forEach]. unfold Blockchain.check_block.
  cbn [BlockClass.height BlockClass.hash BlockClass.previousBlockHash Z.eqb].
  destruct (f _); [reflexivity|].
  destruct (f _); [reflexivity|].
  destruct (f _); reflexivity.
Qed.

(** After expiry the verifier does not matter to [submitStar] of
    [src/blockchain.js]: it accepts, refuses or raises, and the result is
    the same rejection in the same world. *)
Example expired_submission_ignores_the_verifier :
  Blockchain.submitStar Sample.wallet Sample.challenge_301 Sample.signature Sample.star
    Sample.accepting Sample.started = (Rejected ChallengeExpired, tick Sample.started)
  /\ Blockchain.submitStar Sample.wallet Sample.challenge_301 Sample.signature Sample.star
       Sample.refusing Sample.started = (Rejected ChallengeExpired, tick Sample.started)
  /\ Blockchain.submitStar Sample.wallet Sample.challenge_301 Sample.signature Sample.star
       Sample.raising Sample.started = (Rejected ChallengeExpired, tick Sample.started).
Proof.
  assert (HT : Blockchain.time_in Sample.challenge_301 = Some 1699999700%Z)
    by (vm_compute; reflexivity).
  assert (Hms : (1000 <= Date_getTime Sample.accepting (clock_reads Sample.started))%N)
    by (apply sample_clock_late; reflexivity).
  assert (Hgt : (300 < Z.of_N (Date_getTime Sample.accepting (clock_reads Sample.started)
                                 / 1000) - 1699999700)%Z)
    by (vm_compute; reflexivity).
  pose proof (submitStar_short_circuits Sample.accepting Sample.started Sample.wallet
                Sample.challenge_301 Sample.signature Sample.star _ HT Hms Hgt) as H.
  split; [|split].
  - exact (H (fun _ _ _ => Returns true)).
  - exact (H (fun _ _ _ => Returns false)).
  - exact (H (fun _ _ _ => Raises)).
Qed.

(** * Further properties of the class *)

(** ** The height and the store *)

Lemma Linked_tail_height l :
  Linked l ->
  exists last,
    Blockchain.tail_block l = Some last
    /\ BlockClass.height last = (Z.of_nat (List.length l) - 1)%Z.
Proof.
  intros HL. destruct (Linked_last _ HL) as (l' & t & E). exists t.
  split; [rewrite E; apply tail_block_snoc|].
  assert (Ht : nth_error l (List.length l') = Some t).
  { rewrite E, nth_error_app2 by lia.
    now replace (List.length l' - List.length l')%nat with 0%nat by lia. }
  destruct (Linked_nth _ HL _ _ Ht) as (Hh & _).
  rewrite Hh, E, length_app. cbn [List.length]. lia.
Qed.

(** X1.  In every world reached by the constructor and appends,
    [getChainHeight] resolves with the number of stored blocks minus one,
    which is the height written in the last block and is never negative; the
    call changes nothing. *)
Theorem X1_getChainHeight_is_the_height_of_the_last_block :
  forall env w,
    Reachable env w ->
    exists last,
      Blockchain.tail_block (chain (this w)) = Some last
      /\ Blockchain.getChainHeight env w = (Resolved (BlockClass.height last), w)
      /\ BlockClass.height last = (Z.of_nat (List.length (chain (this w))) - 1)%Z
      /\ (0 <= BlockClass.height last)%Z.
Proof.
  intros env w HR. destruct (Reachable_Sound _ _ HR) as [HL Hh].
  destruct (Linked_tail_height _ HL) as (last & Ht & Hlast).
  exists last. split; [exact Ht|]. split; [|split; [exact Hlast|]].
  - unfold Blockchain.getChainHeight, bind, get_this, ret. rewrite Hh, Hlast. reflexivity.
  - destruct (Linked_last _ HL) as (l' & t & E).
    rewrite Hlast, E, length_app. cbn [List.length]. lia.
Qed.

(** ** [_addBlock] *)

(** What [_addBlock] does to any block when the chain is not empty. *)
Lemma addBlock_run_any env w block t :
  height (this w) <> (-1)%Z ->
  Blockchain.tail_block (chain (this w)) = Some t ->
  let filled :=
    BlockClass.mkBlock (height (this w) + 1) (clock_text env w) (BlockClass.hash t)
                       (BlockClass.body block) (BlockClass.hash block) in
  let b := BlockClass.set_hash filled (Some (CryptoJS.SHA256 (BlockClass.stringify filled))) in
  Blockchain._addBlock block env w = (Resolved b, push w b).
Proof.
  intros Hh Ht. cbv zeta.
  unfold Blockchain._addBlock, bind, get_this, ret, set_this.
  rewrite seconds_text_run. cbn [tick this].
  destruct (Z.eqb_spec (height (this w)) (-1)) as [E|_]; [contradiction|].
  rewrite Ht. reflexivity.
Qed.

(** X2.  In a reachable world [_addBlock] resolves for every block that
    carries no hash yet, as a block made by [new Block(data)] does and as
    no stored block does: the block is appended after the stored ones,
    which stay as they are, the height of the chain grows by one, and the
    clock is read once.  The block stored has the next height, the seconds
    of the clock as its time, the hash of the former last block as its
    previous hash and the body it came with; the height, time and previous
    hash it came with are overwritten. *)
Theorem X2_addBlock_appends_the_block_it_resolves_with :
  forall env w block,
    Reachable env w ->
    BlockClass.hash block = None ->
    exists last b,
      Blockchain.tail_block (chain (this w)) = Some last
      /\ Blockchain._addBlock block env w
         = (Resolved b,
            mkWorld (mkBlockchain (chain (this w) ++ [b]) (height (this w) + 1))
                    (S (clock_reads w)) (verify_calls w))
      /\ BlockClass.height b = Z.of_nat (List.length (chain (this w)))
      /\ BlockClass.height b = (BlockClass.height last + 1)%Z
      /\ BlockClass.time b
         = JS.slice_0_minus3 (JS.N_toString (Date_getTime env (clock_reads w)))
      /\ BlockClass.previousBlockHash b = BlockClass.hash last
      /\ BlockClass.body b = BlockClass.body block
      /\ (exists digest, BlockClass.hash b = Some digest).
Proof.
  intros env w block HR _. destruct (Reachable_Sound _ _ HR) as [HL Hh].
  destruct (Linked_tail_height _ HL) as (last & Ht & Hlast).
  assert (Hne : height (this w) <> (-1)%Z).
  { destruct (Linked_last _ HL) as (l' & t & E).
    rewrite Hh, E, length_app. cbn [List.length]. lia. }
  exists last. eexists. split; [exact Ht|].
  split; [exact (addBlock_run_any env w block last Hne Ht)|].
  cbn [BlockClass.set_hash BlockClass.height BlockClass.time
       BlockClass.previousBlockHash BlockClass.body BlockClass.hash].
  split; [lia|]. split; [lia|]. split; [reflexivity|]. split; [reflexivity|].
  split; [reflexivity|]. eexists. reflexivity.
Qed.

(** X3.  [_addBlock] never rejects.  Its promise is left unsettled exactly
    when the height is not -1 while the chain is empty: reading the hash of
    a last block that does not exist throws, and the [catch] drops the
    error.  Then nothing is stored; only the clock was read. *)
Theorem X3_addBlock_never_rejects :
  forall env w block,
    (forall e, fst (Blockchain._addBlock block env w) <> Rejected e)
    /\ (fst (Blockchain._addBlock block env w) = Pending
        <-> height (this w) <> (-1)%Z /\ chain (this w) = [])
    /\ (fst (Blockchain._addBlock block env w) = Pending
        <-> snd (Blockchain._addBlock block env w) = tick w).
Proof.
  intros env w block.
  unfold Blockchain._addBlock, bind, get_this, ret, set_this.
  rewrite seconds_text_run. cbn [tick this].
  destruct (Z.eqb_spec (height (this w)) (-1)) as [E|E].
  - cbn [fst snd]. split; [discriminate|]. split.
    + split; [discriminate | intros [H _]; contradiction].
    + split; [discriminate|]. intros H. exfalso.
      apply (f_equal (fun x => List.length (chain (this x)))) in H.
      unfold tick in H. cbn [this chain] in H.
      rewrite length_app in H. cbn [List.length] in H. lia.
  - destruct (Blockchain.tail_block (chain (this w))) as [t|] eqn:Ht; cbn [fst snd].
    + split; [discriminate|]. split.
      * split; [discriminate|]. intros [_ Hc]. rewrite Hc in Ht. discriminate.
      * split; [discriminate|]. intros H. exfalso.
        apply (f_equal (fun x => List.length (chain (this x)))) in H.
        unfold tick in H. cbn [this chain] in H.
        rewrite length_app in H. cbn [List.length] in H. lia.
    + split; [discriminate|]. split.
      * split; [|reflexivity]. intros _. split; [exact E|].
        destruct (chain (this w)) as [|x l] eqn:Ec; [reflexivity|]. exfalso.
        destruct (exists_last (l := x :: l)) as (l' & t & E'); [discriminate|].
        rewrite E', tail_block_snoc in Ht. discriminate.
      * split; reflexivity.
Qed.

(** ** Lookups *)

(** In a list whose i-th block has height [k + i], the blocks of height [h]
    are the block at position [h - k], if there is one. *)
Lemma filter_by_height l :
  forall k,
    (forall i b, nth_error l i = Some b -> BlockClass.height b = Z.of_nat (k + i)) ->
    forall h,
      filter (fun p => (BlockClass.height p =? h)%Z) l
      = if ((Z.of_nat k <=? h) && (h <? Z.of_nat (k + List.length l)))%Z
        then match nth_error l (Z.to_nat h - k) with Some b => [b] | None => [] end
        else [].
Proof.
  induction l as [|x l IH]; intros k Hl h.
  - cbn [filter List.length]. rewrite Nat.add_0_r.
    destruct (Z.leb_spec (Z.of_nat k) h), (Z.ltb_spec h (Z.of_nat k));
      cbn [andb]; try reflexivity; lia.
  - assert (Hx : BlockClass.height x = Z.of_nat k)
      by (rewrite (Hl 0%nat x eq_refl); f_equal; lia).
    assert (Hl' : forall i b, nth_error l i = Some b ->
                              BlockClass.height b = Z.of_nat (S k + i)).
    { intros i b Hi. rewrite (Hl (S i) b Hi). f_equal. lia. }
    cbn [filter List.length]. rewrite (IH (S k) Hl' h), Hx.
    destruct (Z.eqb_spec (Z.of_nat k) h) as [E|E].
    + subst h. replace (Z.to_nat (Z.of_nat k) - k)%nat with 0%nat by lia.
      replace (Z.to_nat (Z.of_nat k) - S k)%nat with 0%nat by lia.
      cbn [nth_error].
      destruct (Z.leb_spec (Z.of_nat k) (Z.of_nat k)); [|lia].
      destruct (Z.ltb_spec (Z.of_nat k) (Z.of_nat (k + S (List.length l)))); [|lia].
      destruct (Z.leb_spec (Z.of_nat (S k)) (Z.of_nat k)); [lia|].
      reflexivity.
    + destruct (Z.leb_spec (Z.of_nat (S k)) h) as [H1|H1].
      * destruct (Z.leb_spec (Z.of_nat k) h); [|lia].
        replace (Z.of_nat (S k + List.length l)) with (Z.of_nat (k + S (List.length l)))
          by (f_equal; lia).
        destruct (Z.ltb_spec h (Z.of_nat (k + S (List.length l)))); cbn [andb];
          [|reflexivity].
        replace (Z.to_nat h - k)%nat with (S (Z.to_nat h - S k)) by lia.
        reflexivity.
      * cbn [andb]. destruct (Z.leb_spec (Z.of_nat k) h); [lia|]. reflexivity.
Qed.

(** X4.  In a reachable world [getBlockByHeight(h)] resolves with the block
    stored at position [h] of the chain, whose height is [h], for every [h]
    from 0 to the height of the chain, and with [null] for every other [h];
    the call changes nothing. *)
Theorem X4_getBlockByHeight_returns_the_block_at_that_position :
  forall env w h,
    Reachable env w ->
    ((0 <= h <= height (this w))%Z ->
     exists b,
       nth_error (chain (this w)) (Z.to_nat h) = Some b
       /\ BlockClass.height b = h
       /\ Blockchain.getBlockByHeight h env w = (Resolved (Some b), w))
    /\ ((h < 0 \/ height (this w) < h)%Z ->
        Blockchain.getBlockByHeight h env w = (Resolved None, w)).
Proof.
  intros env w h HR. destruct (Reachable_Sound _ _ HR) as [HL Hh].
  assert (Hpos : forall i b, nth_error (chain (this w)) i = Some b ->
                             BlockClass.height b = Z.of_nat (0 + i)).
  { intros i b Hi. apply (Linked_nth _ HL i b Hi). }
  pose proof (filter_by_height _ 0 Hpos h) as Hf.
  unfold Blockchain.getBlockByHeight, bind, get_this, ret.
  rewrite Hf. cbn [Nat.add Z.of_nat]. rewrite Nat.sub_0_r. split.
  - intros [H0 H1].
    destruct (Z.leb_spec 0 h); [|lia].
    destruct (Z.ltb_spec h (Z.of_nat (List.length (chain (this w))))); [|lia].
    cbn [andb].
    destruct (nth_error (chain (this w)) (Z.to_nat h)) as [b|] eqn:Eb.
    + exists b. split; [reflexivity|]. split; [|reflexivity].
      rewrite (Hpos _ _ Eb). cbn [Nat.add]. lia.
    + apply nth_error_None in Eb. lia.
  - intros [H|H].
    + destruct (Z.leb_spec 0 h); [lia|]. reflexivity.
    + destruct (Z.ltb_spec h (Z.of_nat (List.length (chain (this w))))); [lia|].
      rewrite andb_false_r. reflexivity.
Qed.

(** The first element of a list that satisfies a test. *)
Lemma find_first {A : Type} (f : A -> bool) l :
  match find f l with
  | Some x =>
      exists j, nth_error l j = Some x /\ f x = true
                /\ forall k y, (k < j)%nat -> nth_error l k = Some y -> f y = false
  | None => forall y, In y l -> f y = false
  end.
Proof.
  induction l as [|a l IH]; cbn [find]; [intros y []|].
  destruct (f a) eqn:Ea.
  - exists 0%nat. split; [reflexivity|]. split; [exact Ea|]. intros k y Hk. lia.
  - destruct (find f l) as [x|].
    + destruct IH as (j & Hj & Hx & Hbefore). exists (S j).
      split; [exact Hj|]. split; [exact Hx|].
      intros [|k] y Hk Hy; [cbn in Hy; injection Hy as <-; exact Ea|].
      apply (Hbefore k y); [lia | exact Hy].
    + intros y [<-|Hy]; [exact Ea | apply IH; exact Hy].
Qed.

(** X5.  [getBlockByHash(h)] resolves, in any world and without changing it,
    with the first block of the chain whose hash is [h], and with [null]
    when no block of the chain has that hash: a hash held by a stored block
    is always found, and the block that comes back carries the hash asked
    for. *)
Theorem X5_getBlockByHash_returns_the_first_block_with_that_hash :
  forall env w h,
    snd (Blockchain.getBlockByHash h env w) = w
    /\ ((exists j p,
           fst (Blockchain.getBlockByHash h env w) = Resolved (Some p)
           /\ nth_error (chain (this w)) j = Some p
           /\ BlockClass.hash p = Some h
           /\ forall k q, (k < j)%nat -> nth_error (chain (this w)) k = Some q ->
                          BlockClass.hash q <> Some h)
        \/ (fst (Blockchain.getBlockByHash h env w) = Resolved None
            /\ forall q, In q (chain (this w)) -> BlockClass.hash q <> Some h)).
Proof.
  intros env w h. unfold Blockchain.getBlockByHash, bind, get_this, ret. cbn [fst snd].
  split; [reflexivity|].
  set (f := fun p => match BlockClass.hash p with
                     | Some x => String.eqb x h
                     | None => false
                     end).
  assert (Hyes : forall p, f p = true -> BlockClass.hash p = Some h).
  { intros p. unfold f. destruct (BlockClass.hash p); [|discriminate].
    intros H. apply String.eqb_eq in H. now subst. }
  assert (Hno : forall p, f p = false -> BlockClass.hash p <> Some h).
  { intros p. unfold f. intros H E. rewrite E, String.eqb_refl in H. discriminate. }
  pose proof (find_first f (chain (this w))) as H.
  destruct (find f (chain (this w))) as [p|].
  - left. destruct H as (j & Hj & Hp & Hbefore). exists j, p.
    split; [reflexivity|]. split; [exact Hj|]. split; [exact (Hyes p Hp)|].
    intros k q Hk Hq. apply Hno. exact (Hbefore k q Hk Hq).
  - right. split; [reflexivity|]. intros q Hq. apply Hno. exact (H q Hq).
Qed.

(** ** The text of the clock *)

Lemma substring_0_0 s : substring 0 0 s = EmptyString.
Proof. destruct s; reflexivity. Qed.

(** A number below 1000 prints in at most three digits, and
    [slice(0,-3)] leaves nothing of them. *)
Lemma slice_small n : (n < 1000)%N -> JS.slice_0_minus3 (JS.N_toString n) = EmptyString.
Proof.
  intros Hn. unfold JS.slice_0_minus3, JS.N_toString.
  rewrite DecimalText.length_of_chars, length_map, length_rev.
  assert (Hlog : (N.log2 n <= 9)%N).
  { change 9%N with (N.log2 1023). apply N.log2_le_mono. lia. }
  rewrite <- (DecimalText.digits_le_fuel (N.to_nat (N.log2 n)) n 9
                (DecimalText.fuel_enough n)) by lia.
  assert (Hlen : (List.length (JS.digits_le 10 n) <= 3)%nat).
  { rewrite DecimalText.digits_le_S. destruct (N.ltb_spec n 10); [cbn; lia|].
    rewrite DecimalText.digits_le_S. destruct (N.ltb_spec (n / 10) 10); [cbn; lia|].
    rewrite DecimalText.digits_le_S. destruct (N.ltb_spec (n / 10 / 10) 10); [cbn; lia|].
    exfalso. rewrite N.Div0.div_div in *.
    assert (n / (10 * 10) < 10)%N by (apply N.Div0.div_lt_upper_bound; lia). lia. }
  replace (List.length (JS.digits_le 10 n) - 3)%nat with 0%nat by lia.
  apply substring_0_0.
Qed.

(** X6.  The text [new Date().getTime().toString().slice(0,-3)], which
    [_addBlock] stores as the time of a block, which the issuer puts in a
    challenge and which [submitStar] parses as the current time, is the
    decimal text of the whole seconds of the clock, and [parseInt] reads the
    seconds back from it.  When the clock shows less than 1000 milliseconds
    the text is empty and reads as [NaN]; [submitStar] of [src/blockchain.js]
    then rejects every submission as expired. *)
Theorem X6_the_clock_is_read_in_whole_seconds :
  forall env w,
    ((1000 <= Date_getTime env (clock_reads w))%N ->
     fst (seconds_text env w) = JS.N_toString (Date_getTime env (clock_reads w) / 1000)
     /\ JS.parseInt (Some (fst (seconds_text env w)))
        = Some (Z.of_N (Date_getTime env (clock_reads w) / 1000)))
    /\ ((Date_getTime env (clock_reads w) < 1000)%N ->
        fst (seconds_text env w) = EmptyString
        /\ JS.parseInt (Some (fst (seconds_text env w))) = None
        /\ forall address message signature star,
             Blockchain.submitStar address message signature star env w
             = (Rejected ChallengeExpired, tick w)).
Proof.
  intros env w. rewrite seconds_text_run. cbn [fst]. unfold clock_text. split.
  - intros Hms. rewrite (DecimalText.slice_toString _ Hms).
    split; [reflexivity | apply DecimalText.parseInt_toString].
  - intros Hms. rewrite (slice_small _ Hms).
    split; [reflexivity|]. split; [reflexivity|].
    intros address message signature star. apply submitStar_late.
    unfold elapsed, currentTime, clock_text. rewrite (slice_small _ Hms). reflexivity.
Qed.

(** ** The challenge message *)

Lemma split_nonempty sep s : JS.split sep s <> [].
Proof.
  destruct s as [|c r]; cbn [JS.split]; [discriminate|].
  destruct (Ascii.eqb c sep); [discriminate|].
  destruct (JS.split sep r); discriminate.
Qed.

(** The fields of two texts joined by the separator are the fields of the
    first followed by the fields of the second. *)
Lemma split_join sep s1 s2 :
  JS.split sep (s1 ++ String sep s2) = (JS.split sep s1 ++ JS.split sep s2)%list.
Proof.
  induction s1 as [|c r IH]; cbn [JS.split String.append].
  - rewrite Ascii.eqb_refl. reflexivity.
  - destruct (Ascii.eqb c sep); [rewrite IH; reflexivity|].
    rewrite IH. pose proof (split_nonempty sep r) as Hne.
    destruct (JS.split sep r) as [|f fs]; [contradiction|]. reflexivity.
Qed.

(** A text without the separator is one field. *)
Lemma split_whole sep s :
  ~ In sep (list_ascii_of_string s) -> JS.split sep s = [s].
Proof.
  induction s as [|c r IH]; cbn [JS.split list_ascii_of_string]; intros H; [reflexivity|].
  destruct (Ascii.eqb_spec c sep) as [E|E]; [exfalso; apply H; left; exact E|].
  rewrite IH by (intros Hin; apply H; right; exact Hin). reflexivity.
Qed.

(** X7.  [requestMessageOwnershipVerification(address)] reads the clock once
    and resolves with the address, the seconds of the clock and the word
    starRegistry joined by colons.  Split at the colons, the message is the
    fields of the address followed by these two: for an address without a
    colon [submitStar] reads the seconds of issue from the second field, and
    for an address with a colon it reads the second field of the address
    instead. *)
Theorem X7_the_challenge_names_the_address_and_the_second_of_issue :
  forall env w address,
    (1000 <= Date_getTime env (clock_reads w))%N ->
    exists message,
      Blockchain.requestMessageOwnershipVerification address env w
      = (Resolved message, tick w)
      /\ message
         = (address ++ ":" ++ JS.N_toString (Date_getTime env (clock_reads w) / 1000)
              ++ ":starRegistry")%string
      /\ JS.split ":" message
         = (JS.split ":" address
              ++ [JS.N_toString (Date_getTime env (clock_reads w) / 1000);
                  "starRegistry"%string])%list
      /\ (~ In ":"%char (list_ascii_of_string address) ->
          Blockchain.time_in message
          = Some (Z.of_N (Date_getTime env (clock_reads w) / 1000)))
      /\ (forall first second others,
            JS.split ":" address = first :: second :: others ->
            Blockchain.time_in message = JS.parseInt (Some second)).
Proof.
  intros env w address Hms. eexists. split; [|split; [reflexivity|]].
  - unfold Blockchain.requestMessageOwnershipVerification, bind, ret.
    rewrite seconds_text_run. unfold clock_text.
    rewrite (DecimalText.slice_toString _ Hms). reflexivity.
  - assert (Hfields :
      JS.split ":" (address ++ ":" ++ JS.N_toString (Date_getTime env (clock_reads w) / 1000)
                      ++ ":starRegistry")%string
      = (JS.split ":" address
           ++ [JS.N_toString (Date_getTime env (clock_reads w) / 1000);
               "starRegistry"%string])%list).
    { change (String.append ":" ?x) with (String ":" x).
      rewrite split_join. f_equal.
      change (JS.N_toString (Date_getTime env (clock_reads w) / 1000) ++ ":starRegistry")%string
        with (JS.N_toString (Date_getTime env (clock_reads w) / 1000)
                ++ String ":" "starRegistry")%string.
      rewrite split_join, split_toString. reflexivity. }
    split; [exact Hfields|]. unfold Blockchain.time_in. rewrite Hfields. split.
    + intros Hno. rewrite (split_whole _ _ Hno). cbn [app nth_error].
      apply DecimalText.parseInt_toString.
    + intros first second others E. rewrite E. reflexivity.
Qed.

(** X8.  A challenge issued by the class for an address without a colon and
    submitted at the next reading of the clock, in a reachable world: when
    fewer than 300 whole seconds lie between the two readings and the
    verifier accepts the signature, [submitStar] of [src/blockchain.js]
    stores a block with the address, the message, the signature and the star
    and resolves with it; when 300 seconds or more lie between them it
    rejects the submission as expired and stores nothing. *)
Theorem X8_a_challenge_is_good_for_less_than_300_seconds :
  forall env w address signature star,
    Reachable env w ->
    ~ In ":"%char (list_ascii_of_string address) ->
    (1000 <= Date_getTime env (clock_reads w))%N ->
    (1000 <= Date_getTime env (S (clock_reads w)))%N ->
    exists message,
      Blockchain.requestMessageOwnershipVerification address env w
      = (Resolved message, tick w)
      /\ ((Z.of_N (Date_getTime env (S (clock_reads w)) / 1000)
           - Z.of_N (Date_getTime env (clock_reads w) / 1000) < 300)%Z ->
          bitcoinMessage_verify env message address signature = Returns true ->
          exists b,
            fst (Blockchain.submitStar address message signature star env (tick w))
            = Resolved b
            /\ BlockClass.body b = BlockClass.Star address message signature star
            /\ chain (this (snd (Blockchain.submitStar address message signature star
                                   env (tick w))))
               = (chain (this w) ++ [b])%list)
      /\ ((300 <= Z.of_N (Date_getTime env (S (clock_reads w)) / 1000)
                  - Z.of_N (Date_getTime env (clock_reads w) / 1000))%Z ->
          fst (Blockchain.submitStar address message signature star env (tick w))
          = Rejected ChallengeExpired
          /\ this (snd (Blockchain.submitStar address message signature star env (tick w)))
             = this w).
Proof.
  intros env w address signature star HR Hno Hms0 Hms1.
  destruct (challenge_carries_its_time env w address (split_whole _ _ Hno) Hms0)
    as (message & Hrun & HT).
  exists message. split; [exact Hrun|].
  assert (He : elapsed env (tick w) message
               = Some (Z.of_N (Date_getTime env (S (clock_reads w)) / 1000)
                       - Z.of_N (Date_getTime env (clock_reads w) / 1000))%Z)
    by exact (elapsed_seconds env (tick w) message _ HT Hms1).
  split.
  - intros Hlt Hv.
    assert (HS : Sound (this (tick w))) by exact (Reachable_Sound _ _ HR).
    assert (H1 : JS.lt (elapsed env (tick w) message) 300 = true)
      by (rewrite He; cbn [JS.lt]; apply Z.ltb_lt; exact Hlt).
    destruct (submitStar_stored env (tick w) address message signature star HS H1 Hv)
      as (t & _ & Hsub).
    cbv zeta in Hsub. rewrite Hsub. eexists. split; [reflexivity|].
    split; reflexivity.
  - intros Hge.
    assert (H1 : JS.lt (elapsed env (tick w) message) 300 = false)
      by (rewrite He; cbn [JS.lt]; apply Z.ltb_ge; exact Hge).
    rewrite (submitStar_late _ _ _ _ _ _ H1). split; reflexivity.
Qed.

(** ** What [validateChain] accepts *)

Lemma Passes_nil f previous : Passes f previous [].
Proof.
  split; [intros b []|]. split.
  - intros b H. discriminate.
  - intros [|i] p b H; discriminate.
Qed.

Lemma Passes_cons f previous b l :
  Passes f previous (b :: l)
  <-> f b = false
      /\ (BlockClass.height b <> 0%Z ->
          Blockchain.loose_eq (BlockClass.previousBlockHash b) previous = true)
      /\ Passes f (Blockchain.HashOf (BlockClass.hash b)) l.
Proof.
  unfold Passes. split.
  - intros (Hin & Hfirst & Hlater). split; [apply Hin; left; reflexivity|].
    split; [apply Hfirst; reflexivity|]. split; [|split].
    + intros x Hx. apply Hin. right. exact Hx.
    + intros x Hx. exact (Hlater 0%nat b x eq_refl Hx).
    + intros i p x Hp Hx. exact (Hlater (S i) p x Hp Hx).
  - intros (Hb & Hfirst & Hin & Hsecond & Hlater). split; [|split].
    + intros x [<-|Hx]; [exact Hb | exact (Hin x Hx)].
    + intros x [= <-]. exact Hfirst.
    + intros [|i] p x Hp Hx.
      * injection Hp as <-. exact (Hsecond x Hx).
      * exact (Hlater i p x Hp Hx).
Qed.

(** The walk ends normally, with an error log it has not touched, on the
    lists that pass, and throws on the others. *)
Lemma walk_passes f l :
  forall previous errorLog,
    (Passes f previous l
     /\ exists last,
          forEach (Blockchain.check_block f) l (previous, errorLog)
          = Normal (last, errorLog))
    \/ (~ Passes f previous l
        /\ forEach (Blockchain.check_block f) l (previous, errorLog)
           = Throw "TypeError: Assignment to constant variable.").
Proof.
  induction l as [|b l IH]; intros previous errorLog.
  - left. split; [apply Passes_nil | eexists; reflexivity].
  - rewrite Passes_cons. cbn [forEach]. unfold Blockchain.check_block.
    destruct (f b) eqn:Hb.
    { right. split; [intros (H & _); discriminate | reflexivity]. }
    destruct (Z.eqb_spec (BlockClass.height b) 0) as [Hz|Hz].
    + destruct (IH (Blockchain.HashOf (BlockClass.hash b)) errorLog)
        as [(HP & Hrun)|(HP & Hrun)].
      * left. split; [|exact Hrun].
        split; [reflexivity|]. split; [intros Hne; contradiction | exact HP].
      * right. split; [|exact Hrun]. intros (_ & _ & H). exact (HP H).
    + destruct (Blockchain.loose_eq (BlockClass.previousBlockHash b) previous) eqn:Hl.
      * destruct (IH (Blockchain.HashOf (BlockClass.hash b)) errorLog)
          as [(HP & Hrun)|(HP & Hrun)].
        -- left. split; [|exact Hrun].
           split; [reflexivity|]. split; [intros _; reflexivity | exact HP].
        -- right. split; [|exact Hrun]. intros (_ & _ & H). exact (HP H).
      * right. split; [|reflexivity].
        intros (_ & H & _). specialize (H Hz). discriminate.
Qed.

(** X9.  [validateChain] changes nothing and, whatever [block.validate()]
    answers, ends in one of two ways.  It resolves with [true] exactly when
    the chain passes: no block is reported invalid, a first block of height
    other than 0 has a previous hash that reads as the number 0, and every
    later block of height other than 0 holds the hash of the block stored
    before it.  On every other chain its promise is never settled, in
    [src/blockchain.js] and in the second copy: it never rejects and never
    hands out an error log. *)
Theorem X9_validateChain_resolves_true_or_never_settles :
  forall is_invalid env w,
    snd (Blockchain.validateChain_with is_invalid env w) = w
    /\ (fst (Blockchain.validateChain_with is_invalid env w) = Resolved true
        <-> Passes is_invalid Blockchain.Zero (chain (this w)))
    /\ (fst (Blockchain.validateChain_with is_invalid env w) = Pending
        <-> ~ Passes is_invalid Blockchain.Zero (chain (this w)))
    /\ snd (BlockchainCopy.validateChain env w) = w
    /\ (fst (BlockchainCopy.validateChain env w) = Resolved BlockchainCopy.IsTrue
        <-> Passes Blockchain.BlockIsValid_is_false Blockchain.Zero (chain (this w)))
    /\ (fst (BlockchainCopy.validateChain env w) = Pending
        <-> ~ Passes Blockchain.BlockIsValid_is_false Blockchain.Zero (chain (this w))).
Proof.
  intros f env w.
  split; [apply validateChain_world|]. split; [|split].
  - unfold Blockchain.validateChain_with, bind, get_this, ret.
    destruct (walk_passes f (chain (this w)) Blockchain.Zero [])
      as [(HP & last & ->)|(HP & ->)]; cbn [fst].
    + split; [intros _; exact HP | reflexivity].
    + split; [discriminate | intros H; contradiction].
  - unfold Blockchain.validateChain_with, bind, get_this, ret.
    destruct (walk_passes f (chain (this w)) Blockchain.Zero [])
      as [(HP & last & ->)|(HP & ->)]; cbn [fst].
    + split; [discriminate | intros H; contradiction].
    + split; [intros _; exact HP | reflexivity].
  - split; [apply copy_validateChain_world|].
    unfold BlockchainCopy.validateChain, bind, get_this, ret.
    destruct (walk_passes Blockchain.BlockIsValid_is_false (chain (this w))
                Blockchain.Zero []) as [(HP & last & ->)|(HP & ->)]; cbn [fst].
    + split; (split; [try discriminate; intros _; exact HP
                     | try reflexivity; intros H; contradiction]).
    + split; (split; [try discriminate; intros _; exact HP
                     | try reflexivity; intros H; contradiction]).
Qed.

(** ** The constructor and [initializeChain] *)

(** X10.  [new Blockchain()] reads the clock once and leaves a chain of one
    block, the genesis block: height 0, no previous hash, the payload
    [{data: 'Genesis Block'}] and the seconds of the clock as its time.  The
    height of the chain is 0 and the validation the constructor starts
    resolves with [true]. *)
Theorem X10_constructor_leaves_one_genesis_block :
  forall env w0,
    exists genesis digest,
      snd (Blockchain.constructor env w0)
      = mkWorld (mkBlockchain [genesis] 0) (S (clock_reads w0)) (verify_calls w0)
      /\ genesis
         = BlockClass.mkBlock 0
             (JS.slice_0_minus3 (JS.N_toString (Date_getTime env (clock_reads w0))))
             None (BlockClass.Genesis "Genesis Block") (Some digest)
      /\ Blockchain.getChainHeight env (snd (Blockchain.constructor env w0))
         = (Resolved 0%Z, snd (Blockchain.constructor env w0))
      /\ Blockchain.validateChain env (snd (Blockchain.constructor env w0))
         = (Resolved true, snd (Blockchain.constructor env w0)).
Proof.
  intros env w0. eexists. eexists. rewrite constructor_run. cbn [snd].
  split; [reflexivity|]. split; [reflexivity|]. split; [reflexivity|].
  apply validateChain_linked. cbn [push this chain app].
  apply linked_genesis; [reflexivity | reflexivity | apply hashed_sealed].
Qed.

(** X11.  [initializeChain] stores a genesis block only while the height is
    -1.  In a reachable world, where the constructor has run, a further
    call does nothing: it adds no second genesis block and does not read the
    clock. *)
Theorem X11_initializeChain_stores_one_genesis_block_only :
  forall env w,
    (height (this w) = (-1)%Z ->
     Blockchain.initializeChain env w
     = (tt, snd (Blockchain._addBlock (BlockClass.new (BlockClass.Genesis "Genesis Block"))
                   env w)))
    /\ (Reachable env w -> Blockchain.initializeChain env w = (tt, w)).
Proof.
  intros env w. unfold Blockchain.initializeChain, bind, get_this, ret. split.
  - intros ->. cbn [Z.eqb Pos.eqb].
    destruct (Blockchain._addBlock _ env w) as [r w1]. reflexivity.
  - intros HR. destruct (Reachable_Sound _ _ HR) as [HL Hh].
    destruct (Linked_last _ HL) as (l' & t & E).
    destruct (Z.eqb_spec (height (this w)) (-1)) as [H|H]; [|reflexivity].
    exfalso. rewrite Hh, E, length_app in H. cbn [List.length] in H. lia.
Qed.

(** ** The ways [submitStar] ends *)

(** [_addBlock] reads the clock once and does not call the verifier. *)
Lemma addBlock_counters env w block :
  clock_reads (snd (Blockchain._addBlock block env w)) = S (clock_reads w)
  /\ verify_calls (snd (Blockchain._addBlock block env w)) = verify_calls w.
Proof.
  unfold Blockchain._addBlock, bind, get_this, ret, set_this.
  rewrite seconds_text_run. cbn [tick this].
  destruct (height (this w) =? -1)%Z; [split; reflexivity|].
  destruct (Blockchain.tail_block (chain (this w))); split; reflexivity.
Qed.

(** [validateChain] resolves with nothing but [true]. *)
Lemma validateChain_not_false env w :
  fst (Blockchain.validateChain env w) <> Resolved false.
Proof.
  destruct (validateChain_outcomes env w) as [[H|H] _]; rewrite H; discriminate.
Qed.

(** X12.  [submitStar] of [src/blockchain.js] never rejects with the block:
    what it rejects with is one of its two texts.  In a reachable world it
    always settles, in one of three ways.  It rejects as expired when the
    test [delaie < 300] fails, without calling the verifier.  It rejects for
    the signature when the test holds and the verifier does not return
    [true], after one call of the verifier.  It resolves when the test holds
    and the verifier returns [true], with the block it appended, which holds
    the four arguments.  The chain and the height change in the last case
    only. *)
Theorem X12_submitStar_settles_in_one_of_three_ways :
  forall env w address message signature star,
    (forall b, fst (Blockchain.submitStar address message signature star env w)
               <> Rejected (TheBlock b))
    /\ (Reachable env w ->
        (JS.lt (elapsed env w message) 300 = false
         /\ fst (Blockchain.submitStar address message signature star env w)
            = Rejected ChallengeExpired
         /\ this (snd (Blockchain.submitStar address message signature star env w))
            = this w
         /\ verify_calls (snd (Blockchain.submitStar address message signature star env w))
            = verify_calls w)
        \/ (JS.lt (elapsed env w message) 300 = true
            /\ bitcoinMessage_verify env message address signature <> Returns true
            /\ fst (Blockchain.submitStar address message signature star env w)
               = Rejected SignatureInvalid
            /\ this (snd (Blockchain.submitStar address message signature star env w))
               = this w
            /\ verify_calls (snd (Blockchain.submitStar address message signature star env w))
               = (message, address, signature) :: verify_calls w)
        \/ (JS.lt (elapsed env w message) 300 = true
            /\ bitcoinMessage_verify env message address signature = Returns true
            /\ exists b,
                 fst (Blockchain.submitStar address message signature star env w)
                 = Resolved b
                 /\ BlockClass.body b = BlockClass.Star address message signature star
                 /\ this (snd (Blockchain.submitStar address message signature star env w))
                    = mkBlockchain (chain (this w) ++ [b]) (height (this w) + 1)
                 /\ verify_calls (snd (Blockchain.submitStar address message signature star
                                         env w))
                    = (message, address, signature) :: verify_calls w)).
Proof.
  intros env w address message signature star. split.
  - intros b Hr.
    destruct (JS.lt (elapsed env w message) 300) eqn:Hlt.
    + destruct (bitcoinMessage_verify env message address signature) as [[|]|] eqn:Hv.
      * rewrite (submitStar_verified _ _ _ _ _ _ Hlt Hv) in Hr.
        destruct (Blockchain._addBlock _ env _) as [[|x|e] w1]; try discriminate.
        pose proof (validateChain_not_false env w1) as Hnf.
        destruct (Blockchain.validateChain env w1) as [[|[|]|] w2];
          cbn in Hr, Hnf; try discriminate. contradiction.
      * rewrite (submitStar_unverified _ _ _ _ _ _ Hlt) in Hr by (rewrite Hv; discriminate).
        discriminate.
      * rewrite (submitStar_unverified _ _ _ _ _ _ Hlt) in Hr by (rewrite Hv; discriminate).
        discriminate.
    + rewrite (submitStar_late _ _ _ _ _ _ Hlt) in Hr. discriminate.
  - intros HR. pose proof (Reachable_Sound _ _ HR) as HS.
    destruct (JS.lt (elapsed env w message) 300) eqn:Hlt.
    + right. destruct (bitcoinMessage_verify env message address signature) as [[|]|] eqn:Hv.
      * right. split; [reflexivity|]. split; [reflexivity|].
        destruct (submitStar_stored env w address message signature star HS Hlt Hv)
          as (t & _ & Hrun).
        cbv zeta in Hrun. rewrite Hrun. eexists. split; [reflexivity|].
        split; [reflexivity|]. split; reflexivity.
      * left. split; [reflexivity|]. split; [discriminate|].
        rewrite (submitStar_unverified _ _ _ _ _ _ Hlt) by (rewrite Hv; discriminate).
        split; [reflexivity|]. split; reflexivity.
      * left. split; [reflexivity|]. split; [discriminate|].
        rewrite (submitStar_unverified _ _ _ _ _ _ Hlt) by (rewrite Hv; discriminate).
        split; [reflexivity|]. split; reflexivity.
    + left. split; [reflexivity|]. rewrite (submitStar_late _ _ _ _ _ _ Hlt).
      split; [reflexivity|]. split; reflexivity.
Qed.

(** X13.  [submitStar] of the second copy calls the verifier once on every
    submission.  In a reachable world it always settles, in one of three
    ways.  It rejects with its expiry text when the test
    [(currentTime - messageTime) > 300] holds, whatever the verifier says.
    It rejects with the block it built, as [new Block(data)] made it and
    not stored, when the test fails and the verifier does not return
    [true].  It resolves with the block it appended when the test fails and
    the verifier returns [true].  The chain and the height change in the
    last case only. *)
Theorem X13_the_copy_settles_in_one_of_three_ways :
  forall env w address message signature star,
    verify_calls (snd (BlockchainCopy.submitStar address message signature star env w))
    = (message, address, signature) :: verify_calls w
    /\ (Reachable env w ->
        (JS.gt (elapsed env w message) 300 = true
         /\ fst (BlockchainCopy.submitStar address message signature star env w)
            = Rejected CopyChallengeExpired
         /\ this (snd (BlockchainCopy.submitStar address message signature star env w))
            = this w)
        \/ (JS.gt (elapsed env w message) 300 = false
            /\ bitcoinMessage_verify env message address signature <> Returns true
            /\ fst (BlockchainCopy.submitStar address message signature star env w)
               = Rejected (TheBlock (BlockClass.new
                                       (BlockClass.Star address message signature star)))
            /\ this (snd (BlockchainCopy.submitStar address message signature star env w))
               = this w)
        \/ (JS.gt (elapsed env w message) 300 = false
            /\ bitcoinMessage_verify env message address signature = Returns true
            /\ exists b,
                 fst (BlockchainCopy.submitStar address message signature star env w)
                 = Resolved b
                 /\ BlockClass.body b = BlockClass.Star address message signature star
                 /\ this (snd (BlockchainCopy.submitStar address message signature star
                                 env w))
                    = mkBlockchain (chain (this w) ++ [b]) (height (this w) + 1))).
Proof.
  intros env w address message signature star. split.
  - unfold BlockchainCopy.submitStar, bind, ret.
    destruct (JS.gt (elapsed env w message) 300) eqn:Hgt.
    + rewrite copy_calls_rejected by (right; exact Hgt). reflexivity.
    + destruct (bitcoinMessage_verify env message address signature) as [[|]|] eqn:Hv.
      * rewrite (copy_calls_verified _ _ _ _ _ _ Hgt Hv).
        pose proof (addBlock_counters env (called (tick w) message address signature)
                      (BlockClass.new (BlockClass.Star address message signature star)))
          as [_ Hcalls].
        destruct (Blockchain._addBlock _ env _) as [[|x|e] w1]; cbn [snd] in Hcalls |- *;
          try exact Hcalls.
        pose proof (copy_validateChain_world env w1) as Hw.
        destruct (BlockchainCopy.validateChain env w1) as [v w2].
        cbn [snd] in Hw |- *. subst w2. exact Hcalls.
      * rewrite copy_calls_rejected by (left; rewrite Hv; discriminate). reflexivity.
      * rewrite copy_calls_rejected by (left; rewrite Hv; discriminate). reflexivity.
  - intros HR. pose proof (Reachable_Sound _ _ HR) as HS.
    destruct (JS.gt (elapsed env w message) 300) eqn:Hgt.
    + left. split; [reflexivity|]. unfold BlockchainCopy.submitStar, bind, ret.
      rewrite copy_calls_rejected by (right; exact Hgt). rewrite Hgt.
      split; reflexivity.
    + right. destruct (bitcoinMessage_verify env message address signature) as [[|]|] eqn:Hv.
      * right. split; [reflexivity|]. split; [reflexivity|].
        destruct (copy_stored env w address message signature star HS Hgt Hv)
          as (t & _ & Hrun).
        cbv zeta in Hrun. rewrite Hrun. eexists. split; [reflexivity|].
        split; reflexivity.
      * left. split; [reflexivity|]. split; [discriminate|].
        unfold BlockchainCopy.submitStar, bind, ret.
        rewrite copy_calls_rejected by (left; rewrite Hv; discriminate). rewrite Hgt.
        split; reflexivity.
      * left. split; [reflexivity|]. split; [discriminate|].
        unfold BlockchainCopy.submitStar, bind, ret.
        rewrite copy_calls_rejected by (left; rewrite Hv; discriminate). rewrite Hgt.
        split; reflexivity.
Qed.

(** ** Storing a star and finding it again *)

(** A submission that resolves went through both checks and stored the
    block it resolves with. *)
Lemma submitStar_resolved env w address message signature star b :
  Sound (this w) ->
  fst (Blockchain.submitStar address message signature star env w) = Resolved b ->
  exists t,
    Blockchain.tail_block (chain (this w)) = Some t
    /\ b = sealed (height (this w) + 1)
                  (clock_text env (called (tick w) message address signature))
                  (BlockClass.hash t) (BlockClass.Star address message signature star)
    /\ snd (Blockchain.submitStar address message signature star env w)
       = push (called (tick w) message address signature) b.
Proof.
  intros HS Hr.
  destruct (JS.lt (elapsed env w message) 300) eqn:Hlt;
    [|rewrite (submitStar_late _ _ _ _ _ _ Hlt) in Hr; discriminate].
  destruct (bitcoinMessage_verify env message address signature) as [[|]|] eqn:Hv;
    try (rewrite (submitStar_unverified _ _ _ _ _ _ Hlt) in Hr
           by (rewrite Hv; discriminate);
         discriminate).
  destruct (submitStar_stored env w address message signature star HS Hlt Hv)
    as (t & Ht & Hrun).
  cbv zeta in Hrun. rewrite Hrun in Hr |- *. cbn [fst snd] in Hr |- *.
  injection Hr as <-. exists t. split; [exact Ht|]. split; reflexivity.
Qed.

Lemma getBlockByHeight_stored env w i b :
  Sound (this w) ->
  nth_error (chain (this w)) i = Some b ->
  Blockchain.getBlockByHeight (Z.of_nat i) env w = (Resolved (Some b), w).
Proof.
  intros [HL Hh] Hi.
  assert (Hpos : forall j x, nth_error (chain (this w)) j = Some x ->
                             BlockClass.height x = Z.of_nat (0 + j)).
  { intros j x Hj. apply (Linked_nth _ HL j x Hj). }
  unfold Blockchain.getBlockByHeight, bind, get_this, ret.
  rewrite (filter_by_height _ 0 Hpos (Z.of_nat i)).
  cbn [Nat.add Z.of_nat]. rewrite Nat.sub_0_r, Nat2Z.id, Hi.
  assert (Hlt : (i < List.length (chain (this w)))%nat)
    by (apply nth_error_Some; rewrite Hi; discriminate).
  destruct (Z.leb_spec 0 (Z.of_nat i)); [|lia].
  destruct (Z.ltb_spec (Z.of_nat i) (Z.of_nat (List.length (chain (this w))))); [|lia].
  reflexivity.
Qed.

Lemma nth_error_snoc {A : Type} (l : list A) x : nth_error (l ++ [x]) (List.length l) = Some x.
Proof.
  rewrite nth_error_app2 by lia.
  now replace (List.length l - List.length l)%nat with 0%nat by lia.
Qed.

(** X14.  When [submitStar] of [src/blockchain.js] resolves with a block in
    a reachable world, the object answers for it afterwards:
    [getChainHeight] gives the height of the block, [getBlockByHeight] at
    that height gives the block, [getBlockByHash] at its hash gives a block
    with that hash, [getStarsByWalletAddress] for the submitting address
    gives the stars it gave before followed by the new payload, and for any
    other address what it gave before; [validateChain] resolves with
    [true]. *)
Theorem X14_a_stored_star_is_found_again :
  forall env w address message signature star b,
    Reachable env w ->
    fst (Blockchain.submitStar address message signature star env w) = Resolved b ->
    Blockchain.getChainHeight env
      (snd (Blockchain.submitStar address message signature star env w))
    = (Resolved (BlockClass.height b),
       snd (Blockchain.submitStar address message signature star env w))
    /\ Blockchain.getBlockByHeight (BlockClass.height b) env
         (snd (Blockchain.submitStar address message signature star env w))
       = (Resolved (Some b),
          snd (Blockchain.submitStar address message signature star env w))
    /\ (exists h p,
          BlockClass.hash b = Some h
          /\ fst (Blockchain.getBlockByHash h env
                    (snd (Blockchain.submitStar address message signature star env w)))
             = Resolved (Some p)
          /\ BlockClass.hash p = Some h)
    /\ (exists before,
          fst (Blockchain.getStarsByWalletAddress address env w) = Resolved before
          /\ fst (Blockchain.getStarsByWalletAddress address env
                    (snd (Blockchain.submitStar address message signature star env w)))
             = Resolved (before ++ [BlockClass.Star address message signature star]))
    /\ (forall other,
          other <> address ->
          fst (Blockchain.getStarsByWalletAddress other env
                 (snd (Blockchain.submitStar address message signature star env w)))
          = fst (Blockchain.getStarsByWalletAddress other env w))
    /\ Blockchain.validateChain env
         (snd (Blockchain.submitStar address message signature star env w))
       = (Resolved true, snd (Blockchain.submitStar address message signature star env w)).
Proof.
  intros env w address message signature star b HR Hr.
  pose proof (Reachable_Sound _ _ HR) as HS.
  destruct (submitStar_resolved env w address message signature star b HS Hr)
    as (t & Ht & Hb & Hw).
  rewrite Hw. set (w1 := called (tick w) message address signature) in *.
  assert (HS' : Sound (this (push w1 b))).
  { destruct (Sound_append env w1 (BlockClass.Star address message signature star) HS)
      as (t' & Ht' & _ & HS').
    cbn [w1 called tick this] in Ht'. rewrite Ht in Ht'. injection Ht' as <-.
    rewrite Hb. exact HS'. }
  assert (Hheight : BlockClass.height b = Z.of_nat (List.length (chain (this w)))).
  { rewrite Hb. cbn [sealed BlockClass.height]. destruct HS as [_ ->]. lia. }
  assert (Hbody : BlockClass.body b = BlockClass.Star address message signature star)
    by (rewrite Hb; reflexivity).
  assert (Hnz : (BlockClass.height b =? 0)%Z = false).
  { apply Z.eqb_neq. rewrite Hheight. destruct HS as [HL _].
    destruct (Linked_last _ HL) as (l' & x & ->). rewrite length_app. cbn. lia. }
  split; [|split; [|split; [|split; [|split]]]].
  - unfold Blockchain.getChainHeight, bind, get_this, ret.
    cbn [push this height w1 called tick]. rewrite Hheight. destruct HS as [_ ->].
    do 2 f_equal. lia.
  - rewrite Hheight. apply (getBlockByHeight_stored env (push w1 b) _ b HS').
    cbn [push this chain w1 called tick]. apply nth_error_snoc.
  - exists (block_digest (BlockClass.height b) (BlockClass.time b)
              (BlockClass.previousBlockHash b) (BlockClass.body b)).
    assert (Hh : BlockClass.hash b
                 = Some (block_digest (BlockClass.height b) (BlockClass.time b)
                           (BlockClass.previousBlockHash b) (BlockClass.body b)))
      by (rewrite Hb; reflexivity).
    unfold Blockchain.getBlockByHash, bind, get_this, ret. cbn [fst].
    match goal with
    | |- context [find ?f ?l] => pose proof (find_first f l) as Hfind;
                                 destruct (find f l) as [p|]
    end.
    + exists p. split; [exact Hh|]. split; [reflexivity|].
      destruct Hfind as (j & _ & Hp & _). cbv beta in Hp.
      destruct (BlockClass.hash p) as [x|]; [|discriminate].
      apply String.eqb_eq in Hp. now subst.
    + exfalso. specialize (Hfind b). cbv beta in Hfind.
      rewrite Hh, String.eqb_refl in Hfind.
      assert (Hin : In b (chain (this (push w1 b))))
        by (cbn [push this chain]; apply in_or_app; right; left; reflexivity).
      specialize (Hfind Hin). discriminate.
  - eexists. unfold Blockchain.getStarsByWalletAddress, bind, get_this, ret. cbn [fst].
    split; [reflexivity|].
    cbn [push this chain w1 called tick]. rewrite map_app. unfold run_jobs.
    rewrite fold_left_app. cbn [map fold_left]. unfold Blockchain.stars_callback at 1.
    rewrite Hnz. unfold Blockchain.address_is, BlockClass.getBData.
    rewrite Hbody. cbn [BlockClass.address_of]. rewrite String.eqb_refl. reflexivity.
  - intros other Hne.
    unfold Blockchain.getStarsByWalletAddress, bind, get_this, ret. cbn [fst].
    cbn [push this chain w1 called tick]. rewrite map_app. unfold run_jobs.
    rewrite fold_left_app. cbn [map fold_left]. unfold Blockchain.stars_callback at 1.
    rewrite Hnz. unfold Blockchain.address_is, BlockClass.getBData.
    rewrite Hbody. cbn [BlockClass.address_of].
    destruct (String.eqb_spec address other) as [E|_]; [symmetry in E; contradiction|].
    reflexivity.
  - apply validateChain_linked. exact (proj1 HS').
Qed.

(** ** Any sequence of calls *)

Lemma initializeChain_again env w :
  Sound (this w) -> Blockchain.initializeChain env w = (tt, w).
Proof.
  intros [HL Hh]. unfold Blockchain.initializeChain, bind, get_this, ret.
  destruct (Linked_last _ HL) as (l' & t & E).
  destruct (Z.eqb_spec (height (this w)) (-1)) as [H|H]; [|reflexivity].
  exfalso. rewrite Hh, E, length_app in H. cbn [List.length] in H. lia.
Qed.

(** A world with the same object keeps the stored blocks and adds none. *)
Lemma grows_by_nothing (w w' : World) :
  this w' = this w ->
  exists added, chain (this w') = (chain (this w) ++ added)%list
                /\ (List.length added <= 1)%nat.
Proof. intros ->. exists []. split; [now rewrite app_nil_r | cbn; lia]. Qed.

Lemma perform_step env c w :
  Reachable env w ->
  Reachable env (snd (perform c env w))
  /\ exists added,
       chain (this (snd (perform c env w))) = (chain (this w) ++ added)%list
       /\ (List.length added <= 1)%nat.
Proof.
  intros HR. pose proof (Reachable_Sound _ _ HR) as HS.
  assert (Happend : forall w1 d,
            Reachable env w1 -> this w1 = this w ->
            Reachable env (snd (Blockchain._addBlock (BlockClass.new d) env w1))
            /\ exists added,
                 chain (this (snd (Blockchain._addBlock (BlockClass.new d) env w1)))
                 = (chain (this w) ++ added)%list
                 /\ (List.length added <= 1)%nat).
  { intros w1 d HR1 E. split; [apply reach_append; [reflexivity | exact HR1]|].
    destruct (Sound_append env w1 d (Reachable_Sound _ _ HR1)) as (t & _ & -> & _).
    cbn [snd push this chain]. rewrite E. eexists. split; [reflexivity | cbn; lia]. }
  destruct c as [ | address | address message signature star | h | h | address
                | | | d | address message signature star | address | ];
    cbn [perform snd].
  - split; [exact HR | apply grows_by_nothing; reflexivity].
  - unfold Blockchain.requestMessageOwnershipVerification, bind, ret.
    rewrite seconds_text_run. cbn [snd].
    split; [exact (reach_elsewhere env w _ _ HR) | apply grows_by_nothing; reflexivity].
  - split; [apply submitStar_Reachable; exact HR|].
    destruct (JS.lt (elapsed env w message) 300) eqn:Hlt.
    + destruct (bitcoinMessage_verify env message address signature) as [[|]|] eqn:Hv.
      * rewrite (submitStar_world _ _ _ _ _ _ HS Hlt Hv).
        apply Happend; [exact (reach_elsewhere env w _ _ HR) | reflexivity].
      * rewrite submitStar_unverified by (assumption || (rewrite Hv; discriminate)).
        apply grows_by_nothing; reflexivity.
      * rewrite submitStar_unverified by (assumption || (rewrite Hv; discriminate)).
        apply grows_by_nothing; reflexivity.
    + rewrite (submitStar_late _ _ _ _ _ _ Hlt). apply grows_by_nothing; reflexivity.
  - split; [exact HR | apply grows_by_nothing; reflexivity].
  - split; [exact HR | apply grows_by_nothing; reflexivity].
  - split; [exact HR | apply grows_by_nothing; reflexivity].
  - unfold Blockchain.validateChain. rewrite validateChain_world.
    split; [exact HR | apply grows_by_nothing; reflexivity].
  - rewrite (initializeChain_again env w HS).
    split; [exact HR | apply grows_by_nothing; reflexivity].
  - apply Happend; [exact HR | reflexivity].
  - split; [apply submitStar_Reachable; exact HR|].
    destruct (JS.gt (elapsed env w message) 300) eqn:Hgt.
    + unfold BlockchainCopy.submitStar, bind, ret.
      rewrite copy_calls_rejected by (right; exact Hgt). apply grows_by_nothing; reflexivity.
    + destruct (bitcoinMessage_verify env message address signature) as [[|]|] eqn:Hv.
      * rewrite (copy_world _ _ _ _ _ _ HS Hgt Hv).
        apply Happend; [exact (reach_elsewhere env w _ _ HR) | reflexivity].
      * unfold BlockchainCopy.submitStar, bind, ret.
        rewrite copy_calls_rejected by (left; rewrite Hv; discriminate).
        apply grows_by_nothing; reflexivity.
      * unfold BlockchainCopy.submitStar, bind, ret.
        rewrite copy_calls_rejected by (left; rewrite Hv; discriminate).
        apply grows_by_nothing; reflexivity.
  - split; [exact HR | apply grows_by_nothing; reflexivity].
  - rewrite copy_validateChain_world.
    split; [exact HR | apply grows_by_nothing; reflexivity].
Qed.

(** X15.  Whatever calls a client makes on the object after the
    constructor, in whatever order, the world stays one of those the
    constructor and appends build, so that what holds of these holds after
    the calls.  The blocks stored before the calls are still there, in
    place and unchanged; at most one block per call has been added after
    them, and the height has grown by the number of blocks added. *)
Theorem X15_calls_only_append :
  forall env calls w,
    Reachable env w ->
    Reachable env (snd (perform_all calls env w))
    /\ exists added,
         chain (this (snd (perform_all calls env w))) = (chain (this w) ++ added)%list
         /\ (List.length added <= List.length calls)%nat
         /\ height (this (snd (perform_all calls env w)))
            = (height (this w) + Z.of_nat (List.length added))%Z.
Proof.
  intros env calls.
  assert (Hgrow : forall w,
            Reachable env w ->
            Reachable env (snd (perform_all calls env w))
            /\ exists added,
                 chain (this (snd (perform_all calls env w)))
                 = (chain (this w) ++ added)%list
                 /\ (List.length added <= List.length calls)%nat).
  { induction calls as [|c rest IH]; intros w HR.
    - cbn [perform_all ret snd]. split; [exact HR|].
      exists []. split; [now rewrite app_nil_r | cbn; lia].
    - cbn [perform_all]. unfold bind.
      destruct (perform_step env c w HR) as (HR1 & added1 & E1 & Hlen1).
      destruct (perform c env w) as [[] w1]. cbn [snd] in HR1, E1.
      destruct (IH w1 HR1) as (HR2 & added2 & E2 & Hlen2).
      split; [exact HR2|]. exists (added1 ++ added2)%list.
      split; [rewrite E2, E1, app_assoc; reflexivity|].
      rewrite length_app. cbn [List.length]. lia. }
  intros w HR. destruct (Hgrow w HR) as (HR' & added & E & Hlen).
  split; [exact HR'|]. exists added. split; [exact E|]. split; [exact Hlen|].
  destruct (Reachable_Sound _ _ HR) as [_ Hh].
  destruct (Reachable_Sound _ _ HR') as [_ Hh'].
  rewrite Hh', Hh, E, length_app. lia.
Qed.

(** ** Submitting the same star again *)

(** X16.  [submitStar] of [src/blockchain.js] keeps no record of the
    messages it has accepted.  When a submission has resolved in a reachable
    world and the same four arguments are submitted again while the test
    [delaie < 300] still holds, the second submission resolves as well: a
    second block with the same payload is stored right after the first. *)
Theorem X16_a_submission_can_be_repeated :
  forall env w address message signature star b1,
    Reachable env w ->
    fst (Blockchain.submitStar address message signature star env w) = Resolved b1 ->
    JS.lt (elapsed env (snd (Blockchain.submitStar address message signature star env w))
                   message) 300 = true ->
    exists b2,
      fst (Blockchain.submitStar address message signature star env
             (snd (Blockchain.submitStar address message signature star env w)))
      = Resolved b2
      /\ chain (this (snd (Blockchain.submitStar address message signature star env
                             (snd (Blockchain.submitStar address message signature star
                                     env w)))))
         = (chain (this w) ++ [b1; b2])%list
      /\ BlockClass.body b2 = BlockClass.body b1
      /\ BlockClass.height b2 = (BlockClass.height b1 + 1)%Z
      /\ BlockClass.previousBlockHash b2 = BlockClass.hash b1.
Proof.
  intros env w address message signature star b1 HR Hr Hlt.
  pose proof (Reachable_Sound _ _ HR) as HS.
  assert (Hv : bitcoinMessage_verify env message address signature = Returns true).
  { destruct (JS.lt (elapsed env w message) 300) eqn:Hlt0;
      [|rewrite (submitStar_late _ _ _ _ _ _ Hlt0) in Hr; discriminate].
    destruct (bitcoinMessage_verify env message address signature) as [[|]|] eqn:Hv;
      [reflexivity| |];
      rewrite (submitStar_unverified _ _ _ _ _ _ Hlt0) in Hr
        by (rewrite Hv; discriminate);
      discriminate. }
  destruct (submitStar_resolved env w address message signature star b1 HS Hr)
    as (t & Ht & Hb1 & Hw).
  assert (HR1 : Reachable env (snd (Blockchain.submitStar address message signature star
                                      env w)))
    by (apply submitStar_Reachable; exact HR).
  pose proof (Reachable_Sound _ _ HR1) as HS1.
  destruct (submitStar_stored env _ address message signature star HS1 Hlt Hv)
    as (t1 & Ht1 & Hrun).
  cbv zeta in Hrun. rewrite Hrun. cbn [fst snd].
  rewrite Hw in Ht1 |- *. cbn [push this chain height called tick] in Ht1 |- *.
  rewrite tail_block_snoc in Ht1. injection Ht1 as <-.
  eexists. split; [reflexivity|]. split; [rewrite <- app_assoc; reflexivity|].
  cbn [sealed BlockClass.body BlockClass.height BlockClass.previousBlockHash].
  rewrite Hb1. cbn [sealed BlockClass.body BlockClass.height BlockClass.hash].
  split; [reflexivity|]. split; reflexivity.
Qed.

(** ** The times of the blocks *)

(** What a call does to a reachable world: it leaves the object as it is,
    or it stores one block stamped with the text of the clock; the number
    of clock readings never goes down. *)
Lemma perform_effect env c w :
  Reachable env w ->
  (this (snd (perform c env w)) = this w
   /\ (clock_reads w <= clock_reads (snd (perform c env w)))%nat)
  \/ (exists w1 b,
        this w1 = this w
        /\ (clock_reads w <= clock_reads w1)%nat
        /\ snd (perform c env w) = push w1 b
        /\ BlockClass.time b = clock_text env w1).
Proof.
  intros HR. pose proof (Reachable_Sound _ _ HR) as HS.
  assert (Happend : forall w1 d,
            this w1 = this w -> (clock_reads w <= clock_reads w1)%nat ->
            exists w2 b,
              this w2 = this w
              /\ (clock_reads w <= clock_reads w2)%nat
              /\ snd (Blockchain._addBlock (BlockClass.new d) env w1) = push w2 b
              /\ BlockClass.time b = clock_text env w2).
  { intros w1 d E Hle.
    assert (HS1 : Sound (this w1)) by (rewrite E; exact HS).
    destruct (Sound_append env w1 d HS1) as (t & _ & -> & _).
    exists w1. eexists. split; [exact E|]. split; [exact Hle|].
    split; reflexivity. }
  destruct c as [ | address | address message signature star | h | h | address
                | | | d | address message signature star | address | ];
    cbn [perform snd].
  - left. split; [reflexivity | exact (Nat.le_refl _)].
  - left. unfold Blockchain.requestMessageOwnershipVerification, bind, ret.
    rewrite seconds_text_run. cbn [snd tick this clock_reads]. split; [reflexivity | lia].
  - destruct (JS.lt (elapsed env w message) 300) eqn:Hlt.
    + destruct (bitcoinMessage_verify env message address signature) as [[|]|] eqn:Hv.
      * right. rewrite (submitStar_world _ _ _ _ _ _ HS Hlt Hv).
        apply Happend; [reflexivity | cbn; lia].
      * left. rewrite submitStar_unverified by (assumption || (rewrite Hv; discriminate)).
        cbn [snd called tick this clock_reads]. split; [reflexivity | lia].
      * left. rewrite submitStar_unverified by (assumption || (rewrite Hv; discriminate)).
        cbn [snd called tick this clock_reads]. split; [reflexivity | lia].
    + left. rewrite (submitStar_late _ _ _ _ _ _ Hlt).
      cbn [snd tick this clock_reads]. split; [reflexivity | lia].
  - left. split; [reflexivity | exact (Nat.le_refl _)].
  - left. split; [reflexivity | exact (Nat.le_refl _)].
  - left. split; [reflexivity | exact (Nat.le_refl _)].
  - left. unfold Blockchain.validateChain. rewrite validateChain_world.
    split; [reflexivity | lia].
  - left. rewrite (initializeChain_again env w HS). split; [reflexivity | cbn; lia].
  - right. apply Happend; [reflexivity | lia].
  - destruct (JS.gt (elapsed env w message) 300) eqn:Hgt.
    + left. unfold BlockchainCopy.submitStar, bind, ret.
      rewrite copy_calls_rejected by (right; exact Hgt).
      cbn [snd called tick this clock_reads]. split; [reflexivity | lia].
    + destruct (bitcoinMessage_verify env message address signature) as [[|]|] eqn:Hv.
      * right. rewrite (copy_world _ _ _ _ _ _ HS Hgt Hv).
        apply Happend; [reflexivity | cbn; lia].
      * left. unfold BlockchainCopy.submitStar, bind, ret.
        rewrite copy_calls_rejected by (left; rewrite Hv; discriminate).
        cbn [snd called tick this clock_reads]. split; [reflexivity | lia].
      * left. unfold BlockchainCopy.submitStar, bind, ret.
        rewrite copy_calls_rejected by (left; rewrite Hv; discriminate).
        cbn [snd called tick this clock_reads]. split; [reflexivity | lia].
  - left. split; [reflexivity | exact (Nat.le_refl _)].
  - left. rewrite copy_validateChain_world. split; [reflexivity | lia].
Qed.

Lemma StronglySorted_snoc (l : list nat) n :
  StronglySorted lt l -> Forall (fun x => (x < n)%nat) l -> StronglySorted lt (l ++ [n]).
Proof.
  induction 1 as [|x l Hs IH Hx]; intros Hall; cbn [app].
  - constructor; constructor.
  - inversion Hall as [|? ? Hxn Hrest]; subst. constructor; [apply IH; exact Hrest|].
    apply Forall_app. split; [exact Hx | constructor; [exact Hxn | constructor]].
Qed.

Lemma StronglySorted_nth (l : list nat) :
  StronglySorted lt l ->
  forall i j a b, (i < j)%nat -> nth_error l i = Some a -> nth_error l j = Some b ->
                  (a < b)%nat.
Proof.
  induction 1 as [|x l Hs IH Hx]; intros i j a b Hij Hi Hj.
  - destruct i; discriminate.
  - destruct j as [|j]; [lia|]. cbn [nth_error] in Hj. destruct i as [|i].
    + injection Hi as <-. rewrite Forall_forall in Hx. apply Hx.
      eapply nth_error_In. exact Hj.
    + cbn [nth_error] in Hi. apply (IH i j a b); [lia | exact Hi | exact Hj].
Qed.

Lemma Forall2_nth {A B : Type} (R : A -> B -> Prop) l l' :
  Forall2 R l l' ->
  forall k x, nth_error l k = Some x -> exists y, nth_error l' k = Some y /\ R x y.
Proof.
  induction 1 as [|x y l l' Hxy _ IH]; intros k z Hk.
  - destruct k; discriminate.
  - destruct k as [|k]; cbn [nth_error] in Hk |- *.
    + injection Hk as <-. exists y. split; [reflexivity | exact Hxy].
    + apply IH. exact Hk.
Qed.

(** The blocks are stamped at readings of the clock taken one after the
    other. *)
Lemma stamped_after_calls env calls :
  forall w,
    Reachable env w ->
    (exists reads,
       Forall2 (fun b n => BlockClass.time b
                           = JS.slice_0_minus3 (JS.N_toString (Date_getTime env n)))
               (chain (this w)) reads
       /\ StronglySorted lt reads
       /\ Forall (fun n => (n < clock_reads w)%nat) reads) ->
    exists reads,
      Forall2 (fun b n => BlockClass.time b
                          = JS.slice_0_minus3 (JS.N_toString (Date_getTime env n)))
              (chain (this (snd (perform_all calls env w)))) reads
      /\ StronglySorted lt reads.
Proof.
  induction calls as [|c rest IH]; intros w HR (reads & Htimes & Hsorted & Hpast).
  - cbn [perform_all ret snd]. exists reads. split; assumption.
  - cbn [perform_all]. unfold bind.
    pose proof (perform_step env c w HR) as [HR1 _].
    pose proof (perform_effect env c w HR) as Heff.
    destruct (perform c env w) as [[] w1]. cbn [snd] in HR1, Heff.
    assert (Hnext : exists reads1,
              Forall2 (fun b n => BlockClass.time b
                                  = JS.slice_0_minus3 (JS.N_toString (Date_getTime env n)))
                      (chain (this w1)) reads1
              /\ StronglySorted lt reads1
              /\ Forall (fun n => (n < clock_reads w1)%nat) reads1).
    { destruct Heff as [[E Hle]|(w2 & b & E & Hle & -> & Hb)].
      - exists reads. rewrite E. split; [exact Htimes|]. split; [exact Hsorted|].
        eapply Forall_impl; [|exact Hpast]. cbn beta. intros n Hn. lia.
      - exists (reads ++ [clock_reads w2])%list. cbn [push this chain clock_reads].
        rewrite E. split; [|split].
        + apply Forall2_app; [exact Htimes|]. constructor; [exact Hb | constructor].
        + apply StronglySorted_snoc; [exact Hsorted|].
          eapply Forall_impl; [|exact Hpast]. cbn beta. intros n Hn. lia.
        + apply Forall_app. split.
          * eapply Forall_impl; [|exact Hpast]. cbn beta. intros n Hn. lia.
          * constructor; [lia | constructor]. }
    destruct (IH w1 HR1 Hnext) as (reads2 & Htimes2 & Hsorted2).
    exists reads2. split; [exact Htimes2 | exact Hsorted2].
Qed.

(** X17.  With a clock that never goes back, the times of the blocks never
    go back along the chain: after the constructor and any calls, a block
    stored before another carries a time, in whole seconds, that is at most
    the time of the other. *)
Theorem X17_the_times_of_the_blocks_follow_the_clock :
  forall env w0 calls i j bi bj,
    (forall n, (1000 <= Date_getTime env n)%N) ->
    (forall n m, (n <= m)%nat -> (Date_getTime env n <= Date_getTime env m)%N) ->
    (i <= j)%nat ->
    nth_error (chain (this (snd (perform_all calls env
                                   (snd (Blockchain.constructor env w0)))))) i = Some bi ->
    nth_error (chain (this (snd (perform_all calls env
                                   (snd (Blockchain.constructor env w0)))))) j = Some bj ->
    exists ti tj,
      JS.parseInt (Some (BlockClass.time bi)) = Some ti
      /\ JS.parseInt (Some (BlockClass.time bj)) = Some tj
      /\ (ti <= tj)%Z.
Proof.
  intros env w0 calls i j bi bj Hms Hmono Hij Hi Hj.
  destruct (stamped_after_calls env calls (snd (Blockchain.constructor env w0))
              (reach_constructor env w0)) as (reads & Htimes & Hsorted).
  { rewrite constructor_run. cbn [snd push this chain clock_reads app].
    exists [clock_reads w0]. split; [|split].
    - constructor; [reflexivity | constructor].
    - constructor; constructor.
    - constructor; [lia | constructor]. }
  assert (Hat : forall k b,
            nth_error (chain (this (snd (perform_all calls env
                                           (snd (Blockchain.constructor env w0)))))) k
            = Some b ->
            exists n, nth_error reads k = Some n
                      /\ JS.parseInt (Some (BlockClass.time b))
                         = Some (Z.of_N (Date_getTime env n / 1000))).
  { intros k b Hk. destruct (Forall2_nth _ _ _ Htimes k b Hk) as (n & Hn & Hb).
    exists n. split; [exact Hn|]. rewrite Hb.
    apply DecimalText.seconds_of_clock. apply Hms. }
  destruct (Hat i bi Hi) as (ni & Hni & Hti).
  destruct (Hat j bj Hj) as (nj & Hnj & Htj).
  exists (Z.of_N (Date_getTime env ni / 1000)), (Z.of_N (Date_getTime env nj / 1000)).
  split; [exact Hti|]. split; [exact Htj|].
  assert (Hle : (ni <= nj)%nat).
  { destruct (Nat.eq_dec i j) as [->|Hne].
    - rewrite Hni in Hnj. injection Hnj as ->. lia.
    - assert (Hlt : (i < j)%nat) by lia.
      pose proof (StronglySorted_nth reads Hsorted i j ni nj Hlt Hni Hnj). lia. }
  apply N2Z.inj_le. apply N.Div0.div_le_mono. apply Hmono. exact Hle.
Qed.

(** ** The further properties on the sample worlds *)

Lemma wallet_has_no_colon : ~ In ":"%char (list_ascii_of_string Sample.wallet).
Proof.
  intros H. vm_compute in H.
  repeat (destruct H as [H|H]; [discriminate H|]). exact H.
Qed.

Lemma two_stars_height : height (this Sample.two_stars) = 2%Z.
Proof. vm_compute. reflexivity. Qed.

Lemma X1_witness :
  Reachable Sample.accepting Sample.two_stars
  /\ fst (Blockchain.getChainHeight Sample.accepting Sample.two_stars) = Resolved 2%Z.
Proof.
  split; [exact two_stars_reachable|].
  destruct (X1_getChainHeight_is_the_height_of_the_last_block
              Sample.accepting Sample.two_stars two_stars_reachable)
    as (last & _ & Hrun & Hlen & _).
  rewrite Hrun. cbn [fst]. rewrite Hlen. vm_compute. reflexivity.
Defined.

Lemma X2_witness :
  Reachable Sample.accepting Sample.started
  /\ exists b,
       fst (Blockchain._addBlock
              (BlockClass.new (BlockClass.Star Sample.wallet Sample.challenge_1
                                               Sample.signature Sample.star))
              Sample.accepting Sample.started) = Resolved b
       /\ BlockClass.height b = 1%Z.
Proof.
  split; [exact started_reachable|].
  destruct (X2_addBlock_appends_the_block_it_resolves_with Sample.accepting Sample.started
              (BlockClass.new (BlockClass.Star Sample.wallet Sample.challenge_1
                                               Sample.signature Sample.star))
              started_reachable eq_refl)
    as (last & b & _ & Hrun & Hh & _).
  exists b. rewrite Hrun. split; [reflexivity|].
  rewrite Hh. vm_compute. reflexivity.
Defined.

Lemma X4_witness :
  Reachable Sample.accepting Sample.two_stars
  /\ (exists b,
        Blockchain.getBlockByHeight 1 Sample.accepting Sample.two_stars
        = (Resolved (Some b), Sample.two_stars)
        /\ BlockClass.height b = 1%Z)
  /\ Blockchain.getBlockByHeight 3 Sample.accepting Sample.two_stars
     = (Resolved None, Sample.two_stars).
Proof.
  split; [exact two_stars_reachable|]. split.
  - destruct (proj1 (X4_getBlockByHeight_returns_the_block_at_that_position
                       Sample.accepting Sample.two_stars 1 two_stars_reachable))
      as (b & _ & Hh & Hrun).
    + rewrite two_stars_height. lia.
    + exists b. split; [exact Hrun | exact Hh].
  - apply (X4_getBlockByHeight_returns_the_block_at_that_position
             Sample.accepting Sample.two_stars 3 two_stars_reachable).
    right. rewrite two_stars_height. lia.
Defined.

Lemma X6_witness :
  (1000 <= Date_getTime Sample.accepting (clock_reads Sample.started))%N
  /\ JS.parseInt (Some (fst (seconds_text Sample.accepting Sample.started)))
     = Some 1700000001%Z
  /\ (Date_getTime (mkEnv (fun _ => 999%N) (fun _ _ _ => Returns true))
                   (clock_reads Sample.started) < 1000)%N
  /\ Blockchain.submitStar Sample.wallet Sample.challenge_1 Sample.signature Sample.star
       (mkEnv (fun _ => 999%N) (fun _ _ _ => Returns true)) Sample.started
     = (Rejected ChallengeExpired, tick Sample.started).
Proof.
  assert (Hms : (1000 <= Date_getTime Sample.accepting (clock_reads Sample.started))%N)
    by (apply sample_clock_late; reflexivity).
  assert (Hearly : (Date_getTime (mkEnv (fun _ => 999%N) (fun _ _ _ => Returns true))
                                 (clock_reads Sample.started) < 1000)%N)
    by (cbn [Date_getTime]; lia).
  split; [exact Hms|]. split; [|split; [exact Hearly|]].
  - destruct (proj1 (X6_the_clock_is_read_in_whole_seconds Sample.accepting Sample.started)
                Hms) as [_ Hread].
    rewrite Hread. vm_compute. reflexivity.
  - apply (proj2 (X6_the_clock_is_read_in_whole_seconds
                    (mkEnv (fun _ => 999%N) (fun _ _ _ => Returns true)) Sample.started)
             Hearly).
Defined.

Lemma X7_witness :
  (1000 <= Date_getTime Sample.accepting (clock_reads Sample.started))%N
  /\ exists message,
       Blockchain.requestMessageOwnershipVerification Sample.wallet
         Sample.accepting Sample.started
       = (Resolved message, tick Sample.started)
       /\ Blockchain.time_in message = Some 1700000001%Z.
Proof.
  assert (Hms : (1000 <= Date_getTime Sample.accepting (clock_reads Sample.started))%N)
    by (apply sample_clock_late; reflexivity).
  split; [exact Hms|].
  destruct (X7_the_challenge_names_the_address_and_the_second_of_issue
              Sample.accepting Sample.started Sample.wallet Hms)
    as (message & Hrun & _ & _ & Hno & _).
  exists message. split; [exact Hrun|].
  rewrite (Hno wallet_has_no_colon). vm_compute. reflexivity.
Defined.

Lemma X8_witness :
  Reachable Sample.accepting Sample.started
  /\ ~ In ":"%char (list_ascii_of_string Sample.wallet)
  /\ exists message b,
       Blockchain.requestMessageOwnershipVerification Sample.wallet
         Sample.accepting Sample.started
       = (Resolved message, tick Sample.started)
       /\ fst (Blockchain.submitStar Sample.wallet message Sample.signature Sample.star
                 Sample.accepting (tick Sample.started)) = Resolved b.
Proof.
  split; [exact started_reachable|]. split; [exact wallet_has_no_colon|].
  destruct (X8_a_challenge_is_good_for_less_than_300_seconds
              Sample.accepting Sample.started Sample.wallet Sample.signature Sample.star
              started_reachable wallet_has_no_colon)
    as (message & Hrun & Hok & _).
  - apply sample_clock_late. reflexivity.
  - unfold Sample.accepting, Sample.clock. cbn [Date_getTime]. lia.
  - destruct Hok as (b & Hb & _); [vm_compute; reflexivity | reflexivity |].
    exists message, b. split; [exact Hrun | exact Hb].
Defined.

Lemma X11_witness :
  Reachable Sample.accepting Sample.two_stars
  /\ Blockchain.initializeChain Sample.accepting Sample.two_stars = (tt, Sample.two_stars).
Proof.
  split; [exact two_stars_reachable|].
  exact (proj2 (X11_initializeChain_stores_one_genesis_block_only
                  Sample.accepting Sample.two_stars) two_stars_reachable).
Defined.

Lemma X12_witness :
  Reachable Sample.accepting Sample.started
  /\ exists b,
       fst (Blockchain.submitStar Sample.wallet Sample.challenge_1 Sample.signature
              Sample.star Sample.accepting Sample.started) = Resolved b
       /\ this (snd (Blockchain.submitStar Sample.wallet Sample.challenge_1 Sample.signature
                       Sample.star Sample.accepting Sample.started))
          = mkBlockchain (chain (this Sample.started) ++ [b]) (height (this Sample.started) + 1).
Proof.
  split; [exact started_reachable|].
  destruct (proj2 (X12_submitStar_settles_in_one_of_three_ways Sample.accepting
                     Sample.started Sample.wallet Sample.challenge_1 Sample.signature
                     Sample.star) started_reachable)
    as [(Hlt & _)|[(_ & Hv & _)|(_ & _ & b & Hb & _ & Hw & _)]].
  - vm_compute in Hlt. discriminate Hlt.
  - exfalso. apply Hv. reflexivity.
  - exists b. split; [exact Hb | exact Hw].
Defined.

Lemma X13_witness :
  Reachable Sample.refusing Sample.started
  /\ fst (BlockchainCopy.submitStar Sample.wallet Sample.challenge_1 Sample.signature
            Sample.star Sample.refusing Sample.started)
     = Rejected (TheBlock (BlockClass.new
                             (BlockClass.Star Sample.wallet Sample.challenge_1
                                              Sample.signature Sample.star)))
  /\ this (snd (BlockchainCopy.submitStar Sample.wallet Sample.challenge_1 Sample.signature
                  Sample.star Sample.refusing Sample.started))
     = this Sample.started.
Proof.
  assert (HR : Reachable Sample.refusing Sample.started).
  { apply (reach_elsewhere Sample.refusing
             (snd (Blockchain.constructor Sample.refusing Sample.blank)) 1 []).
    apply reach_constructor. }
  split; [exact HR|].
  destruct (proj2 (X13_the_copy_settles_in_one_of_three_ways Sample.refusing
                     Sample.started Sample.wallet Sample.challenge_1 Sample.signature
                     Sample.star) HR)
    as [(Hgt & _)|[(_ & _ & Hr & Hw)|(_ & Hv & _)]].
  - vm_compute in Hgt. discriminate Hgt.
  - split; [exact Hr | exact Hw].
  - discriminate Hv.
Defined.

Lemma X14_witness :
  Reachable Sample.accepting Sample.started
  /\ exists b,
       fst (Blockchain.submitStar Sample.wallet Sample.challenge_1 Sample.signature
              Sample.star Sample.accepting Sample.started) = Resolved b
       /\ fst (Blockchain.getBlockByHeight (BlockClass.height b) Sample.accepting
                 (snd (Blockchain.submitStar Sample.wallet Sample.challenge_1
                         Sample.signature Sample.star Sample.accepting Sample.started)))
          = Resolved (Some b).
Proof.
  split; [exact started_reachable|].
  assert (Hr : exists b,
             fst (Blockchain.submitStar Sample.wallet Sample.challenge_1 Sample.signature
                    Sample.star Sample.accepting Sample.started) = Resolved b)
    by (eexists; vm_compute; reflexivity).
  destruct Hr as [b Hr]. exists b. split; [exact Hr|].
  destruct (X14_a_stored_star_is_found_again Sample.accepting Sample.started Sample.wallet
              Sample.challenge_1 Sample.signature Sample.star b started_reachable Hr)
    as (_ & Hfound & _).
  rewrite Hfound. reflexivity.
Defined.

Lemma X15_witness :
  Reachable Sample.accepting Sample.started
  /\ Reachable Sample.accepting
       (snd (perform_all
               [call_submitStar Sample.wallet Sample.challenge_1 Sample.signature Sample.star;
                call_getChainHeight;
                call_copy_submitStar Sample.wallet Sample.challenge_1 Sample.signature
                  Sample.star]
               Sample.accepting Sample.started)).
Proof.
  split; [exact started_reachable|].
  exact (proj1 (X15_calls_only_append Sample.accepting _ Sample.started started_reachable)).
Defined.

Lemma X16_witness :
  Reachable Sample.accepting Sample.started
  /\ exists b1 b2,
       fst (Blockchain.submitStar Sample.wallet Sample.challenge_1 Sample.signature
              Sample.star Sample.accepting Sample.started) = Resolved b1
       /\ fst (Blockchain.submitStar Sample.wallet Sample.challenge_1 Sample.signature
                 Sample.star Sample.accepting
                 (snd (Blockchain.submitStar Sample.wallet Sample.challenge_1
                         Sample.signature Sample.star Sample.accepting Sample.started)))
          = Resolved b2
       /\ BlockClass.body b2 = BlockClass.body b1.
Proof.
  split; [exact started_reachable|].
  assert (Hr : exists b,
             fst (Blockchain.submitStar Sample.wallet Sample.challenge_1 Sample.signature
                    Sample.star Sample.accepting Sample.started) = Resolved b)
    by (eexists; vm_compute; reflexivity).
  destruct Hr as [b1 Hr].
  destruct (X16_a_submission_can_be_repeated Sample.accepting Sample.started Sample.wallet
              Sample.challenge_1 Sample.signature Sample.star b1 started_reachable Hr)
    as (b2 & Hb2 & _ & Hbody & _); [vm_compute; reflexivity|].
  exists b1, b2. split; [exact Hr|]. split; [exact Hb2 | exact Hbody].
Defined.

Lemma X17_witness :
  (forall n, (1000 <= Date_getTime Sample.accepting n)%N)
  /\ (forall n m, (n <= m)%nat ->
                  (Date_getTime Sample.accepting n <= Date_getTime Sample.accepting m)%N)
  /\ exists bi bj ti tj,
       nth_error (chain (this (snd (perform_all
                    [call_submitStar Sample.wallet Sample.challenge_1 Sample.signature
                       Sample.star]
                    Sample.accepting
                    (snd (Blockchain.constructor Sample.accepting Sample.blank)))))) 0
       = Some bi
       /\ nth_error (chain (this (snd (perform_all
                       [call_submitStar Sample.wallet Sample.challenge_1 Sample.signature
                          Sample.star]
                       Sample.accepting
                       (snd (Blockchain.constructor Sample.accepting Sample.blank)))))) 1
          = Some bj
       /\ JS.parseInt (Some (BlockClass.time bi)) = Some ti
       /\ JS.parseInt (Some (BlockClass.time bj)) = Some tj
       /\ (ti <= tj)%Z.
Proof.
  assert (Hms : forall n, (1000 <= Date_getTime Sample.accepting n)%N)
    by (intros n; unfold Sample.accepting, Sample.clock; cbn [Date_getTime]; lia).
  assert (Hmono : forall n m, (n <= m)%nat ->
                    (Date_getTime Sample.accepting n <= Date_getTime Sample.accepting m)%N)
    by (intros n m H; unfold Sample.accepting, Sample.clock; cbn [Date_getTime]; lia).
  split; [exact Hms|]. split; [exact Hmono|].
  assert (Hi : exists bi,
             nth_error (chain (this (snd (perform_all
                          [call_submitStar Sample.wallet Sample.challenge_1 Sample.signature
                             Sample.star]
                          Sample.accepting
                          (snd (Blockchain.constructor Sample.accepting Sample.blank)))))) 0
             = Some bi)
    by (eexists; vm_compute; reflexivity).
  assert (Hj : exists bj,
             nth_error (chain (this (snd (perform_all
                          [call_submitStar Sample.wallet Sample.challenge_1 Sample.signature
                             Sample.star]
                          Sample.accepting
                          (snd (Blockchain.constructor Sample.accepting Sample.blank)))))) 1
             = Some bj)
    by (eexists; vm_compute; reflexivity).
  destruct Hi as [bi Hi]. destruct Hj as [bj Hj].
  destruct (X17_the_times_of_the_blocks_follow_the_clock Sample.accepting Sample.blank
              _ 0%nat 1%nat bi bj Hms Hmono (Nat.le_succ_diag_r 0) Hi Hj)
    as (ti & tj & Hti & Htj & Hle).
  exists bi, bj, ti, tj.
  split; [exact Hi|]. split; [exact Hj|]. split; [exact Hti|]. split; [exact Htj | exact Hle].
Defined.
